(** * svgtoexc: SVG to Excalidraw conversion core

    A shallow embedding of the conversion engine (style cascade, transform
    accumulation, path decomposition, per-tag converters, orchestration)
    together with the properties stated about it.

    Conventions of the embedding
    - A JavaScript [number] is the fraction ([Q]) its binary64 value stands
      for.  The shoelace loops round every operation to binary64
      ([Double]); elsewhere the exact result stands for the rounded one.
      [NaN] only arises from [Number.parseFloat], which is modelled as
      returning [option Q]; infinities are not represented.
    - [string | null] is [option string]; JavaScript truthiness of a string
      is "present and non-empty".
    - A DOM element is a tree node together with the chain of its ancestors
      (nearest parent first), which is what [parentElement] walks.
    - [Math.random] is an oracle indexed by the number of draws made so far;
      code that draws random numbers lives in the [Rand] state monad.
    - A call into a library that may throw returns an [Exc] value, and
      [try ... catch] is a match on it.  The one call whose error nothing
      catches, the [querySelector] of the gradient lookup, is followed up
      to the caller of the conversion by functions named [...Error]. *)

From Stdlib Require Import List String Ascii Bool Arith Lia ZArith.
From Stdlib Require Import QArith Qabs Qminmax Qround Lqa.
Import ListNotations.

Set Implicit Arguments.
Set Warnings "-register-all".

(* ===================================================================== *)
(** ** JavaScript strings *)
(* ===================================================================== *)

Module Js.

Local Open Scope string_scope.

(** Characters removed by [String.prototype.trim] and matched by [\s]
    (the ASCII ones). *)
Definition isWhitespace (c : ascii) : bool :=
  let n := nat_of_ascii c in
  (Nat.leb 9 n && Nat.leb n 13) || Nat.eqb n 32.

Definition lowerChar (c : ascii) : ascii :=
  let n := nat_of_ascii c in
  if Nat.leb 65 n && Nat.leb n 90 then ascii_of_nat (n + 32) else c.

Fixpoint toLowerCase (s : string) : string :=
  match s with
  | EmptyString => EmptyString
  | String c rest => String (lowerChar c) (toLowerCase rest)
  end.

Fixpoint trimStart (s : string) : string :=
  match s with
  | EmptyString => EmptyString
  | String c rest => if isWhitespace c then trimStart rest else s
  end.

Definition reverse (s : string) : string :=
  string_of_list_ascii (rev (list_ascii_of_string s)).

Definition trimEnd (s : string) : string := reverse (trimStart (reverse s)).

Definition trim (s : string) : string := trimEnd (trimStart s).

(** [s.split(sep)] for a one-character separator: never empty. *)
Fixpoint split (sep : ascii) (s : string) : list string :=
  match s with
  | EmptyString => [EmptyString]
  | String c rest =>
      if Ascii.eqb c sep then EmptyString :: split sep rest
      else match split sep rest with
           | [] => [String c EmptyString]
           | piece :: pieces => String c piece :: pieces
           end
  end.

(** [s.split(/\s+/).filter(Boolean)]: the maximal runs of non-blanks. *)
Fixpoint words_from (current : string) (s : string) : list string :=
  match s with
  | EmptyString => if (current =? "")%string then [] else [reverse current]
  | String c rest =>
      if isWhitespace c
      then if (current =? "")%string then words_from "" rest
           else reverse current :: words_from "" rest
      else words_from (String c current) rest
  end.

Definition words (s : string) : list string := words_from "" s.

(** [s.indexOf(c)], the negative answer being [None]. *)
Fixpoint indexOf (c : ascii) (s : string) : option nat :=
  match s with
  | EmptyString => None
  | String d rest =>
      if Ascii.eqb d c then Some 0%nat
      else match indexOf c rest with
           | Some i => Some (S i)
           | None => None
           end
  end.

(** [s.slice(from)] and [s.slice(0, to)]. *)
Definition sliceFrom (from : nat) (s : string) : string :=
  substring from (String.length s - from)%nat s.

Definition sliceTo (to : nat) (s : string) : string := substring 0 to s.

Definition startsWith (s pre : string) : bool := prefix pre s.

Fixpoint includes (s sub : string) : bool :=
  if prefix sub s then true
  else match s with
       | EmptyString => false
       | String _ rest => includes rest sub
       end.

Fixpoint join (sep : string) (pieces : list string) : string :=
  match pieces with
  | [] => ""
  | [piece] => piece
  | piece :: rest => piece ++ sep ++ join sep rest
  end.

(** Truthiness of a [string | null]. *)
Definition truthy (value : option string) : bool :=
  match value with
  | Some s => negb (s =? "")
  | None => false
  end.

(** [a ?? b] *)
Definition orElse {A : Type} (a : option A) (b : option A) : option A :=
  match a with
  | Some _ => a
  | None => b
  end.

(** A [Map<string, V>]: insertion ordered, [set] overwrites in place. *)
Definition Map (V : Type) : Type := list (string * V).

Fixpoint get {V : Type} (m : Map V) (key : string) : option V :=
  match m with
  | [] => None
  | (k, v) :: rest => if (k =? key) then Some v else get rest key
  end.

Fixpoint set {V : Type} (m : Map V) (key : string) (value : V) : Map V :=
  match m with
  | [] => [(key, value)]
  | (k, v) :: rest =>
      if (k =? key) then (k, value) :: rest else (k, v) :: set rest key value
  end.

End Js.

Notation "a ?? b" := (Js.orElse a b) (at level 72, right associativity).

(* ===================================================================== *)
(** ** Numbers and exceptions *)
(* ===================================================================== *)

Definition Qltb (x y : Q) : bool := negb (Qle_bool y x).
Definition Qgtb (x y : Q) : bool := Qltb y x.
Definition Qleb (x y : Q) : bool := Qle_bool x y.
Definition Qgeb (x y : Q) : bool := Qle_bool y x.

(** The outcome of a call that may throw. *)
Inductive Exc (A : Type) : Type :=
| Returned (value : A)
| Thrown (message : string).

Arguments Returned {A} value.
Arguments Thrown {A} message.

Definition bindExc {A B : Type} (c : Exc A) (k : A -> Exc B) : Exc B :=
  match c with
  | Returned a => k a
  | Thrown message => Thrown message
  end.

(** [try { body } catch { handler }] *)
Definition tryCatch {A : Type} (body : Exc A) (handler : A) : A :=
  match body with
  | Returned a => a
  | Thrown _ => handler
  end.

(** Code that calls [Math.random]: the state is the number of draws made. *)
Definition Rand (A : Type) : Type := nat -> A * nat.

Definition ret {A : Type} (a : A) : Rand A := fun draws => (a, draws).

Definition bind {A B : Type} (c : Rand A) (k : A -> Rand B) : Rand B :=
  fun draws => let (a, draws') := c draws in k a draws'.

Declare Scope rand_scope.
Delimit Scope rand_scope with rand.
Notation "x <- c ;; k" := (bind c (fun x => k))
  (at level 61, c at next level, right associativity) : rand_scope.

(* ===================================================================== *)
(** ** The DOM tree *)
(* ===================================================================== *)

Inductive Markup : Type :=
| Tag (name : string) (attributes : list (string * string)) (childNodes : list Markup)
| Text (data : string).

(** An element handle: the element and its ancestors, nearest first. *)
Record SvgElement : Type := mkSvgElement {
  self : Markup;
  ancestors : list Markup
}.

Module Dom.

Local Open Scope string_scope.

Definition tagNameOf (m : Markup) : string :=
  match m with
  | Tag name _ _ => name
  | Text _ => ""
  end.

Definition attributesOf (m : Markup) : list (string * string) :=
  match m with
  | Tag _ attributes _ => attributes
  | Text _ => []
  end.

Definition childNodesOf (m : Markup) : list Markup :=
  match m with
  | Tag _ _ childNodes => childNodes
  | Text _ => []
  end.

Definition tagName (element : SvgElement) : string := tagNameOf (self element).

Definition getAttribute (element : SvgElement) (name : string) : option string :=
  Js.get (attributesOf (self element)) name.

Definition hasAttribute (element : SvgElement) (name : string) : bool :=
  match getAttribute element name with
  | Some _ => true
  | None => false
  end.

Definition parentElement (element : SvgElement) : option SvgElement :=
  match ancestors element with
  | [] => None
  | parent :: above => Some (mkSvgElement parent above)
  end.

(** [textContent]: the text of all descendants, in document order. *)
Fixpoint textOf (m : Markup) : string :=
  match m with
  | Text data => data
  | Tag _ _ childNodes =>
      (fix concat (nodes : list Markup) : string :=
         match nodes with
         | [] => ""
         | node :: rest => textOf node ++ concat rest
         end) childNodes
  end.

Definition textContent (element : SvgElement) : string := textOf (self element).

(** All element descendants of [m], in document order, each with its
    ancestor chain; [above] is the chain of [m] itself. *)
Fixpoint descendants (above : list Markup) (m : Markup) : list SvgElement :=
  match m with
  | Text _ => []
  | Tag _ _ childNodes =>
      (fix visit (nodes : list Markup) : list SvgElement :=
         match nodes with
         | [] => []
         | Text _ :: rest => visit rest
         | (Tag _ _ _ as child) :: rest =>
             mkSvgElement child (m :: above)
               :: descendants (m :: above) child ++ visit rest
         end) childNodes
  end.

(** [element.querySelectorAll("t1, t2, ...")] for type selectors. *)
Definition querySelectorAll (element : SvgElement) (tags : list string)
  : list SvgElement :=
  filter (fun e => existsb (String.eqb (tagName e)) tags)
         (descendants (ancestors element) (self element)).

Definition querySelector (element : SvgElement) (tag : string)
  : option SvgElement :=
  hd_error (querySelectorAll element [tag]).

(** [element.querySelector("#id")] *)
Definition querySelectorById (element : SvgElement) (id : string)
  : option SvgElement :=
  find (fun e => match getAttribute e "id" with
                 | Some value => value =? id
                 | None => false
                 end)
       (descendants (ancestors element) (self element)).

End Dom.

(* ===================================================================== *)
(** ** Rounding to binary64 *)
(* ===================================================================== *)

(** JavaScript numbers are binary64 values; here they are the fractions
    these values stand for.  An arithmetic operation of the shoelace loops
    returns the exact result rounded to the nearest binary64 value, the one
    with an even significand of two equally near: 53 significant bits,
    exponents down to the subnormal range.  Overflow to an infinity and
    [NaN] are not represented.  Elsewhere an exact result stands for the
    rounded one; nothing proved there depends on the difference. *)
Module Double.

Local Open Scope Z_scope.

(** The integer part of the base-2 logarithm of [n / d]. *)
Definition floorLog2 (n d : positive) : Z :=
  let k := Z.log2 (Zpos n) - Z.log2 (Zpos d) in
  if (if 0 <=? k then Zpos d * 2 ^ k <=? Zpos n
      else Zpos d <=? Zpos n * 2 ^ (- k))
  then k
  else k - 1.

(** The integer nearest to [n / d], the even one of two equally near. *)
Definition nearestEven (n d : Z) : Z :=
  let q := n / d in
  match 2 * (n mod d) ?= d with
  | Lt => q
  | Gt => q + 1
  | Eq => if Z.even q then q else q + 1
  end.

(** [n / d] as a multiple of the unit in its last place. *)
Definition roundPositive (n d : positive) : Q :=
  let e := Z.max (floorLog2 n d - 52) (- 1074) in
  if 0 <=? e
  then inject_Z (nearestEven (Zpos n) (Zpos d * 2 ^ e) * 2 ^ e)
  else Qred (nearestEven (Zpos n * 2 ^ (- e)) (Zpos d) # Z.to_pos (2 ^ (- e))).

Definition round (q : Q) : Q :=
  match Qnum (Qred q) with
  | Z0 => 0%Q
  | Zpos n => roundPositive n (Qden (Qred q))
  | Zneg n => Qopp (roundPositive n (Qden (Qred q)))
  end.

(** [a + b], [a - b], [a * b] and [a / b] on numbers. *)
Definition add (a b : Q) : Q := round (a + b)%Q.
Definition sub (a b : Q) : Q := round (a - b)%Q.
Definition mul (a b : Q) : Q := round (a * b)%Q.
Definition div (a b : Q) : Q := round (a / b)%Q.

(** [q] is a binary64 value: rounding leaves it as it is. *)
Definition exact (q : Q) : Prop := (round q == q)%Q.

End Double.

(* ===================================================================== *)
(** ** Geometry kernel (converter/svg/geometry.ts) *)
(* ===================================================================== *)

Definition Point : Type := (Q * Q)%type.

Record BoundingBox : Type := mkBoundingBox {
  minX : Q;
  minY : Q;
  maxX : Q;
  maxY : Q
}.

Inductive WindingDirection : Type :=
| Clockwise
| CounterClockwise.

Record WindingOrder : Type := mkWindingOrder {
  direction : WindingDirection;
  signedArea : Q
}.

Definition WindingDirection_eqb (a b : WindingDirection) : bool :=
  match a, b with
  | Clockwise, Clockwise => true
  | CounterClockwise, CounterClockwise => true
  | _, _ => false
  end.

Module Geometry.

Local Open Scope Q_scope.

(** [points[index] ?? [0, 0]] *)
Definition pointAt (points : list Point) (index : nat) : Point :=
  nth index points (0, 0).

(** One summand of the loop: [(x2 - x1) * (y2 + y1)], each operation
    rounded. *)
Definition edgeTerm (p1 p2 : Point) : Q :=
  Double.mul (Double.sub (fst p2) (fst p1)) (Double.add (snd p2) (snd p1)).

(** The loop shared by [getWindingOrder] and [getPolygonArea]:
    [for (index = 0; index < points.length; index += 1) sum += ...]. *)
Definition shoelaceSum (points : list Point) : Q :=
  fold_left
    (fun sum index =>
       Double.add sum
         (edgeTerm (pointAt points index)
                   (pointAt points (Nat.modulo (index + 1) (List.length points)))))
    (seq 0 (List.length points)) 0.

Definition getWindingOrder (points : list Point) : WindingOrder :=
  let sum := shoelaceSum points in
  {| direction := if Qgtb sum 0 then Clockwise else CounterClockwise;
     signedArea := sum |}.

Definition getPolygonArea (points : list Point) : Q :=
  Qabs (Double.div (shoelaceSum points) 2).

(** The running [min]/[max] pair of the bounding loops.  [None] stands for
    the initial [(+Infinity, -Infinity)], which the first value replaces. *)
Definition extent (values : list Q) : option (Q * Q) :=
  fold_left
    (fun acc v =>
       match acc with
       | None => Some (v, v)
       | Some (lo, hi) => Some (Qmin lo v, Qmax hi v)
       end)
    values None.

Definition dimensionsFromPoints (points : list Point) : Point :=
  match extent (map fst points), extent (map snd points) with
  | Some (loX, hiX), Some (loY, hiY) => (hiX - loX, hiY - loY)
  | _, _ => (0, 0)
  end.

Definition getBoundingBox (points : list Point) : BoundingBox :=
  match extent (map fst points), extent (map snd points) with
  | Some (loX, hiX), Some (loY, hiY) =>
      {| minX := loX; minY := loY; maxX := hiX; maxY := hiY |}
  | _, _ => {| minX := 0; minY := 0; maxX := 0; maxY := 0 |}
  end.

Definition isContainedIn (boxA boxB : BoundingBox) : bool :=
  let centerX := (minX boxA + maxX boxA) / 2 in
  let centerY := (minY boxA + maxY boxA) / 2 in
  let tolerance := 2 in
  let centerInside :=
    Qgeb centerX (minX boxB - tolerance)
    && Qleb centerX (maxX boxB + tolerance)
    && Qgeb centerY (minY boxB - tolerance)
    && Qleb centerY (maxY boxB + tolerance) in
  let areaA := (maxX boxA - minX boxA) * (maxY boxA - minY boxA) in
  let areaB := (maxX boxB - minX boxB) * (maxY boxB - minY boxB) in
  let isSmallerShape := Qltb areaA (areaB * (9 # 10)) in
  centerInside && isSmallerShape.

End Geometry.

(* ===================================================================== *)
(** ** Affine matrices (the transformation-matrix package) *)
(* ===================================================================== *)

Record Matrix : Type := mkMatrix {
  ma : Q; mb : Q; mc : Q; md : Q; me : Q; mf : Q
}.

Module Affine.

Local Open Scope Q_scope.

Definition identity : Matrix :=
  {| ma := 1; mb := 0; mc := 0; md := 1; me := 0; mf := 0 |}.

Definition multiply (m1 m2 : Matrix) : Matrix :=
  {| ma := ma m1 * ma m2 + mc m1 * mb m2;
     mb := mb m1 * ma m2 + md m1 * mb m2;
     mc := ma m1 * mc m2 + mc m1 * md m2;
     md := mb m1 * mc m2 + md m1 * md m2;
     me := ma m1 * me m2 + mc m1 * mf m2 + me m1;
     mf := mb m1 * me m2 + md m1 * mf m2 + mf m1 |}.

(** [compose(matrices)] on a non-empty array: the product, left to right. *)
Definition compose (first : Matrix) (others : list Matrix) : Matrix :=
  fold_left multiply others first.

(** [applyToPoint(matrix, {x, y})] *)
Definition applyToPoint (m : Matrix) (p : Point) : Point :=
  (ma m * fst p + mc m * snd p + me m, mb m * fst p + md m * snd p + mf m).

End Affine.

(* ===================================================================== *)
(** ** Collaborators outside the model *)
(* ===================================================================== *)

(** What the converter obtains from JavaScript built-ins, from packages and
    from regular-expression scans.  These results are inputs of the model;
    nothing is assumed about them. *)
Class Externals : Type := {
  (** [Number.parseFloat]; [None] is [NaN]. *)
  parseFloat : string -> option Q;
  (** The result of the n-th call of [Math.random()]. *)
  mathRandom : nat -> Q;
  (** [Number.prototype.toString(36)]. *)
  toString36 : Q -> string;
  (** [pointsOnPath] of the points-on-path package. *)
  pointsOnPath : string -> Exc (list (list Point));
  (** [fromTransformAttribute] and [fromDefinition] of transformation-matrix. *)
  TransformDefinition : Type;
  fromTransformAttribute : string -> Exc TransformDefinition;
  fromDefinition : TransformDefinition -> Exc (list Matrix);
  (** [urlRef.match(/url\(#(.+?)\)/)?.[1]]. *)
  matchGradientId : string -> option string;
  (** [svgRoot.querySelector(`#${gradientId}`)] of the DOM library: the
      first element the selector matches, if any.  The library raises a
      syntax error on a selector it cannot parse, which an id that is not a
      plain name can produce. *)
  querySelectorHash : SvgElement -> string -> Exc (option SvgElement);
  (** The floats of [pointsAttr.match(/[-+]?[0-9]*\.?[0-9]+(?:e[-+]?[0-9]+)?/gi)]. *)
  matchNumericValues : string -> list Q;
  (** The class rules [parseClassStyles] scans from the [<style>] blocks with
      [/([^{}]+)\{([^{}]+)\}/g] and [/\.([A-Za-z0-9_-]+)/g]. *)
  parseClassStyles : SvgElement -> Js.Map (Js.Map string);
  (** [new DOMParser().parseFromString(markup, "image/svg+xml")], as the
      document element. *)
  parseFromString : string -> Markup
}.

(* ===================================================================== *)
(** ** Style resolver (converter/svg/style.ts) *)
(* ===================================================================== *)

Record StyleContext : Type := mkStyleContext {
  svgRoot : SvgElement;
  classStyles : Js.Map (Js.Map string)
}.

Definition nonEmpty (s : string) : bool := negb (s =? "")%string.

(** [element], [element.parentElement], ... up to the topmost element. *)
Fixpoint handles (chain : list Markup) : list SvgElement :=
  match chain with
  | [] => []
  | m :: above => mkSvgElement m above :: handles above
  end.

Definition lineage (element : SvgElement) : list SvgElement :=
  handles (self element :: ancestors element).

Definition isSvgTag (element : SvgElement) : bool :=
  (Js.toLowerCase (Dom.tagName element) =? "svg")%string.

Module Style.

Local Open Scope string_scope.

Definition parseCssDeclarations (cssText : string) : Js.Map string :=
  fold_left
    (fun declarations declaration =>
       match Js.indexOf ":" declaration with
       | None => declarations
       | Some separatorIndex =>
           let property :=
             Js.toLowerCase (Js.trim (Js.sliceTo separatorIndex declaration)) in
           let value := Js.trim (Js.sliceFrom (S separatorIndex) declaration) in
           if nonEmpty property && nonEmpty value
           then Js.set declarations property value
           else declarations
       end)
    (Js.split ";" cssText) [].

Definition getInlineStyleValue (element : SvgElement) (property : string)
  : option string :=
  match Dom.getAttribute element "style" with
  | None => None
  | Some styleAttr =>
      if nonEmpty styleAttr
      then Js.get (parseCssDeclarations styleAttr) (Js.toLowerCase property)
      else None
  end.

(** The loop of [getClassStyleValue] over the class names. *)
Fixpoint firstClassValue (styles : Js.Map (Js.Map string))
         (classNames : list string) (property : string) : option string :=
  match classNames with
  | [] => None
  | className :: rest =>
      let value :=
        match Js.get styles className with
        | Some styleMap => Js.get styleMap (Js.toLowerCase property)
        | None => None
        end in
      if Js.truthy value then value else firstClassValue styles rest property
  end.

Definition getClassStyleValue (element : SvgElement) (context : StyleContext)
           (property : string) : option string :=
  match Dom.getAttribute element "class" with
  | None => None
  | Some classNameAttr =>
      if nonEmpty classNameAttr
      then firstClassValue (classStyles context) (Js.words classNameAttr) property
      else None
  end.

(** The [while (current)] loop of [getInheritedPresentationValue], started
    at [element.parentElement]. *)
Fixpoint inheritedFrom (chain : list SvgElement) (property : string)
  : option string :=
  match chain with
  | [] => None
  | current :: above =>
      let directAttribute := Dom.getAttribute current property in
      if Js.truthy directAttribute then directAttribute
      else
        let inlineStyleValue := getInlineStyleValue current property in
        if Js.truthy inlineStyleValue then inlineStyleValue
        else if isSvgTag current then None
        else inheritedFrom above property
  end.

Definition getInheritedPresentationValue (element : SvgElement)
           (property : string) : option string :=
  inheritedFrom (handles (ancestors element)) property.

Definition getPresentationValue (element : SvgElement)
           (context : StyleContext) (property : string) : option string :=
  getInlineStyleValue element property
  ?? Dom.getAttribute element property
  ?? getClassStyleValue element context property
  ?? getInheritedPresentationValue element property.

Section WithExternals.
Context {ext : Externals}.

Definition createStyleContext (root : SvgElement) : StyleContext :=
  {| svgRoot := root; classStyles := parseClassStyles root |}.

(** The loop of [resolveGradientUrl] over the [stop] elements. *)
Fixpoint firstStopColor (stopElements : list SvgElement) : option string :=
  match stopElements with
  | [] => None
  | stopElement :: rest =>
      let stopColor :=
        Dom.getAttribute stopElement "stop-color"
        ?? getInlineStyleValue stopElement "stop-color" in
      if Js.truthy stopColor then stopColor else firstStopColor rest
  end.

(** The colour lookups raise nothing themselves and catch nothing: an error
    of [querySelector] leaves [resolveGradientUrl] and every caller up to
    the caller of the conversion.  Each function below is followed by the
    error its call raises, if any; the function itself gives the value the
    call returns, which is of use only where no error is raised. *)
Definition resolveGradientUrl (urlRef : string) (root : SvgElement)
  : option string :=
  if negb (Js.startsWith urlRef "url(") then None
  else
    match matchGradientId urlRef with
    | None => None
    | Some gradientId =>
        if negb (nonEmpty gradientId) then None
        else
          match querySelectorHash root gradientId with
          | Thrown _ => None
          | Returned None => None
          | Returned (Some gradientElement) =>
              firstStopColor (Dom.querySelectorAll gradientElement ["stop"])
          end
    end.

Definition resolveGradientUrlError (urlRef : string) (root : SvgElement)
  : option string :=
  if negb (Js.startsWith urlRef "url(") then None
  else
    match matchGradientId urlRef with
    | None => None
    | Some gradientId =>
        if negb (nonEmpty gradientId) then None
        else
          match querySelectorHash root gradientId with
          | Thrown message => Some message
          | Returned _ => None
          end
    end.

Definition normalizeSvgColor (color : option string) (fallback : string)
           (root : SvgElement) : string :=
  match color with
  | None => fallback
  | Some color =>
      if negb (nonEmpty color) then fallback
      else
        let normalizedColor := Js.trim color in
        if negb (nonEmpty normalizedColor) then fallback
        else if normalizedColor =? "none" then "transparent"
        else if Js.startsWith normalizedColor "url("
        then match resolveGradientUrl normalizedColor root with
             | Some resolved => resolved
             | None => fallback
             end
        else normalizedColor
  end.

Definition normalizeSvgColorError (color : option string) (root : SvgElement)
  : option string :=
  match color with
  | None => None
  | Some color =>
      if negb (nonEmpty color) then None
      else
        let normalizedColor := Js.trim color in
        if negb (nonEmpty normalizedColor) then None
        else if normalizedColor =? "none" then None
        else if Js.startsWith normalizedColor "url("
        then resolveGradientUrlError normalizedColor root
        else None
  end.

(** [!color || color === "none"] *)
Definition missingOrNone (color : option string) : bool :=
  match color with
  | None => true
  | Some value => negb (nonEmpty value) || (value =? "none")
  end.

Definition getFillColor (element : SvgElement) (context : StyleContext)
  : string :=
  let fillColor := getPresentationValue element context "fill" in
  let fillColor :=
    if missingOrNone fillColor
    then getClassStyleValue element context "fill" ?? fillColor
    else fillColor in
  normalizeSvgColor fillColor "#000000" (svgRoot context).

Definition getFillColorError (element : SvgElement) (context : StyleContext)
  : option string :=
  let fillColor := getPresentationValue element context "fill" in
  let fillColor :=
    if missingOrNone fillColor
    then getClassStyleValue element context "fill" ?? fillColor
    else fillColor in
  normalizeSvgColorError fillColor (svgRoot context).

Definition getStrokeColor (element : SvgElement) (context : StyleContext)
  : string :=
  let strokeColor := getPresentationValue element context "stroke" in
  let strokeColor :=
    if missingOrNone strokeColor
    then getClassStyleValue element context "stroke" ?? strokeColor
    else strokeColor in
  normalizeSvgColor strokeColor "transparent" (svgRoot context).

Definition getStrokeColorError (element : SvgElement) (context : StyleContext)
  : option string :=
  let strokeColor := getPresentationValue element context "stroke" in
  let strokeColor :=
    if missingOrNone strokeColor
    then getClassStyleValue element context "stroke" ?? strokeColor
    else strokeColor in
  normalizeSvgColorError strokeColor (svgRoot context).

(** [if (!raw) return fallback; value = parseFloat(raw);
    return isNaN(value) ? fallback : value] *)
Definition numberOr (raw : option string) (fallback : Q) : Q :=
  if Js.truthy raw
  then match raw with
       | Some text => match parseFloat text with
                      | Some value => value
                      | None => fallback
                      end
       | None => fallback
       end
  else fallback.

Definition getNumericAttribute (element : SvgElement)
           (attributeName : string) (fallback : Q) : Q :=
  numberOr (Dom.getAttribute element attributeName) fallback.

Definition getNumericPresentationValue (element : SvgElement)
           (context : StyleContext) (property : string) (fallback : Q) : Q :=
  numberOr (getPresentationValue element context property) fallback.

End WithExternals.

End Style.

(* ===================================================================== *)
(** ** Transform resolver (converter/svg/transform.ts) *)
(* ===================================================================== *)

Module Transform.

Local Open Scope string_scope.

Section WithExternals.
Context {ext : Externals}.

Definition getTransformMatrix (element : SvgElement) : Matrix :=
  match Dom.getAttribute element "transform" with
  | None => Affine.identity
  | Some transformAttribute =>
      if negb (nonEmpty transformAttribute) then Affine.identity
      else
        tryCatch
          (bindExc (fromTransformAttribute transformAttribute) (fun definition =>
           bindExc (fromDefinition definition) (fun matrices =>
           Returned match matrices with
                    | [] => Affine.identity
                    | first :: others => Affine.compose first others
                    end)))
          Affine.identity
  end.

(** The loop of [getAccumulatedTransform]; [matrices.unshift] conses. *)
Fixpoint collectTransforms (chain : list SvgElement) (matrices : list Matrix)
  : list Matrix :=
  match chain with
  | [] => matrices
  | current :: above =>
      if isSvgTag current then matrices
      else collectTransforms above (getTransformMatrix current :: matrices)
  end.

Definition getAccumulatedTransform (element : SvgElement) : Matrix :=
  match collectTransforms (lineage element) [] with
  | [] => Affine.identity
  | first :: others => Affine.compose first others
  end.

End WithExternals.

Definition transformPoint (point : Point) (matrix : Matrix) : Point :=
  Affine.applyToPoint matrix point.

Definition transformPoints (points : list Point) (matrix : Matrix)
  : list Point :=
  map (fun point => transformPoint point matrix) points.

End Transform.

(* ===================================================================== *)
(** ** Path decomposer (converter/svg/path.ts) *)
(* ===================================================================== *)

(** [PathSubpathData] *)
Module PathData.
Record t : Type := mk {
  index : Z;
  x : Q;
  y : Q;
  width : Q;
  height : Q;
  relativePoints : list Point;
  bbox : BoundingBox;
  area : Q;
  windingDirection : WindingDirection;
  isHole : bool
}.

(** [subpath.isHole = true] *)
Definition markHole (s : t) : t :=
  mk (index s) (x s) (y s) (width s) (height s) (relativePoints s) (bbox s)
     (area s) (windingDirection s) true.
End PathData.

(** [ConvertedPathSubpath] *)
Module Subpath.
Record t : Type := mk {
  x : Q;
  y : Q;
  width : Q;
  height : Q;
  relativePoints : list Point;
  isHole : bool;
  windingDirection : WindingDirection;
  isClosed : bool
}.
End Subpath.

Abbreviation PathSubpathData := PathData.t.
Abbreviation ConvertedPathSubpath := Subpath.t.

Module Path.

Local Open Scope Q_scope.

(** [Math.hypot(dx, dy) < 0.001], compared on the squares. *)
Definition isClosedSubpath (points : list Point) : bool :=
  if (List.length points <? 2)%nat then false
  else
    let first := Geometry.pointAt points 0 in
    let last := Geometry.pointAt points (List.length points - 1) in
    let dx := fst last - fst first in
    let dy := snd last - snd first in
    Qltb (dx * dx + dy * dy) ((1 # 1000) * (1 # 1000)).

(** The [while (current)] loop of [getPathFillRule]. *)
Fixpoint inheritedFillRule (chain : list SvgElement) : string :=
  match chain with
  | [] => "nonzero"
  | current :: above =>
      let inherited := Dom.getAttribute current "fill-rule" in
      if Js.truthy inherited
      then match inherited with Some rule => rule | None => "nonzero" end
      else if isSvgTag current then "nonzero"
      else inheritedFillRule above
  end.

Definition getPathFillRule (element : SvgElement) : string :=
  let ownFillRule := Dom.getAttribute element "fill-rule" in
  if Js.truthy ownFillRule
  then match ownFillRule with Some rule => rule | None => "nonzero" end
  else inheritedFillRule (handles (ancestors element)).

(** The body of the loop of [buildSubpathData] for one kept subpath. *)
Definition subpathData (index : Z) (subpath : list Point) (matrix : Matrix)
  : PathSubpathData :=
  let transformed := Transform.transformPoints subpath matrix in
  let origin := Geometry.pointAt transformed 0 in
  let relativePoints :=
    map (fun point => (fst point - fst origin, snd point - snd origin))
        transformed in
  let dimensions := Geometry.dimensionsFromPoints relativePoints in
  let winding := Geometry.getWindingOrder relativePoints in
  let area := Geometry.getPolygonArea relativePoints in
  let bbox := Geometry.getBoundingBox transformed in
  PathData.mk index (fst origin) (snd origin) (fst dimensions) (snd dimensions)
              relativePoints bbox area (direction winding) false.

(** [for (const [index, subpath] of pathPoints.entries())], from [index]. *)
Fixpoint buildSubpathDataFrom (index : Z) (pathPoints : list (list Point))
         (matrix : Matrix) : list PathSubpathData :=
  match pathPoints with
  | [] => []
  | subpath :: rest =>
      if (List.length subpath <? 2)%nat
      then buildSubpathDataFrom (index + 1)%Z rest matrix
      else subpathData index subpath matrix
             :: buildSubpathDataFrom (index + 1)%Z rest matrix
  end.

Definition buildSubpathData (pathPoints : list (list Point)) (matrix : Matrix)
  : list PathSubpathData :=
  buildSubpathDataFrom 0%Z pathPoints matrix.

(** [[...subpaths].sort((left, right) => right.area - left.area)]: a stable
    sort by decreasing area, here by insertion.  An element moves behind
    exactly those whose area is strictly larger. *)
Fixpoint insertByArea (s : PathSubpathData) (sorted : list PathSubpathData)
  : list PathSubpathData :=
  match sorted with
  | [] => [s]
  | other :: rest =>
      if Qltb (PathData.area s) (PathData.area other)
      then other :: insertByArea s rest
      else s :: sorted
  end.

Definition sortByAreaDescending (subpaths : list PathSubpathData)
  : list PathSubpathData :=
  fold_right insertByArea [] subpaths.

(** [sortedByArea[0]?.index ?? -1] *)
Definition largestIndex (subpaths : list PathSubpathData) : Z :=
  match sortByAreaDescending subpaths with
  | largest :: _ => PathData.index largest
  | [] => (-1)%Z
  end.

(** The test of the inner loop of [markHoleSubpaths] for one candidate. *)
Definition holdsAsHoleOf (useEvenOdd : bool) (largestSubpathIndex : Z)
           (subpath candidateContainer : PathSubpathData) : bool :=
  let contained :=
    Geometry.isContainedIn (PathData.bbox subpath)
                           (PathData.bbox candidateContainer) in
  let smaller :=
    Qltb (PathData.area subpath) (PathData.area candidateContainer) in
  let oppositeWinding :=
    negb (WindingDirection_eqb (PathData.windingDirection subpath)
                               (PathData.windingDirection candidateContainer)) in
  let windingIsCompatible :=
    useEvenOdd || oppositeWinding
    || (PathData.index candidateContainer =? largestSubpathIndex)%Z in
  contained && smaller && windingIsCompatible.

(** The inner loop: [true] when some candidate makes [subpath] a hole
    (the loop then sets the flag and breaks). *)
Fixpoint scanContainers (useEvenOdd : bool) (largestSubpathIndex : Z)
         (subpath : PathSubpathData) (candidates : list PathSubpathData)
  : bool :=
  match candidates with
  | [] => false
  | candidateContainer :: rest =>
      if (PathData.index candidateContainer =? PathData.index subpath)%Z
      then scanContainers useEvenOdd largestSubpathIndex subpath rest
      else if holdsAsHoleOf useEvenOdd largestSubpathIndex subpath
                            candidateContainer
      then true
      else scanContainers useEvenOdd largestSubpathIndex subpath rest
  end.

(** [markHoleSubpaths] mutates the [isHole] flags in place; the loops read
    only the other fields, so the result is the list of updated records. *)
Definition markHoleSubpaths (subpaths : list PathSubpathData)
           (useEvenOdd : bool) : list PathSubpathData :=
  if (List.length subpaths <? 2)%nat then subpaths
  else
    let largestSubpathIndex := largestIndex subpaths in
    map (fun subpath =>
           if (PathData.index subpath =? largestSubpathIndex)%Z then subpath
           else if scanContainers useEvenOdd largestSubpathIndex subpath subpaths
           then PathData.markHole subpath
           else subpath)
        subpaths.

Definition toConverted (subpath : PathSubpathData) : ConvertedPathSubpath :=
  Subpath.mk (PathData.x subpath) (PathData.y subpath)
             (PathData.width subpath) (PathData.height subpath)
             (PathData.relativePoints subpath) (PathData.isHole subpath)
             (PathData.windingDirection subpath)
             (isClosedSubpath (PathData.relativePoints subpath)).

Section WithExternals.
Context {ext : Externals}.

Definition convertPathToSubpaths (element : SvgElement) (matrix : Matrix)
  : list ConvertedPathSubpath :=
  match Dom.getAttribute element "d" with
  | None => []
  | Some pathData =>
      if negb (nonEmpty pathData) then []
      else
        match pointsOnPath pathData with
        | Thrown _ => []
        | Returned pathPoints =>
            match pathPoints with
            | [] => []
            | _ :: _ =>
                let subpaths := buildSubpathData pathPoints matrix in
                let fillRule :=
                  Js.toLowerCase (Js.trim (getPathFillRule element)) in
                let useEvenOdd := (fillRule =? "evenodd")%string in
                map toConverted (markHoleSubpaths subpaths useEvenOdd)
            end
        end
  end.

End WithExternals.

End Path.

(* ===================================================================== *)
(** ** Output elements (converter/types.ts) *)
(* ===================================================================== *)

Inductive ExcalidrawElementType : Type :=
| RectangleType
| EllipseType
| LineType
| ArrowType
| DrawType
| TextType.

Inductive ArrowheadKind : Type :=
| ArrowHead
| BarHead
| DotHead.

(** ["arrow" | "bar" | "dot" | null] *)
Definition ExcalidrawArrowhead : Type := option ArrowheadKind.

Inductive StrokeSharpness : Type :=
| Sharp
| Round.

Record ExcalidrawBaseElement : Type := mkBase {
  id : string;
  type : ExcalidrawElementType;
  x : Q;
  y : Q;
  strokeColor : string;
  backgroundColor : string;
  fillStyle : string;
  strokeWidth : Q;
  strokeStyle : string;
  strokeSharpness : StrokeSharpness;
  roughness : Q;
  opacity : Q;
  width : Q;
  height : Q;
  angle : Q;
  seed : Z;
  version : Z;
  versionNonce : Z;
  isDeleted : bool;
  groupIds : list string;
  boundElementIds : option (list string)
}.

Inductive TextAlign : Type := AlignLeft | AlignCenter | AlignRight.
Inductive VerticalAlign : Type := AlignTop | AlignMiddle.

(** The fields a variant adds to the base ones. *)
Inductive ShapeFields : Type :=
| NoFields
| PointFields (points : list Point)
| ArrowFields (points : list Point)
              (startArrowhead endArrowhead : ExcalidrawArrowhead)
| TextFields (text : string) (fontSize : Q) (fontFamily : Z) (baseline : Q)
             (textAlign : TextAlign) (verticalAlign : VerticalAlign)
             (lineHeight : Q) (originalText : string).

Record ExcalidrawElement : Type := mkElement {
  base : ExcalidrawBaseElement;
  fields : ShapeFields
}.

Record ExcalidrawDocument : Type := mkDocument {
  docType : string;
  docVersion : Z;
  source : string;
  elements : list ExcalidrawElement
}.

(** Object spread with one overriding field: [{ ...b, field: v }]. *)
Definition withType (v : ExcalidrawElementType) (b : ExcalidrawBaseElement)
  : ExcalidrawBaseElement :=
  mkBase (id b) v (x b) (y b) (strokeColor b) (backgroundColor b)
    (fillStyle b) (strokeWidth b) (strokeStyle b) (strokeSharpness b)
    (roughness b) (opacity b) (width b) (height b) (angle b) (seed b)
    (version b) (versionNonce b) (isDeleted b) (groupIds b)
    (boundElementIds b).

Definition withX (v : Q) (b : ExcalidrawBaseElement)
  : ExcalidrawBaseElement :=
  mkBase (id b) (type b) v (y b) (strokeColor b) (backgroundColor b)
    (fillStyle b) (strokeWidth b) (strokeStyle b) (strokeSharpness b)
    (roughness b) (opacity b) (width b) (height b) (angle b) (seed b)
    (version b) (versionNonce b) (isDeleted b) (groupIds b)
    (boundElementIds b).

Definition withY (v : Q) (b : ExcalidrawBaseElement)
  : ExcalidrawBaseElement :=
  mkBase (id b) (type b) (x b) v (strokeColor b) (backgroundColor b)
    (fillStyle b) (strokeWidth b) (strokeStyle b) (strokeSharpness b)
    (roughness b) (opacity b) (width b) (height b) (angle b) (seed b)
    (version b) (versionNonce b) (isDeleted b) (groupIds b)
    (boundElementIds b).

Definition withStrokeColor (v : string) (b : ExcalidrawBaseElement)
  : ExcalidrawBaseElement :=
  mkBase (id b) (type b) (x b) (y b) v (backgroundColor b) (fillStyle b)
    (strokeWidth b) (strokeStyle b) (strokeSharpness b) (roughness b)
    (opacity b) (width b) (height b) (angle b) (seed b) (version b)
    (versionNonce b) (isDeleted b) (groupIds b) (boundElementIds b).

Definition withBackgroundColor (v : string) (b : ExcalidrawBaseElement)
  : ExcalidrawBaseElement :=
  mkBase (id b) (type b) (x b) (y b) (strokeColor b) v (fillStyle b)
    (strokeWidth b) (strokeStyle b) (strokeSharpness b) (roughness b)
    (opacity b) (width b) (height b) (angle b) (seed b) (version b)
    (versionNonce b) (isDeleted b) (groupIds b) (boundElementIds b).

Definition withStrokeWidth (v : Q) (b : ExcalidrawBaseElement)
  : ExcalidrawBaseElement :=
  mkBase (id b) (type b) (x b) (y b) (strokeColor b) (backgroundColor b)
    (fillStyle b) v (strokeStyle b) (strokeSharpness b) (roughness b)
    (opacity b) (width b) (height b) (angle b) (seed b) (version b)
    (versionNonce b) (isDeleted b) (groupIds b) (boundElementIds b).

Definition withStrokeSharpness (v : StrokeSharpness) (b : ExcalidrawBaseElement)
  : ExcalidrawBaseElement :=
  mkBase (id b) (type b) (x b) (y b) (strokeColor b) (backgroundColor b)
    (fillStyle b) (strokeWidth b) (strokeStyle b) v (roughness b) (opacity b)
    (width b) (height b) (angle b) (seed b) (version b) (versionNonce b)
    (isDeleted b) (groupIds b) (boundElementIds b).

Definition withWidth (v : Q) (b : ExcalidrawBaseElement)
  : ExcalidrawBaseElement :=
  mkBase (id b) (type b) (x b) (y b) (strokeColor b) (backgroundColor b)
    (fillStyle b) (strokeWidth b) (strokeStyle b) (strokeSharpness b)
    (roughness b) (opacity b) v (height b) (angle b) (seed b) (version b)
    (versionNonce b) (isDeleted b) (groupIds b) (boundElementIds b).

Definition withHeight (v : Q) (b : ExcalidrawBaseElement)
  : ExcalidrawBaseElement :=
  mkBase (id b) (type b) (x b) (y b) (strokeColor b) (backgroundColor b)
    (fillStyle b) (strokeWidth b) (strokeStyle b) (strokeSharpness b)
    (roughness b) (opacity b) (width b) v (angle b) (seed b) (version b)
    (versionNonce b) (isDeleted b) (groupIds b) (boundElementIds b).

Definition withGroupIds (v : list string) (b : ExcalidrawBaseElement)
  : ExcalidrawBaseElement :=
  mkBase (id b) (type b) (x b) (y b) (strokeColor b) (backgroundColor b)
    (fillStyle b) (strokeWidth b) (strokeStyle b) (strokeSharpness b)
    (roughness b) (opacity b) (width b) (height b) (angle b) (seed b)
    (version b) (versionNonce b) (isDeleted b) v (boundElementIds b).

(** [{ ...b, type, x, y, width, height }] *)
Definition withPlacement (t : ExcalidrawElementType) (px py w h : Q)
           (b : ExcalidrawBaseElement) : ExcalidrawBaseElement :=
  withHeight h (withWidth w (withY py (withX px (withType t b)))).

(** [{ ...b, backgroundColor, strokeColor, strokeWidth }] *)
Definition withPaint (background stroke : string) (w : Q)
           (b : ExcalidrawBaseElement) : ExcalidrawBaseElement :=
  withStrokeWidth w (withStrokeColor stroke (withBackgroundColor background b)).

(* ===================================================================== *)
(** ** Element synthesizers (converter/svg/converters.ts) *)
(* ===================================================================== *)

Record ConverterContext : Type := mkConverterContext {
  styleContext : StyleContext
}.

(** [ExcalidrawElement | ExcalidrawElement[] | null] *)
Inductive Conversion : Type :=
| NoElement
| OneElement (element : ExcalidrawElement)
| ManyElements (items : list ExcalidrawElement).

(** The optional [options] argument of the [create...FromPoints] helpers. *)
Record Options : Type := mkOptions {
  closePath : option bool;
  optGroupIds : option (list string);
  forceBackgroundColor : option string;
  forceStrokeColor : option string
}.

Definition noOptions : Options := mkOptions None None None None.

Definition optionOr {A : Type} (value : option A) (fallback : A) : A :=
  match value with
  | Some v => v
  | None => fallback
  end.

Module Converters.

Local Open Scope Q_scope.
Local Open Scope rand_scope.

Section WithExternals.
Context {ext : Externals}.

Definition SvgTagConverter : Type :=
  SvgElement -> ConverterContext -> Rand ExcalidrawBaseElement -> Rand Conversion.

(** [Math.random().toString(36).slice(2, 15)] twice, concatenated. *)
Definition randomId : Rand string :=
  fun draws =>
    (substring 2 13 (toString36 (mathRandom draws))
     ++ substring 2 13 (toString36 (mathRandom (S draws))),
     S (S draws))%string.

Definition parsePointsAttribute (pointsAttr : string) : list Point :=
  (fix pairs (numericValues : list Q) : list Point :=
     match numericValues with
     | px :: py :: rest => (px, py) :: pairs rest
     | _ => []
     end) (matchNumericValues pointsAttr).

(** [transformedPoints.map(([pointX, pointY]) => [pointX - x, pointY - y])] *)
Definition relativeTo (origin : Point) (transformedPoints : list Point)
  : list Point :=
  map (fun point => (fst point - fst origin, snd point - snd origin))
      transformedPoints.

Definition createLineFromPoints (transformedPoints : list Point)
           (element : SvgElement) (context : ConverterContext)
           (createBaseElement : Rand ExcalidrawBaseElement) (options : Options)
  : Rand (option ExcalidrawElement) :=
  match transformedPoints with
  | [] => ret None
  | origin :: _ =>
      let relativePoints := relativeTo origin transformedPoints in
      let relativePoints :=
        if optionOr (closePath options) false
        then relativePoints ++ [(0, 0)]
        else relativePoints in
      let dimensions := Geometry.dimensionsFromPoints relativePoints in
      let background :=
        optionOr (forceBackgroundColor options)
                 (Style.getFillColor element (styleContext context)) in
      let stroke :=
        optionOr (forceStrokeColor options)
                 (Style.getStrokeColor element (styleContext context)) in
      b <- createBaseElement ;;
      ret (Some
        {| base :=
             withGroupIds (optionOr (optGroupIds options) [])
               (withPaint background stroke
                  (Style.getNumericAttribute element "stroke-width" 1)
                  (withPlacement LineType (fst origin) (snd origin)
                     (fst dimensions) (snd dimensions) b));
           fields := PointFields relativePoints |})
  end.

Definition markerToArrowhead (markerValue : option string)
  : ExcalidrawArrowhead :=
  match markerValue with
  | None => None
  | Some value =>
      if negb (nonEmpty value) || (value =? "none")%string then None
      else
        let normalized := Js.toLowerCase value in
        if Js.includes normalized "dot" || Js.includes normalized "circle"
        then Some DotHead
        else if Js.includes normalized "bar" then Some BarHead
        else Some ArrowHead
  end.

Definition getArrowheads (element : SvgElement) (context : ConverterContext)
  : ExcalidrawArrowhead * ExcalidrawArrowhead :=
  let markerStart :=
    Style.getPresentationValue element (styleContext context) "marker-start" in
  let markerEnd :=
    Style.getPresentationValue element (styleContext context) "marker-end" in
  (markerToArrowhead markerStart, markerToArrowhead markerEnd).

Definition isArrowhead (head : ExcalidrawArrowhead) : bool :=
  match head with
  | Some _ => true
  | None => false
  end.

Definition shouldUseArrowType (element : SvgElement)
           (context : ConverterContext) : bool :=
  let heads := getArrowheads element context in
  isArrowhead (fst heads) || isArrowhead (snd heads).

Definition createArrowFromPoints (transformedPoints : list Point)
           (element : SvgElement) (context : ConverterContext)
           (createBaseElement : Rand ExcalidrawBaseElement) (options : Options)
  : Rand (option ExcalidrawElement) :=
  match transformedPoints with
  | [] => ret None
  | origin :: _ =>
      let relativePoints := relativeTo origin transformedPoints in
      let relativePoints :=
        if optionOr (closePath options) false
        then relativePoints ++ [(0, 0)]
        else relativePoints in
      let dimensions := Geometry.dimensionsFromPoints relativePoints in
      let heads := getArrowheads element context in
      b <- createBaseElement ;;
      ret (Some
        {| base :=
             withGroupIds (optionOr (optGroupIds options) [])
               (withPaint "transparent"
                  (Style.getStrokeColor element (styleContext context))
                  (Style.getNumericPresentationValue element
                     (styleContext context) "stroke-width" 1)
                  (withPlacement ArrowType (fst origin) (snd origin)
                     (fst dimensions) (snd dimensions) b));
           fields := ArrowFields relativePoints (fst heads) (snd heads) |})
  end.

Definition createDrawFromPoints (transformedPoints : list Point)
           (element : SvgElement) (context : ConverterContext)
           (createBaseElement : Rand ExcalidrawBaseElement) (options : Options)
  : Rand (option ExcalidrawElement) :=
  if (List.length transformedPoints <? 2)%nat then ret None
  else
    let origin := Geometry.pointAt transformedPoints 0 in
    let relativePoints := relativeTo origin transformedPoints in
    let dimensions := Geometry.dimensionsFromPoints relativePoints in
    let fillColor :=
      optionOr (forceBackgroundColor options)
               (Style.getFillColor element (styleContext context)) in
    let stroke :=
      optionOr (forceStrokeColor options)
               (Style.getStrokeColor element (styleContext context)) in
    let strokeWidth := Style.getNumericAttribute element "stroke-width" 1 in
    b <- createBaseElement ;;
    ret (Some
      {| base :=
           withGroupIds (optionOr (optGroupIds options) [])
             (withPaint fillColor stroke strokeWidth
                (withPlacement DrawType (fst origin) (snd origin)
                   (fst dimensions) (snd dimensions) b));
         fields := PointFields relativePoints |}).

Definition getTextContent (element : SvgElement) : string :=
  match Dom.querySelectorAll element ["tspan"%string] with
  | [] => Js.trim (Dom.textContent element)
  | tspans =>
      Js.join (String "010" EmptyString)
        (filter nonEmpty
           (map (fun tspan => Js.trim (Dom.textContent tspan)) tspans))
  end.

(** [Number.parseFloat(element.getAttribute(name) ?? "")] *)
Definition parsedAttribute (element : SvgElement) (name : string) : option Q :=
  parseFloat (optionOr (Dom.getAttribute element name) ""%string).

Definition getTextAnchorPoint (element : SvgElement) : Point :=
  match parsedAttribute element "x", parsedAttribute element "y" with
  | Some textX, Some textY => (textX, textY)
  | _, _ =>
      match Dom.querySelector element "tspan" with
      | Some firstTspan =>
          match parsedAttribute firstTspan "x", parsedAttribute firstTspan "y" with
          | Some tspanX, Some tspanY => (tspanX, tspanY)
          | _, _ => (0, 0)
          end
      | None => (0, 0)
      end
  end.

Definition toTextAlign (textAnchor : option string) : TextAlign :=
  match textAnchor with
  | Some anchor =>
      if (anchor =? "middle")%string then AlignCenter
      else if (anchor =? "end")%string then AlignRight
      else AlignLeft
  | None => AlignLeft
  end.

Definition toVerticalAlign (dominantBaseline : option string) : VerticalAlign :=
  match dominantBaseline with
  | Some baseline =>
      if (baseline =? "middle")%string || (baseline =? "central")%string
      then AlignMiddle
      else AlignTop
  | None => AlignTop
  end.

Definition rectConverter : SvgTagConverter :=
  fun element context createBaseElement =>
  let px := Style.getNumericAttribute element "x" 0 in
  let py := Style.getNumericAttribute element "y" 0 in
  let w := Style.getNumericAttribute element "width" 0 in
  let h := Style.getNumericAttribute element "height" 0 in
  if Qleb w 0 || Qleb h 0 then ret NoElement
  else
    let matrix := Transform.getAccumulatedTransform element in
    let transformedCorners :=
      Transform.transformPoints
        [(px, py); (px + w, py); (px + w, py + h); (px, py + h)] matrix in
    let bounds := Geometry.getBoundingBox transformedCorners in
    let isRounded :=
      Dom.hasAttribute element "rx" || Dom.hasAttribute element "ry" in
    b <- createBaseElement ;;
    ret (OneElement
      {| base :=
           withStrokeSharpness (if isRounded then Round else Sharp)
             (withPaint (Style.getFillColor element (styleContext context))
                (Style.getStrokeColor element (styleContext context))
                (Style.getNumericAttribute element "stroke-width" 1)
                (withPlacement RectangleType (minX bounds) (minY bounds)
                   (maxX bounds - minX bounds) (maxY bounds - minY bounds) b));
         fields := NoFields |}).

Definition circleConverter : SvgTagConverter :=
  fun element context createBaseElement =>
  let cx := Style.getNumericAttribute element "cx" 0 in
  let cy := Style.getNumericAttribute element "cy" 0 in
  let radius := Style.getNumericAttribute element "r" 0 in
  if Qleb radius 0 then ret NoElement
  else
    let matrix := Transform.getAccumulatedTransform element in
    let transformed :=
      Transform.transformPoints
        [(cx - radius, cy); (cx + radius, cy);
         (cx, cy - radius); (cx, cy + radius)] matrix in
    let bounds := Geometry.getBoundingBox transformed in
    b <- createBaseElement ;;
    ret (OneElement
      {| base :=
           withPaint (Style.getFillColor element (styleContext context))
             (Style.getStrokeColor element (styleContext context))
             (Style.getNumericAttribute element "stroke-width" 1)
             (withPlacement EllipseType (minX bounds) (minY bounds)
                (maxX bounds - minX bounds) (maxY bounds - minY bounds) b);
         fields := NoFields |}).

Definition ellipseConverter : SvgTagConverter :=
  fun element context createBaseElement =>
  let cx := Style.getNumericAttribute element "cx" 0 in
  let cy := Style.getNumericAttribute element "cy" 0 in
  let radiusX := Style.getNumericAttribute element "rx" 0 in
  let radiusY := Style.getNumericAttribute element "ry" 0 in
  if Qleb radiusX 0 || Qleb radiusY 0 then ret NoElement
  else
    let matrix := Transform.getAccumulatedTransform element in
    let transformed :=
      Transform.transformPoints
        [(cx - radiusX, cy); (cx + radiusX, cy);
         (cx, cy - radiusY); (cx, cy + radiusY)] matrix in
    let bounds := Geometry.getBoundingBox transformed in
    b <- createBaseElement ;;
    ret (OneElement
      {| base :=
           withPaint (Style.getFillColor element (styleContext context))
             (Style.getStrokeColor element (styleContext context))
             (Style.getNumericAttribute element "stroke-width" 1)
             (withPlacement EllipseType (minX bounds) (minY bounds)
                (maxX bounds - minX bounds) (maxY bounds - minY bounds) b);
         fields := NoFields |}).

(** A helper's [Element | null] as a converter's result. *)
Definition ofNullable (created : option ExcalidrawElement) : Conversion :=
  match created with
  | Some element => OneElement element
  | None => NoElement
  end.

Definition polygonConverter : SvgTagConverter :=
  fun element context createBaseElement =>
  let pointsAttr := optionOr (Dom.getAttribute element "points") ""%string in
  let points := parsePointsAttribute pointsAttr in
  if (List.length points <? 2)%nat then ret NoElement
  else
    let matrix := Transform.getAccumulatedTransform element in
    let transformedPoints := Transform.transformPoints points matrix in
    created <- createLineFromPoints transformedPoints element context
                 createBaseElement (mkOptions (Some true) None None None) ;;
    ret (ofNullable created).

Definition polylineConverter : SvgTagConverter :=
  fun element context createBaseElement =>
  let pointsAttr := optionOr (Dom.getAttribute element "points") ""%string in
  let points := parsePointsAttribute pointsAttr in
  if (List.length points <? 2)%nat then ret NoElement
  else
    let matrix := Transform.getAccumulatedTransform element in
    let transformedPoints := Transform.transformPoints points matrix in
    created <-
      (if shouldUseArrowType element context
       then createArrowFromPoints transformedPoints element context
              createBaseElement noOptions
       else createLineFromPoints transformedPoints element context
              createBaseElement noOptions) ;;
    ret (ofNullable created).

Definition lineConverter : SvgTagConverter :=
  fun element context createBaseElement =>
  let x1 := Style.getNumericAttribute element "x1" 0 in
  let y1 := Style.getNumericAttribute element "y1" 0 in
  let x2 := Style.getNumericAttribute element "x2" 0 in
  let y2 := Style.getNumericAttribute element "y2" 0 in
  let matrix := Transform.getAccumulatedTransform element in
  let transformedPoints :=
    Transform.transformPoints [(x1, y1); (x2, y2)] matrix in
  created <-
    (if shouldUseArrowType element context
     then createArrowFromPoints transformedPoints element context
            createBaseElement noOptions
     else createLineFromPoints transformedPoints element context
            createBaseElement
            (mkOptions None None (Some "transparent"%string) None)) ;;
  ret (ofNullable created).

(** [subpath.relativePoints.map(([pointX, pointY]) =>
      [subpath.x + pointX, subpath.y + pointY])] *)
Definition absolutePointsOf (subpath : ConvertedPathSubpath) : list Point :=
  map (fun point => (Subpath.x subpath + fst point, Subpath.y subpath + snd point))
      (Subpath.relativePoints subpath).

(** [draw.strokeWidth = 0] *)
Definition zeroStrokeWidth (draw : ExcalidrawElement) : ExcalidrawElement :=
  {| base := withStrokeWidth 0 (base draw); fields := fields draw |}.

Section PathCallback.

(** What the callback of [convertedSubpaths.map] captures. *)
Variables (element : SvgElement) (context : ConverterContext)
          (createBaseElement : Rand ExcalidrawBaseElement)
          (sharedGroupIds : list string) (fillColor strokeColor fillRule : string)
          (hasVisibleFill hasVisibleStroke : bool).

(** The fill of a closed, filled subpath and the new value of the captured
    [initialWinding]. *)
Definition chooseBackground (initialWinding : option WindingDirection)
           (subpath : ConvertedPathSubpath)
  : string * option WindingDirection :=
  if (fillRule =? "nonzero")%string
  then
    let winding := Subpath.windingDirection subpath in
    match initialWinding with
    | None => (fillColor, Some winding)
    | Some initial =>
        if negb (WindingDirection_eqb winding initial) || Subpath.isHole subpath
        then ("transparent"%string, initialWinding)
        else (fillColor, initialWinding)
    end
  else if Subpath.isHole subpath
  then ("transparent"%string, initialWinding)
  else (fillColor, initialWinding).

(** One call of the callback: the item it returns and [initialWinding]
    afterwards. *)
Definition convertSubpath (initialWinding : option WindingDirection)
           (subpath : ConvertedPathSubpath)
  : Rand (option ExcalidrawElement * option WindingDirection) :=
  let absolutePoints := absolutePointsOf subpath in
  if negb (Subpath.isClosed subpath)
  then
    if negb hasVisibleStroke then ret (None, initialWinding)
    else if shouldUseArrowType element context
    then
      created <- createArrowFromPoints absolutePoints element context
                   createBaseElement
                   (mkOptions None (Some sharedGroupIds) None None) ;;
      ret (created, initialWinding)
    else
      created <- createLineFromPoints absolutePoints element context
                   createBaseElement
                   (mkOptions (Some false) (Some sharedGroupIds)
                              (Some "transparent"%string) (Some strokeColor)) ;;
      ret (created, initialWinding)
  else if negb hasVisibleFill
  then
    if negb hasVisibleStroke then ret (None, initialWinding)
    else
      created <- createLineFromPoints absolutePoints element context
                   createBaseElement
                   (mkOptions (Some true) (Some sharedGroupIds)
                              (Some "transparent"%string) (Some strokeColor)) ;;
      ret (created, initialWinding)
  else
    let chosen := chooseBackground initialWinding subpath in
    draw <- createDrawFromPoints absolutePoints element context
              createBaseElement
              (mkOptions None (Some sharedGroupIds) (Some (fst chosen))
                         (Some strokeColor)) ;;
    match draw with
    | None => ret (None, snd chosen)
    | Some draw =>
        ret (Some (if negb hasVisibleStroke then zeroStrokeWidth draw else draw),
             snd chosen)
    end.

(** [convertedSubpaths.map(callback)], threading [initialWinding]. *)
Fixpoint convertSubpaths (initialWinding : option WindingDirection)
         (subpaths : list ConvertedPathSubpath)
  : Rand (list (option ExcalidrawElement)) :=
  match subpaths with
  | [] => ret []
  | subpath :: rest =>
      converted <- convertSubpath initialWinding subpath ;;
      items <- convertSubpaths (snd converted) rest ;;
      ret (fst converted :: items)
  end.

End PathCallback.

(** [.filter((item) => item !== null)] *)
Definition withoutNulls (items : list (option ExcalidrawElement))
  : list ExcalidrawElement :=
  flat_map (fun item => match item with Some e => [e] | None => [] end) items.

(** [element.getAttribute("fill-rule") ?? "nonzero"], trimmed, lower case. *)
Definition ownFillRule (element : SvgElement) : string :=
  Js.toLowerCase
    (Js.trim (optionOr (Dom.getAttribute element "fill-rule") "nonzero"%string)).

Definition pathHasVisibleFill (element : SvgElement) (context : ConverterContext)
  : bool :=
  negb (Style.getFillColor element (styleContext context) =? "transparent")%string.

Definition pathHasVisibleStroke (element : SvgElement)
           (context : ConverterContext) : bool :=
  negb (Style.getStrokeColor element (styleContext context) =? "transparent")%string
  && Qgtb (Style.getNumericPresentationValue element (styleContext context)
             "stroke-width" 1) 0.

(** [hasMultipleSubpaths ? [randomId()] : []] *)
Definition makeSharedGroupIds (convertedSubpaths : list ConvertedPathSubpath)
  : Rand (list string) :=
  if (1 <? List.length convertedSubpaths)%nat
  then groupId <- randomId ;; ret [groupId]
  else ret [].

(** The array [pathConverter] builds before filtering out the nulls. *)
Definition pathItems (element : SvgElement) (context : ConverterContext)
           (createBaseElement : Rand ExcalidrawBaseElement)
           (convertedSubpaths : list ConvertedPathSubpath)
  : Rand (list (option ExcalidrawElement)) :=
  sharedGroupIds <- makeSharedGroupIds convertedSubpaths ;;
  convertSubpaths element context createBaseElement sharedGroupIds
    (Style.getFillColor element (styleContext context))
    (Style.getStrokeColor element (styleContext context))
    (ownFillRule element)
    (pathHasVisibleFill element context)
    (pathHasVisibleStroke element context)
    None convertedSubpaths.

Definition pathConverter : SvgTagConverter :=
  fun element context createBaseElement =>
  let matrix := Transform.getAccumulatedTransform element in
  let convertedSubpaths := Path.convertPathToSubpaths element matrix in
  match convertedSubpaths with
  | [] => ret NoElement
  | _ :: _ =>
      items <- pathItems element context createBaseElement convertedSubpaths ;;
      ret (ManyElements (withoutNulls items))
  end.

Definition textConverter : SvgTagConverter :=
  fun element context createBaseElement =>
  let rawText := getTextContent element in
  if negb (nonEmpty rawText) then ret NoElement
  else
    let anchor := getTextAnchorPoint element in
    let fontSize :=
      Qmax 1 (Style.getNumericPresentationValue element (styleContext context)
                "font-size" 20) in
    let matrix := Transform.getAccumulatedTransform element in
    let transformedPosition :=
      Geometry.pointAt (Transform.transformPoints [anchor] matrix) 0 in
    let tx := fst transformedPosition in
    let ty := snd transformedPosition in
    let lines := Js.split "010" rawText in
    let maxChars :=
      fold_left (fun longest line => Nat.max longest (String.length line))
                lines 0%nat in
    let lineHeight := 5 # 4 in
    let w := Qmax 1 (inject_Z (Z.of_nat maxChars) * fontSize * (6 # 10)) in
    let h :=
      Qmax 1 (inject_Z (Z.of_nat (List.length lines)) * fontSize * lineHeight) in
    let textAlign :=
      toTextAlign
        (Style.getPresentationValue element (styleContext context) "text-anchor") in
    let verticalAlign :=
      toVerticalAlign
        (Style.getPresentationValue element (styleContext context)
           "dominant-baseline") in
    let textX :=
      match textAlign with
      | AlignCenter => tx - w / 2
      | AlignRight => tx - w
      | AlignLeft => tx
      end in
    let textY :=
      match verticalAlign with
      | AlignMiddle => ty - h / 2
      | AlignTop => ty - fontSize * (8 # 10)
      end in
    let textColor := Style.getFillColor element (styleContext context) in
    b <- createBaseElement ;;
    ret (OneElement
      {| base :=
           withPaint "transparent" textColor 0
             (withPlacement TextType textX textY w h b);
         fields :=
           TextFields rawText fontSize 2 fontSize textAlign verticalAlign
                      lineHeight rawText |}).

(** [svgConverters[name]] *)
Definition svgConverters (name : string) : option SvgTagConverter :=
  if (name =? "rect")%string then Some rectConverter
  else if (name =? "circle")%string then Some circleConverter
  else if (name =? "ellipse")%string then Some ellipseConverter
  else if (name =? "line")%string then Some lineConverter
  else if (name =? "polygon")%string then Some polygonConverter
  else if (name =? "polyline")%string then Some polylineConverter
  else if (name =? "path")%string then Some pathConverter
  else if (name =? "text")%string then Some textConverter
  else None.

(** *** What a converter raises

    A converter raises what its colour lookups raise; nothing else in it
    can.  It looks a colour up only past its guard, and a helper only a
    colour its options do not force. *)

(** The error of the first lookup that raises. *)
Definition firstError (lookups : list (option string)) : option string :=
  fold_right
    (fun lookup later =>
       match lookup with
       | Some message => Some message
       | None => later
       end)
    None lookups.

(** [options?.forceBackgroundColor ?? getFillColor(...)], then
    [options?.forceStrokeColor ?? getStrokeColor(...)]. *)
Definition unforcedColorsError (element : SvgElement)
           (context : ConverterContext) (options : Options) : option string :=
  firstError
    [match forceBackgroundColor options with
     | Some _ => None
     | None => Style.getFillColorError element (styleContext context)
     end;
     match forceStrokeColor options with
     | Some _ => None
     | None => Style.getStrokeColorError element (styleContext context)
     end].

Definition createLineFromPointsError (transformedPoints : list Point)
           (element : SvgElement) (context : ConverterContext)
           (options : Options) : option string :=
  match transformedPoints with
  | [] => None
  | _ :: _ => unforcedColorsError element context options
  end.

Definition createArrowFromPointsError (transformedPoints : list Point)
           (element : SvgElement) (context : ConverterContext)
  : option string :=
  match transformedPoints with
  | [] => None
  | _ :: _ => Style.getStrokeColorError element (styleContext context)
  end.

(** [getFillColor(...)], then [getStrokeColor(...)]. *)
Definition bothColorsError (element : SvgElement) (context : ConverterContext)
  : option string :=
  firstError [Style.getFillColorError element (styleContext context);
              Style.getStrokeColorError element (styleContext context)].

Definition rectConverterError (element : SvgElement)
           (context : ConverterContext) : option string :=
  let w := Style.getNumericAttribute element "width" 0 in
  let h := Style.getNumericAttribute element "height" 0 in
  if Qleb w 0 || Qleb h 0 then None else bothColorsError element context.

Definition circleConverterError (element : SvgElement)
           (context : ConverterContext) : option string :=
  let radius := Style.getNumericAttribute element "r" 0 in
  if Qleb radius 0 then None else bothColorsError element context.

Definition ellipseConverterError (element : SvgElement)
           (context : ConverterContext) : option string :=
  let radiusX := Style.getNumericAttribute element "rx" 0 in
  let radiusY := Style.getNumericAttribute element "ry" 0 in
  if Qleb radiusX 0 || Qleb radiusY 0 then None
  else bothColorsError element context.

Definition polygonConverterError (element : SvgElement)
           (context : ConverterContext) : option string :=
  let pointsAttr := optionOr (Dom.getAttribute element "points") ""%string in
  let points := parsePointsAttribute pointsAttr in
  if (List.length points <? 2)%nat then None
  else
    createLineFromPointsError
      (Transform.transformPoints points
         (Transform.getAccumulatedTransform element))
      element context (mkOptions (Some true) None None None).

Definition polylineConverterError (element : SvgElement)
           (context : ConverterContext) : option string :=
  let pointsAttr := optionOr (Dom.getAttribute element "points") ""%string in
  let points := parsePointsAttribute pointsAttr in
  if (List.length points <? 2)%nat then None
  else
    let transformedPoints :=
      Transform.transformPoints points
        (Transform.getAccumulatedTransform element) in
    if shouldUseArrowType element context
    then createArrowFromPointsError transformedPoints element context
    else createLineFromPointsError transformedPoints element context noOptions.

Definition lineConverterError (element : SvgElement)
           (context : ConverterContext) : option string :=
  let x1 := Style.getNumericAttribute element "x1" 0 in
  let y1 := Style.getNumericAttribute element "y1" 0 in
  let x2 := Style.getNumericAttribute element "x2" 0 in
  let y2 := Style.getNumericAttribute element "y2" 0 in
  let transformedPoints :=
    Transform.transformPoints [(x1, y1); (x2, y2)]
      (Transform.getAccumulatedTransform element) in
  if shouldUseArrowType element context
  then createArrowFromPointsError transformedPoints element context
  else
    createLineFromPointsError transformedPoints element context
      (mkOptions None None (Some "transparent"%string) None).

(** [pathConverter] looks both colours up once it has a subpath.  Its
    callback forces both on the helpers, or calls [createArrowFromPoints],
    which looks the stroke up once more: it raises nothing new. *)
Definition pathConverterError (element : SvgElement)
           (context : ConverterContext) : option string :=
  match
    Path.convertPathToSubpaths element
      (Transform.getAccumulatedTransform element)
  with
  | [] => None
  | _ :: _ => bothColorsError element context
  end.

Definition textConverterError (element : SvgElement)
           (context : ConverterContext) : option string :=
  if negb (nonEmpty (getTextContent element)) then None
  else Style.getFillColorError element (styleContext context).

(** What [svgConverters[name]] raises on a node. *)
Definition svgConverterErrors (name : string)
  : option (SvgElement -> ConverterContext -> option string) :=
  if (name =? "rect")%string then Some rectConverterError
  else if (name =? "circle")%string then Some circleConverterError
  else if (name =? "ellipse")%string then Some ellipseConverterError
  else if (name =? "line")%string then Some lineConverterError
  else if (name =? "polygon")%string then Some polygonConverterError
  else if (name =? "polyline")%string then Some polylineConverterError
  else if (name =? "path")%string then Some pathConverterError
  else if (name =? "text")%string then Some textConverterError
  else None.

End WithExternals.

End Converters.

(* ===================================================================== *)
(** ** Conversion orchestrator (converter/convert.ts) *)
(* ===================================================================== *)

Module Convert.

Local Open Scope string_scope.
Local Open Scope rand_scope.

Definition SUPPORTED_TAGS : list string :=
  ["rect"; "circle"; "ellipse"; "line"; "polygon"; "polyline"; "path"; "text"].

Definition EXCALIDRAW_SOURCE : string := "https://excalidraw.com".

(** The members of the [Set], exactly as the source spells them. *)
Definition NON_RENDERED_CONTAINER_TAGS : list string :=
  ["defs"; "symbol"; "clipPath"; "mask"; "marker"; "pattern";
   "lineargradient"; "radialgradient"; "filter"].

(** [NON_RENDERED_CONTAINER_TAGS.has(tagName)] *)
Definition isNonRenderedContainer (tagName : string) : bool :=
  existsb (String.eqb tagName) NON_RENDERED_CONTAINER_TAGS.

Definition parseInlineStyle (styleText : option string) : Js.Map string :=
  match styleText with
  | None => []
  | Some styleText =>
      if negb (nonEmpty styleText) then []
      else
        fold_left
          (fun map declaration =>
             match Js.indexOf ":" declaration with
             | None => map
             | Some separatorIndex =>
                 let key :=
                   Js.toLowerCase
                     (Js.trim (Js.sliceTo separatorIndex declaration)) in
                 let value :=
                   Js.toLowerCase
                     (Js.trim (Js.sliceFrom (S separatorIndex) declaration)) in
                 if nonEmpty key && nonEmpty value
                 then Js.set map key value
                 else map
             end)
          (Js.split ";" styleText) []
  end.

(** The [while (current)] loop of [hasNonRenderedAncestor], from [element]. *)
Fixpoint anyNonRendered (chain : list SvgElement) : bool :=
  match chain with
  | [] => false
  | current :: above =>
      let tagName := Js.toLowerCase (Dom.tagName current) in
      if isNonRenderedContainer tagName then true else anyNonRendered above
  end.

Definition hasNonRenderedAncestor (element : SvgElement) : bool :=
  anyNonRendered (lineage element).

Section WithExternals.
Context {ext : Externals}.

(** One round of the loop of [isVisuallyHidden]. *)
Definition hidesItself (current : SvgElement) : bool :=
  let display :=
    Js.toLowerCase (Js.trim (optionOr (Dom.getAttribute current "display") "")) in
  let visibility :=
    Js.toLowerCase
      (Js.trim (optionOr (Dom.getAttribute current "visibility") "")) in
  let opacityAttr := Js.trim (optionOr (Dom.getAttribute current "opacity") "") in
  let styleMap := parseInlineStyle (Dom.getAttribute current "style") in
  let styleDisplay := Js.get styleMap "display" in
  let styleVisibility := Js.get styleMap "visibility" in
  let styleOpacity := Js.get styleMap "opacity" in
  let isValue (expected : string) (value : option string) :=
    match value with
    | Some v => v =? expected
    | None => false
    end in
  if (display =? "none") || isValue "none" styleDisplay then true
  else if (visibility =? "hidden") || isValue "hidden" styleVisibility then true
  else
    let opacityValue :=
      match styleOpacity with
      | Some text => parseFloat text
      | None => if nonEmpty opacityAttr then parseFloat opacityAttr else None
      end in
    match opacityValue with
    | Some value => Qleb value 0
    | None => false
    end.

Fixpoint anyHidden (chain : list SvgElement) : bool :=
  match chain with
  | [] => false
  | current :: above => if hidesItself current then true else anyHidden above
  end.

Definition isVisuallyHidden (element : SvgElement) : bool :=
  anyHidden (lineage element).

Definition shouldConvertNode (node : SvgElement) : bool :=
  if hasNonRenderedAncestor node then false
  else if isVisuallyHidden node then false
  else true.

Definition randomId : Rand string := Converters.randomId.

(** [Math.floor(Math.random() * 2147483647)] *)
Definition randomInteger : Rand Z :=
  fun draws => (Qfloor (mathRandom draws * 2147483647), S draws).

Definition createBaseElement : Rand ExcalidrawBaseElement :=
  newId <- randomId ;;
  newSeed <- randomInteger ;;
  newNonce <- randomInteger ;;
  ret {| id := newId;
         type := LineType;
         x := 0;
         y := 0;
         strokeColor := "#000000";
         backgroundColor := "transparent";
         fillStyle := "solid";
         strokeWidth := 1;
         strokeStyle := "solid";
         strokeSharpness := Sharp;
         roughness := 0;
         opacity := 100;
         width := 0;
         height := 0;
         angle := 0;
         seed := newSeed;
         version := 1;
         versionNonce := newNonce;
         isDeleted := false;
         groupIds := [];
         boundElementIds := None |}.

(** [document.querySelector(tag)]: the document element counts. *)
Definition documentQuery (document : Markup) (tag : string)
  : option SvgElement :=
  find (fun e => Dom.tagName e =? tag)
       (match document with
        | Tag _ _ _ => mkSvgElement document [] :: Dom.descendants [] document
        | Text _ => []
        end).

Definition parseSvg (svgMarkup : string) : Exc SvgElement :=
  let document := parseFromString svgMarkup in
  match documentQuery document "parsererror" with
  | Some parserError =>
      Thrown ("SVG parsing error: " ++ Js.trim (Dom.textContent parserError))
  | None =>
      match documentQuery document "svg" with
      | None => Thrown "Input does not contain a valid <svg> root element."
      | Some root => Returned root
      end
  end.

(** The nodes the loop of [convertSvgToExcalidraw] runs over. *)
Definition selectedNodes (root : SvgElement) : list SvgElement :=
  filter shouldConvertNode (Dom.querySelectorAll root SUPPORTED_TAGS).

(** One round of that loop: the elements the node adds. *)
Definition convertNode (context : ConverterContext) (node : SvgElement)
  : Rand (list ExcalidrawElement) :=
  match Converters.svgConverters (Js.toLowerCase (Dom.tagName node)) with
  | None => ret []
  | Some converter =>
      conversion <- converter node context createBaseElement ;;
      match conversion with
      | NoElement => ret []
      | ManyElements items => ret items
      | OneElement element => ret [element]
      end
  end.

Fixpoint convertNodes (context : ConverterContext) (nodes : list SvgElement)
  : Rand (list ExcalidrawElement) :=
  match nodes with
  | [] => ret []
  | node :: rest =>
      added <- convertNode context node ;;
      others <- convertNodes context rest ;;
      ret (added ++ others)%list
  end.

(** [convertSvgToExcalidraw] once [parseSvg] has returned. *)
Definition convertSvgRoot (root : SvgElement) : Rand ExcalidrawDocument :=
  let context := mkConverterContext (Style.createStyleContext root) in
  converted <- convertNodes context (selectedNodes root) ;;
  ret {| docType := "excalidraw";
         docVersion := 2;
         source := EXCALIDRAW_SOURCE;
         elements := converted |}.

(** What one round of the loop raises. *)
Definition convertNodeError (context : ConverterContext) (node : SvgElement)
  : option string :=
  match Converters.svgConverterErrors (Js.toLowerCase (Dom.tagName node)) with
  | None => None
  | Some raised => raised node context
  end.

(** What the loop raises: the error of the first round that raises. *)
Definition convertSvgRootError (root : SvgElement) : option string :=
  let context := mkConverterContext (Style.createStyleContext root) in
  Converters.firstError (map (convertNodeError context) (selectedNodes root)).

(** The conversion as its caller sees it: the error of [parseSvg], else the
    error the loop raises, else the document.  [convertSvgRoot] is the
    document of a loop that raises nothing. *)
Definition convertSvgToExcalidraw (svgMarkup : string)
  : Rand (Exc ExcalidrawDocument) :=
  match parseSvg svgMarkup with
  | Thrown message => ret (Thrown message)
  | Returned root =>
      match convertSvgRootError root with
      | Some message => ret (Thrown message)
      | None =>
          document <- convertSvgRoot root ;;
          ret (Returned document)
      end
  end.

End WithExternals.

End Convert.

(* ===================================================================== *)
(** ** Vocabulary of the properties *)
(* ===================================================================== *)

(** What the orchestrator appends for a converter's result. *)
Definition elementsOf (conversion : Conversion) : list ExcalidrawElement :=
  match conversion with
  | NoElement => []
  | OneElement element => [element]
  | ManyElements items => items
  end.

Definition optionAll {A : Type} (P : A -> Prop) (value : option A) : Prop :=
  match value with
  | Some a => P a
  | None => True
  end.

Definition unrotated (e : ExcalidrawElement) : Prop := angle (base e) = 0.

(** A base-element factory whose results all have angle 0. *)
Definition noRotation (createBaseElement : Rand ExcalidrawBaseElement) : Prop :=
  forall draws, angle (fst (createBaseElement draws)) = 0.



(** [s], at position [i], is the subpath of largest area, the first one
    among those of that area: no subpath has a larger area and every earlier
    one has a strictly smaller area. *)
Definition isLargestFirst (subpaths : list PathSubpathData) (i : nat)
           (s : PathSubpathData) : Prop :=
  nth_error subpaths i = Some s
  /\ (forall j t, nth_error subpaths j = Some t ->
                  PathData.area t <= PathData.area s)
  /\ (forall j t, (j < i)%nat -> nth_error subpaths j = Some t ->
                  PathData.area t < PathData.area s).

Definition oppositeDirection (d : WindingDirection) : WindingDirection :=
  match d with
  | Clockwise => CounterClockwise
  | CounterClockwise => Clockwise
  end.

(** Reversing [points] flips the reported winding. *)
Definition reversalFlipsWinding (points : list Point) : Prop :=
  direction (Geometry.getWindingOrder (rev points))
  = oppositeDirection (direction (Geometry.getWindingOrder points)).

(** The sum of [f] over a list of indices. *)
Definition sumOver (f : nat -> Q) (indices : list nat) : Q :=
  fold_right (fun index rest => f index + rest) 0 indices.

(** The summand [(x2 - x1) * (y2 + y1)] as a fraction, nothing rounded. *)
Definition exactEdgeTerm (p1 p2 : Point) : Q :=
  (fst p2 - fst p1) * (snd p2 + snd p1).

(** The summand the loop over [points] forms at [index], nothing rounded. *)
Definition exactTermAt (points : list Point) (index : nat) : Q :=
  exactEdgeTerm
    (Geometry.pointAt points index)
    (Geometry.pointAt points (Nat.modulo (index + 1) (List.length points))).

(** The shoelace sum as a fraction, nothing rounded. *)
Definition exactShoelaceSum (points : list Point) : Q :=
  sumOver (exactTermAt points) (seq 0 (List.length points)).

(** The pass of the loop over [points] at [index] rounds nothing: its
    difference, its sum, its product and the running total after it are
    binary64 values as they stand. *)
Definition roundsNothingAt (points : list Point) (index : nat) : Prop :=
  let p1 := Geometry.pointAt points index in
  let p2 :=
    Geometry.pointAt points (Nat.modulo (index + 1) (List.length points)) in
  Double.exact (fst p2 - fst p1)
  /\ Double.exact (snd p2 + snd p1)
  /\ Double.exact (exactEdgeTerm p1 p2)
  /\ Double.exact (sumOver (exactTermAt points) (seq 0 (S index))).

(** No operation of the loop over [points] rounds. *)
Definition roundingFree (points : list Point) : Prop :=
  Forall (roundsNothingAt points) (seq 0 (List.length points)).

(** Every coordinate of [points] is a whole number of magnitude at most
    [bound]. *)
Definition wholeWithin (bound : Z) (points : list Point) : Prop :=
  Forall
    (fun p =>
       exists a b : Z,
         fst p == inject_Z a /\ snd p == inject_Z b
         /\ (Z.abs a <= bound)%Z /\ (Z.abs b <= bound)%Z)
    points.

(** The exact shoelace terms of the edges between neighbours, without the
    edge that closes the polygon. *)
Fixpoint chainSum (points : list Point) : Q :=
  match points with
  | a :: (b :: _) as rest => exactEdgeTerm a b + chainSum rest
  | _ => 0
  end.

(** The ancestors the cascade consults: the parents, nearest first, up to
    and including the first [svg] element. *)
Fixpoint upToRoot (chain : list SvgElement) : list SvgElement :=
  match chain with
  | [] => []
  | current :: above =>
      if isSvgTag current then [current] else current :: upToRoot above
  end.

(** The first value any of [chain] offers. *)
Fixpoint firstOffer (offer : SvgElement -> option string)
         (chain : list SvgElement) : option string :=
  match chain with
  | [] => None
  | current :: above =>
      match offer current with
      | Some value => Some value
      | None => firstOffer offer above
      end
  end.

Definition whenTruthy (value : option string) : option string :=
  if Js.truthy value then value else None.

(** What an ancestor offers when its inline style is asked first. *)
Definition styleThenAttribute (property : string) (current : SvgElement)
  : option string :=
  whenTruthy (Style.getInlineStyleValue current property)
  ?? whenTruthy (Dom.getAttribute current property).

(** What an ancestor offers when its direct attribute is asked first. *)
Definition attributeThenStyle (property : string) (current : SvgElement)
  : option string :=
  whenTruthy (Dom.getAttribute current property)
  ?? whenTruthy (Style.getInlineStyleValue current property).

(** The ancestor cascade as the specification words it. *)
Definition ancestorCascadeAsWorded (element : SvgElement) (property : string)
  : option string :=
  firstOffer (styleThenAttribute property)
             (upToRoot (handles (ancestors element))).

(** Nothing on [element] itself answers for [property]. *)
Definition noOwnValue (element : SvgElement) (context : StyleContext)
           (property : string) : Prop :=
  Style.getInlineStyleValue element property = None
  /\ Dom.getAttribute element property = None
  /\ Style.getClassStyleValue element context property = None.

(** The whole group id list of [e] is [ids]. *)
Definition inGroups (ids : list string) (e : ExcalidrawElement) : Prop :=
  groupIds (base e) = ids.

(** The transform declaration of [element] is absent, or one of the two
    library calls that read it throws. *)
Definition transformAbsentOrMalformed {ext : Externals} (element : SvgElement)
  : Prop :=
  match Dom.getAttribute element "transform" with
  | None => True
  | Some declaration =>
      (exists message, fromTransformAttribute declaration = Thrown message)
      \/ (exists definition message,
            fromTransformAttribute declaration = Returned definition
            /\ fromDefinition definition = Thrown message)
  end.

(** The command string of [element] makes the flattening library throw. *)
Definition pathDataMalformed {ext : Externals} (element : SvgElement) : Prop :=
  exists pathData message,
    Dom.getAttribute element "d" = Some pathData
    /\ pointsOnPath pathData = Thrown message.

(* ===================================================================== *)
(** ** Concrete collaborators and sample documents *)
(* ===================================================================== *)

Module Samples.

Local Open Scope string_scope.

Definition digitOf (c : ascii) : option Z :=
  let n := nat_of_ascii c in
  if Nat.leb 48 n && Nat.leb n 57 then Some (Z.of_nat (n - 48)) else None.

Fixpoint digitsValue (value : Z) (seen : bool) (s : string) : option Z :=
  match s with
  | EmptyString => if seen then Some value else None
  | String c rest =>
      match digitOf c with
      | Some d => digitsValue (10 * value + d)%Z true rest
      | None => if seen then Some value else None
      end
  end.

(** [Number.parseFloat] on the inputs used below: an optional minus sign and
    a run of decimal digits; anything else is [NaN]. *)
Definition parseDecimal (s : string) : option Q :=
  match s with
  | String "-" rest =>
      option_map (fun z => inject_Z (- z)) (digitsValue 0 false rest)
  | _ => option_map inject_Z (digitsValue 0 false s)
  end.

(** Two squares, the small one first: [M4 4 H6 V6 H4 Z M0 0 H10 V10 H0 Z]. *)
Definition innerSquare : list Point :=
  [(4, 4); (6, 4); (6, 6); (4, 6); (4, 4)]%Q.

Definition outerSquare : list Point :=
  [(0, 0); (10, 0); (10, 10); (0, 10); (0, 0)]%Q.

Definition holeFirstData : string := "M4 4 H6 V6 H4 Z M0 0 H10 V10 H0 Z".
Definition holeLastData : string := "M0 0 H10 V10 H0 Z M4 4 V6 H6 V4 Z".
Definition openData : string := "M0 0 L10 10".
Definition brokenData : string := "M0 0 L".

(** The flattening of the path data above; other data is rejected. *)
Definition samplePointsOnPath (d : string) : Exc (list (list Point)) :=
  if d =? holeFirstData then Returned [innerSquare; outerSquare]
  else if d =? holeLastData then Returned [outerSquare; rev innerSquare]
  else if d =? openData then Returned [[(0, 0); (10, 10)]%Q]
  else Thrown "Bad segment".

(** [<svg><path d='M0 0 L' transform='rotate(' stroke='#000000'/>
    <rect width='0' height='5'/></svg>] *)
Definition brokenMarkup : string :=
  "<svg><path d='M0 0 L' transform='rotate(' stroke='#000000'/><rect width='0' height='5'/></svg>".

Definition brokenDocument : Markup :=
  Tag "svg" []
    [Tag "path" [("d", brokenData); ("transform", "rotate("); ("stroke", "#000000")] [];
     Tag "rect" [("width", "0"); ("height", "5")] []].

Definition sampleExternals : Externals := {|
  parseFloat := parseDecimal;
  mathRandom := fun n => (1 # Pos.of_nat (n + 2))%Q;
  toString36 := fun _ => "0.4fzyo82mvyr";
  pointsOnPath := samplePointsOnPath;
  TransformDefinition := unit;
  fromTransformAttribute := fun _ => Thrown "Syntax error";
  fromDefinition := fun _ => Returned [];
  matchGradientId := fun _ => None;
  querySelectorHash := fun root id => Returned (Dom.querySelectorById root id);
  matchNumericValues := fun _ => [];
  parseClassStyles := fun _ => [];
  parseFromString := fun markup =>
    if markup =? brokenMarkup then brokenDocument
    else Tag "parsererror" [] [Text "unexpected input"]
|}.

Definition leaf (name : string) (attributes : list (string * string)) : Markup :=
  Tag name attributes [].

(** The first element named [tag] below [root], in document order. *)
Definition firstElement (root : Markup) (tag : string) : option SvgElement :=
  Dom.querySelector (mkSvgElement root []) tag.

Definition orRoot (found : option SvgElement) : SvgElement :=
  optionOr found (mkSvgElement (Tag "svg" [] []) []).

(** [<svg><path d="..." fill="#ff0000"/></svg>], small square first. *)
Definition holeFirstDocument : Markup :=
  Tag "svg" [] [leaf "path" [("d", holeFirstData); ("fill", "#ff0000")]].

Definition holeFirstPath : SvgElement := orRoot (firstElement holeFirstDocument "path").

(** The same with the large square first. *)
Definition holeLastDocument : Markup :=
  Tag "svg" [] [leaf "path" [("d", holeLastData); ("fill", "#ff0000")]].

Definition holeLastPath : SvgElement := orRoot (firstElement holeLastDocument "path").



(** [<svg><path d="M0 0 L10 10" stroke="#000000"/></svg>] *)
Definition strokedDocument : Markup :=
  Tag "svg" [] [leaf "path" [("d", openData); ("stroke", "#000000")]].

Definition strokedPath : SvgElement := orRoot (firstElement strokedDocument "path").

(** [<svg><clipPath id="c"><rect x="10" y="10" width="30" height="20"/>
    </clipPath></svg>] *)
Definition clipDocument : Markup :=
  Tag "svg" []
    [Tag "clipPath" [("id", "c")]
       [leaf "rect" [("x", "10"); ("y", "10"); ("width", "30"); ("height", "20")]]].

Definition clippedRect : SvgElement := orRoot (firstElement clipDocument "rect").

(** [<svg><defs><rect x="10" y="10" width="30" height="20"/></defs></svg>] *)
Definition defsDocument : Markup :=
  Tag "svg" []
    [Tag "defs" []
       [leaf "rect" [("x", "10"); ("y", "10"); ("width", "30"); ("height", "20")]]].

Definition definedRect : SvgElement := orRoot (firstElement defsDocument "rect").

(** [<svg><g fill="red" style="fill: blue"><rect width="5" height="5"/></g></svg>] *)
Definition cascadeDocument : Markup :=
  Tag "svg" []
    [Tag "g" [("fill", "red"); ("style", "fill: blue")]
       [leaf "rect" [("width", "5"); ("height", "5")]]].

Definition cascadeRect : SvgElement := orRoot (firstElement cascadeDocument "rect").

Definition brokenPath : SvgElement :=
  orRoot (firstElement brokenDocument "path").

Definition flatRect : SvgElement :=
  orRoot (firstElement brokenDocument "rect").

(** The flattening of [M0 0 H10]: a single segment. *)
Definition segment : list Point := [(0, 0); (10, 0)]%Q.

(** A thin quadrilateral with whole coordinates: its exact shoelace sum is
    -1, and the running total of the loop needs more than 53 bits. *)
Definition sliver : list Point :=
  [(0, 0); (1, 3); (134217729, 268435457); (2, 5)]%Q.


Definition emptyData : PathSubpathData :=
  PathData.mk 0 0 0 0 0 [] (mkBoundingBox 0 0 0 0) 0 CounterClockwise false.

Definition emptyContext (root : Markup) : ConverterContext :=
  mkConverterContext (mkStyleContext (mkSvgElement root []) []).



(** The two squares as [buildSubpathData] describes them, large one first. *)
Definition squaresData : list PathSubpathData :=
  Path.buildSubpathData [outerSquare; rev innerSquare] Affine.identity.

End Samples.

(* ===================================================================== *)
(** ** Vocabulary of the further properties *)
(* ===================================================================== *)

(** Numbers are compared up to equality of fractions, points and boxes
    field by field. *)
Definition pointEq (p q : Point) : Prop := fst p == fst q /\ snd p == snd q.

Definition boxEq (a b : BoundingBox) : Prop :=
  minX a == minX b /\ minY a == minY b /\ maxX a == maxX b /\ maxY a == maxY b.

(** [p] lies in [box], borders included. *)
Definition insideBox (box : BoundingBox) (p : Point) : Prop :=
  minX box <= fst p /\ fst p <= maxX box
  /\ minY box <= snd p /\ snd p <= maxY box.

(** Every border of [box] passes through one of [points]. *)
Definition touchesBox (box : BoundingBox) (points : list Point) : Prop :=
  In (minX box) (map fst points) /\ In (maxX box) (map fst points)
  /\ In (minY box) (map snd points) /\ In (maxY box) (map snd points).

(** [lo] and [hi] are the least and the greatest of [values]. *)
Definition isExtent (values : list Q) (lo hi : Q) : Prop :=
  (forall v, In v values -> lo <= v /\ v <= hi)
  /\ In lo values /\ In hi values.

(** The elements from an element upward that lie below the first [svg]
    element: the ones whose transform declarations count. *)
Fixpoint belowRoot (chain : list SvgElement) : list SvgElement :=
  match chain with
  | [] => []
  | current :: above =>
      if isSvgTag current then [] else current :: belowRoot above
  end.

(** Applying the matrices of a list to a point, the last matrix first. *)
Definition applyAll (matrices : list Matrix) (p : Point) : Point :=
  fold_right Affine.applyToPoint p matrices.

(** A [string | null] that is not the empty string. *)
Definition neverEmpty (value : option string) : Prop := value <> Some ""%string.

(** Neither [element] nor any ancestor up to the root says anything about
    [property], and no class rule of [element] does. *)
Definition undeclared (element : SvgElement) (context : StyleContext)
           (property : string) : Prop :=
  noOwnValue element context property
  /\ Forall (fun ancestor => attributeThenStyle property ancestor = None)
            (upToRoot (handles (ancestors element))).

(** What an element offers as fill rule: its truthy [fill-rule] attribute. *)
Definition fillRuleOffer (current : SvgElement) : option string :=
  whenTruthy (Dom.getAttribute current "fill-rule").

(** A map none of whose values is the empty string. *)
Definition valuesNonEmpty (m : Js.Map string) : Prop :=
  Forall (fun entry => nonEmpty (snd entry) = true) m.


Definition startsAtOrigin (points : list Point) : Prop :=
  match points with
  | [] => False
  | first :: _ => pointEq first (0, 0)
  end.

(** The variant fields fit the element type: a Rectangle or an Ellipse has
    none; a Line, an Arrow and a FreeDraw carry points that start at the
    origin, an Arrow with a transparent fill and at least one arrowhead, a
    FreeDraw with at least two points; a Text carries a non-empty text, its
    copy, and a font size of at least 1. *)
Definition fieldsFitType (e : ExcalidrawElement) : Prop :=
  match type (base e), fields e with
  | RectangleType, NoFields => True
  | EllipseType, NoFields => True
  | LineType, PointFields points => startsAtOrigin points
  | DrawType, PointFields points =>
      startsAtOrigin points /\ (2 <= List.length points)%nat
  | ArrowType, ArrowFields points startArrowhead endArrowhead =>
      startsAtOrigin points
      /\ (startArrowhead <> None \/ endArrowhead <> None)
      /\ backgroundColor (base e) = "transparent"%string
  | TextType, TextFields text fontSize _ _ _ _ _ originalText =>
      text <> ""%string /\ originalText = text /\ 1 <= fontSize
  | _, _ => False
  end.

Definition wellShaped (e : ExcalidrawElement) : Prop :=
  fieldsFitType e /\ 0 <= width (base e) /\ 0 <= height (base e).




(* ===================================================================== *)
(** ** Further sample documents *)
(* ===================================================================== *)

Module Figures.

Local Open Scope string_scope.

Definition trianglePoints : string := "0,0 10,0 10,10".

(** Two squares of opposite winding, the small one first. *)
Definition innerFirstData : string := "M4 4 V6 H6 V4 Z M0 0 H10 V10 H0 Z".

(** The flattening of [Samples], and of [innerFirstData]. *)
Definition figurePointsOnPath (d : string) : Exc (list (list Point)) :=
  if d =? innerFirstData
  then Returned [rev Samples.innerSquare; Samples.outerSquare]
  else Samples.samplePointsOnPath d.

(** [<svg><rect width='5' height='5' fill='url(#a:b)'/></svg>] *)
Definition gradientMarkup : string :=
  "<svg><rect width='5' height='5' fill='url(#a:b)'/></svg>".

Definition gradientDocument : Markup :=
  Tag "svg" []
    [Tag "rect" [("width", "5"); ("height", "5"); ("fill", "url(#a:b)")] []].

(** The collaborators of [Samples], with the numbers of [trianglePoints]
    scanned as well, [gradientMarkup] parsed, and a selector engine that
    rejects [#a:b]. *)
Definition figureExternals : Externals := {|
  parseFloat := Samples.parseDecimal;
  mathRandom := fun n => (1 # Pos.of_nat (n + 2))%Q;
  toString36 := fun _ => "0.4fzyo82mvyr";
  pointsOnPath := figurePointsOnPath;
  TransformDefinition := unit;
  fromTransformAttribute := fun _ => Thrown "Syntax error";
  fromDefinition := fun _ => Returned [];
  matchGradientId := fun urlRef =>
    if urlRef =? "url(#a:b)" then Some "a:b" else None;
  querySelectorHash := fun root id =>
    if id =? "a:b" then Thrown "SyntaxError: unknown pseudo-class"
    else Returned (Dom.querySelectorById root id);
  matchNumericValues := fun attribute =>
    if attribute =? trianglePoints then [0; 0; 10; 0; 10; 10]%Q else [];
  parseClassStyles := fun _ => [];
  parseFromString := fun markup =>
    if markup =? gradientMarkup then gradientDocument
    else Tag "parsererror" [] [Text "unexpected input"]
|}.

(** [<svg><path d="M4 4 V6 H6 V4 Z M0 0 H10 V10 H0 Z" fill="#ff0000"/></svg>] *)
Definition innerFirstDocument : Markup :=
  Tag "svg" []
    [Samples.leaf "path" [("d", innerFirstData); ("fill", "#ff0000")]].

Definition innerFirstPath : SvgElement :=
  Samples.orRoot (Samples.firstElement innerFirstDocument "path").

(** The same path with [fill-rule="evenodd"]. *)
Definition innerFirstEvenOddDocument : Markup :=
  Tag "svg" []
    [Samples.leaf "path"
       [("d", innerFirstData); ("fill", "#ff0000"); ("fill-rule", "evenodd")]].

Definition innerFirstEvenOddPath : SvgElement :=
  Samples.orRoot (Samples.firstElement innerFirstEvenOddDocument "path").

(** The fills of the elements a sample path yields, in order. *)
Definition fillsOf (document : Markup) (path : SvgElement) : list string :=
  map (fun e => backgroundColor (base e))
      (elementsOf
         (fst (@Converters.pathConverter figureExternals path
                 (Samples.emptyContext document)
                 (@Convert.createBaseElement figureExternals) 0%nat))).

(** The subpaths of a sample path under its accumulated transform. *)
Definition piecesOf (path : SvgElement) : list ConvertedPathSubpath :=
  @Path.convertPathToSubpaths figureExternals path
    (@Transform.getAccumulatedTransform figureExternals path).

(** [<svg><g display=" None "><rect width="5" height="5"/></g></svg>] *)
Definition hiddenDocument : Markup :=
  Tag "svg" []
    [Tag "g" [("display", " None ")]
       [Samples.leaf "rect" [("width", "5"); ("height", "5")]]].

Definition hiddenRect : SvgElement :=
  Samples.orRoot (Samples.firstElement hiddenDocument "rect").






(** [<svg><path d="M0 0 L10 10" fill="none"/>
    <path d="M0 0 H10 V10 H0 Z M4 4 V6 H6 V4 Z" fill-rule="EvenOdd"/></svg>] *)
Definition pathsDocument : Markup :=
  Tag "svg" []
    [Samples.leaf "path" [("d", Samples.openData); ("fill", "none")];
     Samples.leaf "path" [("d", Samples.holeLastData); ("fill-rule", "EvenOdd")]].

Definition unpaintedPath : SvgElement :=
  Samples.orRoot (Samples.firstElement pathsDocument "path").

Definition evenOddPath : SvgElement :=
  nth 1 (Dom.querySelectorAll (mkSvgElement pathsDocument []) ["path"])
      unpaintedPath.

End Figures.

(* ===================================================================== *)
(** ** Properties *)
(* ===================================================================== *)

(** *** The random-number monad *)

Lemma bind_run {A B : Type} (c : Rand A) (k : A -> Rand B) (draws : nat) :
  bind c k draws = k (fst (c draws)) (snd (c draws)).
Proof. unfold bind. destruct (c draws); reflexivity. Qed.

Lemma ret_run {A : Type} (a : A) (draws : nat) : ret a draws = (a, draws).
Proof. reflexivity. Qed.

(** *** The string helpers and the parsers on examples *)

Example trim_example : Js.trim "  fill : red  "%string = "fill : red"%string.
Proof. reflexivity. Qed.

Example split_example :
  Js.split ";" "a;b;"%string = ["a"; "b"; ""]%string.
Proof. reflexivity. Qed.

Example words_example :
  Js.words " big  red box "%string = ["big"; "red"; "box"]%string.
Proof. reflexivity. Qed.

Example toLowerCase_example :
  Js.toLowerCase "clipPath"%string = "clippath"%string.
Proof. reflexivity. Qed.

Example parseCssDeclarations_example :
  Style.parseCssDeclarations "Fill: Blue; stroke:red;fill:green;;x"%string
  = [("fill", "green"); ("stroke", "red")]%string.
Proof. reflexivity. Qed.

Example parseInlineStyle_example :
  Convert.parseInlineStyle (Some "Display: NONE"%string)
  = [("display", "none")]%string.
Proof. reflexivity. Qed.

Example shoelaceSum_example :
  Geometry.shoelaceSum [(0, 0); (10, 0); (10, 10); (0, 10)] == - (200).
Proof. reflexivity. Qed.

Example getPolygonArea_example :
  Geometry.getPolygonArea [(0, 0); (10, 0); (10, 10); (0, 10)] == 100.
Proof. reflexivity. Qed.

Example isContainedIn_example :
  Geometry.isContainedIn (mkBoundingBox 4 4 6 6) (mkBoundingBox 0 0 10 10) = true
  /\ Geometry.isContainedIn (mkBoundingBox 0 0 10 10) (mkBoundingBox 4 4 6 6)
     = false.
Proof. split; reflexivity. Qed.

(** *** Rotation is never set *)

Section AngleProofs.
Context {ext : Externals}.

Lemma angle_withPlacement t px py w h b :
  angle (withPlacement t px py w h b) = angle b.
Proof. reflexivity. Qed.

Lemma angle_withPaint bg st w b : angle (withPaint bg st w b) = angle b.
Proof. reflexivity. Qed.

Lemma createBaseElement_angle : noRotation Convert.createBaseElement.
Proof. intros draws. reflexivity. Qed.

Lemma createLineFromPoints_angle pts el ctx mk opts draws :
  noRotation mk ->
  optionAll unrotated (fst (Converters.createLineFromPoints pts el ctx mk opts draws)).
Proof.
  intros Hmk. unfold Converters.createLineFromPoints.
  destruct pts as [|origin rest]; [exact I|].
  rewrite bind_run. cbn. apply Hmk.
Qed.

Lemma createArrowFromPoints_angle pts el ctx mk opts draws :
  noRotation mk ->
  optionAll unrotated (fst (Converters.createArrowFromPoints pts el ctx mk opts draws)).
Proof.
  intros Hmk. unfold Converters.createArrowFromPoints.
  destruct pts as [|origin rest]; [exact I|].
  rewrite bind_run. cbn. apply Hmk.
Qed.

Lemma createDrawFromPoints_angle pts el ctx mk opts draws :
  noRotation mk ->
  optionAll unrotated (fst (Converters.createDrawFromPoints pts el ctx mk opts draws)).
Proof.
  intros Hmk. unfold Converters.createDrawFromPoints.
  destruct (Nat.ltb _ _); [exact I|].
  rewrite bind_run. cbn. apply Hmk.
Qed.

Lemma ofNullable_angle (created : option ExcalidrawElement) :
  optionAll unrotated created ->
  Forall unrotated (elementsOf (Converters.ofNullable created)).
Proof.
  destruct created as [e|]; cbn; intros H; [constructor; [exact H|constructor]|constructor].
Qed.

Lemma rectConverter_angle el ctx mk draws :
  noRotation mk ->
  Forall unrotated (elementsOf (fst (Converters.rectConverter el ctx mk draws))).
Proof.
  intros Hmk. unfold Converters.rectConverter.
  destruct (_ || _); [constructor|].
  rewrite bind_run. cbn. constructor; [apply Hmk|constructor].
Qed.

Lemma circleConverter_angle el ctx mk draws :
  noRotation mk ->
  Forall unrotated (elementsOf (fst (Converters.circleConverter el ctx mk draws))).
Proof.
  intros Hmk. unfold Converters.circleConverter.
  destruct (Qleb _ _); [constructor|].
  rewrite bind_run. cbn. constructor; [apply Hmk|constructor].
Qed.

Lemma ellipseConverter_angle el ctx mk draws :
  noRotation mk ->
  Forall unrotated (elementsOf (fst (Converters.ellipseConverter el ctx mk draws))).
Proof.
  intros Hmk. unfold Converters.ellipseConverter.
  destruct (_ || _); [constructor|].
  rewrite bind_run. cbn. constructor; [apply Hmk|constructor].
Qed.

Lemma polygonConverter_angle el ctx mk draws :
  noRotation mk ->
  Forall unrotated (elementsOf (fst (Converters.polygonConverter el ctx mk draws))).
Proof.
  intros Hmk. unfold Converters.polygonConverter.
  destruct (Nat.ltb _ _); [constructor|].
  rewrite bind_run. cbn [ret fst]. apply ofNullable_angle.
  now apply createLineFromPoints_angle.
Qed.

Lemma polylineConverter_angle el ctx mk draws :
  noRotation mk ->
  Forall unrotated (elementsOf (fst (Converters.polylineConverter el ctx mk draws))).
Proof.
  intros Hmk. unfold Converters.polylineConverter.
  destruct (Nat.ltb _ _); [constructor|].
  rewrite bind_run. cbn [ret fst]. apply ofNullable_angle.
  destruct (Converters.shouldUseArrowType el ctx).
  - now apply createArrowFromPoints_angle.
  - now apply createLineFromPoints_angle.
Qed.

Lemma lineConverter_angle el ctx mk draws :
  noRotation mk ->
  Forall unrotated (elementsOf (fst (Converters.lineConverter el ctx mk draws))).
Proof.
  intros Hmk. unfold Converters.lineConverter.
  rewrite bind_run. cbn [ret fst]. apply ofNullable_angle.
  destruct (Converters.shouldUseArrowType el ctx).
  - now apply createArrowFromPoints_angle.
  - now apply createLineFromPoints_angle.
Qed.

Lemma textConverter_angle el ctx mk draws :
  noRotation mk ->
  Forall unrotated (elementsOf (fst (Converters.textConverter el ctx mk draws))).
Proof.
  intros Hmk. unfold Converters.textConverter.
  destruct (negb _); [constructor|].
  rewrite bind_run. cbn. constructor; [apply Hmk|constructor].
Qed.

Lemma convertSubpath_angle el ctx mk shared fill stroke rule visFill visStroke
      initial subpath draws :
  noRotation mk ->
  optionAll unrotated
    (fst (fst (Converters.convertSubpath el ctx mk shared fill stroke rule
                 visFill visStroke initial subpath draws))).
Proof.
  intros Hmk. unfold Converters.convertSubpath.
  destruct (negb (Subpath.isClosed subpath)).
  - destruct (negb visStroke); [exact I|].
    destruct (Converters.shouldUseArrowType el ctx);
      rewrite bind_run; cbn [ret fst].
    + now apply createArrowFromPoints_angle.
    + now apply createLineFromPoints_angle.
  - destruct (negb visFill).
    + destruct (negb visStroke); [exact I|].
      rewrite bind_run; cbn [ret fst]. now apply createLineFromPoints_angle.
    + rewrite bind_run.
      pose proof (createDrawFromPoints_angle
                    (Converters.absolutePointsOf subpath) el ctx
                    (mkOptions None (Some shared)
                       (Some (fst (Converters.chooseBackground fill rule initial subpath)))
                       (Some stroke)) draws Hmk) as Hdraw.
      destruct (fst (Converters.createDrawFromPoints _ _ _ _ _ _)) as [d|];
        cbn [ret fst]; [|exact I].
      destruct (negb visStroke); cbn; exact Hdraw.
Qed.

Lemma convertSubpaths_angle el ctx mk shared fill stroke rule visFill visStroke
      subpaths :
  noRotation mk ->
  forall initial draws,
    Forall (optionAll unrotated)
      (fst (Converters.convertSubpaths el ctx mk shared fill stroke rule
              visFill visStroke initial subpaths draws)).
Proof.
  intros Hmk. induction subpaths as [|s rest IH]; intros initial draws.
  - constructor.
  - cbn [Converters.convertSubpaths]. rewrite !bind_run. cbn [ret fst].
    constructor.
    + now apply convertSubpath_angle.
    + apply IH.
Qed.

Lemma withoutNulls_Forall (P : ExcalidrawElement -> Prop) items :
  Forall (optionAll P) items -> Forall P (Converters.withoutNulls items).
Proof.
  induction 1 as [|item rest Hitem _ IH]; cbn; [constructor|].
  destruct item as [e|]; cbn; [constructor; assumption|assumption].
Qed.

Lemma pathConverter_angle el ctx mk draws :
  noRotation mk ->
  Forall unrotated (elementsOf (fst (Converters.pathConverter el ctx mk draws))).
Proof.
  intros Hmk. unfold Converters.pathConverter.
  destruct (Path.convertPathToSubpaths _ _) as [|s rest]; [constructor|].
  rewrite bind_run. cbn [ret fst elementsOf].
  apply withoutNulls_Forall. unfold Converters.pathItems.
  rewrite bind_run. now apply convertSubpaths_angle.
Qed.

Lemma svgConverters_angle name converter el ctx mk draws :
  Converters.svgConverters name = Some converter ->
  noRotation mk ->
  Forall unrotated (elementsOf (fst (converter el ctx mk draws))).
Proof.
  unfold Converters.svgConverters. intros Hfound Hmk.
  repeat match type of Hfound with
         | (if ?c then _ else _) = _ => destruct c
         end;
    inversion Hfound; subst.
  - now apply rectConverter_angle.
  - now apply circleConverter_angle.
  - now apply ellipseConverter_angle.
  - now apply lineConverter_angle.
  - now apply polygonConverter_angle.
  - now apply polylineConverter_angle.
  - now apply pathConverter_angle.
  - now apply textConverter_angle.
Qed.

Lemma convertNode_elementsOf ctx node draws :
  fst (Convert.convertNode ctx node draws) =
  match Converters.svgConverters (Js.toLowerCase (Dom.tagName node)) with
  | Some converter =>
      elementsOf (fst (converter node ctx Convert.createBaseElement draws))
  | None => []
  end.
Proof.
  unfold Convert.convertNode.
  destruct (Converters.svgConverters _) as [converter|]; [|reflexivity].
  rewrite bind_run. destruct (fst (converter _ _ _ _)); reflexivity.
Qed.

Lemma convertNode_angle ctx node draws :
  Forall unrotated (fst (Convert.convertNode ctx node draws)).
Proof.
  rewrite convertNode_elementsOf.
  destruct (Converters.svgConverters _) as [converter|] eqn:Hfound; [|constructor].
  eapply svgConverters_angle; [exact Hfound|apply createBaseElement_angle].
Qed.

Lemma convertNodes_angle ctx nodes :
  forall draws, Forall unrotated (fst (Convert.convertNodes ctx nodes draws)).
Proof.
  induction nodes as [|node rest IH]; intros draws.
  - constructor.
  - cbn [Convert.convertNodes]. rewrite !bind_run. cbn [ret fst].
    apply Forall_app. split; [apply convertNode_angle|apply IH].
Qed.

(** C10.  Every element of the document produced for any root element and
    any run of the random source has rotation angle 0: the base element is
    created with angle 0 and no converter overrides the field. *)
Theorem C10_every_element_has_angle_zero (root : SvgElement) (draws : nat) :
  Forall (fun e => angle (base e) = 0)
         (elements (fst (Convert.convertSvgRoot root draws))).
Proof.
  unfold Convert.convertSvgRoot. rewrite bind_run. cbn [ret fst elements].
  apply convertNodes_angle.
Qed.

End AngleProofs.

(** *** Degenerate shapes *)

Section DegenerateShapes.
Context {ext : Externals}.

Lemma Qleb_true (a b : Q) : a <= b -> Qleb a b = true.
Proof. intros H. apply Qle_bool_iff. exact H. Qed.

(** C8.  A rect whose width or height, a circle whose radius, an ellipse
    one of whose radii resolves to a number that is zero or negative is
    converted to no element. *)
Theorem C8_non_positive_dimension_yields_nothing
        (element : SvgElement) (context : ConverterContext)
        (createBaseElement : Rand ExcalidrawBaseElement) (draws : nat) :
  (Style.getNumericAttribute element "width" 0 <= 0
   \/ Style.getNumericAttribute element "height" 0 <= 0 ->
   fst (Converters.rectConverter element context createBaseElement draws)
   = NoElement)
  /\ (Style.getNumericAttribute element "r" 0 <= 0 ->
      fst (Converters.circleConverter element context createBaseElement draws)
      = NoElement)
  /\ (Style.getNumericAttribute element "rx" 0 <= 0
      \/ Style.getNumericAttribute element "ry" 0 <= 0 ->
      fst (Converters.ellipseConverter element context createBaseElement draws)
      = NoElement).
Proof.
  repeat split.
  - intros [H|H]; unfold Converters.rectConverter;
      rewrite (Qleb_true H); rewrite ?orb_true_r; reflexivity.
  - intros H. unfold Converters.circleConverter.
    rewrite (Qleb_true H). reflexivity.
  - intros [H|H]; unfold Converters.ellipseConverter;
      rewrite (Qleb_true H); rewrite ?orb_true_r; reflexivity.
Qed.

End DegenerateShapes.

(** *** Local recovery from malformed input *)

Section Recovery.
Context {ext : Externals}.

Lemma getTransformMatrix_recovers (element : SvgElement) :
  transformAbsentOrMalformed element ->
  Transform.getTransformMatrix element = Affine.identity.
Proof.
  unfold transformAbsentOrMalformed, Transform.getTransformMatrix.
  destruct (Dom.getAttribute element "transform") as [declaration|];
    [|reflexivity].
  intros Hbad. destruct (negb (nonEmpty declaration)); [reflexivity|].
  destruct Hbad as [[message Hparse]|(definition & message & Hparse & Hbuild)];
    rewrite Hparse; cbn; [reflexivity|].
  rewrite Hbuild. reflexivity.
Qed.

Lemma convertPathToSubpaths_recovers (element : SvgElement) (matrix : Matrix) :
  pathDataMalformed element ->
  Path.convertPathToSubpaths element matrix = [].
Proof.
  intros (pathData & message & Hattr & Hthrows).
  unfold Path.convertPathToSubpaths. rewrite Hattr.
  destruct (negb (nonEmpty pathData)); [reflexivity|].
  rewrite Hthrows. reflexivity.
Qed.

Lemma pathConverter_recovers element context createBaseElement draws :
  pathDataMalformed element ->
  Converters.pathConverter element context createBaseElement draws
  = (NoElement, draws).
Proof.
  intros Hbad. unfold Converters.pathConverter.
  rewrite (convertPathToSubpaths_recovers _ Hbad). reflexivity.
Qed.

Lemma firstError_cases (lookups : list (option string)) (message : string) :
  Converters.firstError lookups = Some message -> In (Some message) lookups.
Proof.
  induction lookups as [|lookup later IH]; cbn [Converters.firstError fold_right];
    [discriminate|].
  destruct lookup as [raised|].
  - intros Hraised. left. exact Hraised.
  - intros Hlater. right. now apply IH.
Qed.

Lemma firstError_silent (lookups : list (option string)) :
  Forall (fun lookup => lookup = None) lookups ->
  Converters.firstError lookups = None.
Proof.
  induction 1 as [|lookup later Hlookup _ IH];
    cbn [Converters.firstError fold_right]; [reflexivity|].
  now rewrite Hlookup.
Qed.

(** Whatever a converter raises, one of the two colour lookups of its node
    raises. *)
Lemma convertNodeError_is_a_colour_error context node message :
  Convert.convertNodeError context node = Some message ->
  Style.getFillColorError node (styleContext context) = Some message
  \/ Style.getStrokeColorError node (styleContext context) = Some message.
Proof.
  assert (Hboth :
            Converters.bothColorsError node context = Some message ->
            Style.getFillColorError node (styleContext context) = Some message
            \/ Style.getStrokeColorError node (styleContext context)
               = Some message).
  { intros Hraised. apply firstError_cases in Hraised.
    destruct Hraised as [Hfill|[Hstroke|[]]]; [now left|now right]. }
  assert (Hunforced :
            forall options,
              Converters.unforcedColorsError node context options
              = Some message ->
              Style.getFillColorError node (styleContext context) = Some message
              \/ Style.getStrokeColorError node (styleContext context)
                 = Some message).
  { intros options Hraised. apply firstError_cases in Hraised.
    destruct Hraised as [Hfill|[Hstroke|[]]].
    - destruct (forceBackgroundColor options); [discriminate|now left].
    - destruct (forceStrokeColor options); [discriminate|now right]. }
  assert (Hline :
            forall points options,
              Converters.createLineFromPointsError points node context options
              = Some message ->
              Style.getFillColorError node (styleContext context) = Some message
              \/ Style.getStrokeColorError node (styleContext context)
                 = Some message).
  { intros points options. unfold Converters.createLineFromPointsError.
    destruct points; [discriminate|apply Hunforced]. }
  assert (Harrow :
            forall points,
              Converters.createArrowFromPointsError points node context
              = Some message ->
              Style.getFillColorError node (styleContext context) = Some message
              \/ Style.getStrokeColorError node (styleContext context)
                 = Some message).
  { intros points. unfold Converters.createArrowFromPointsError.
    destruct points; [discriminate|now right]. }
  unfold Convert.convertNodeError, Converters.svgConverterErrors.
  repeat match goal with
         | |- context [String.eqb ?name ?tag] =>
             destruct (String.eqb name tag)
         end; try discriminate.
  - unfold Converters.rectConverterError. cbv zeta.
    destruct (_ || _); [discriminate|exact Hboth].
  - unfold Converters.circleConverterError. cbv zeta.
    destruct (Qleb _ _); [discriminate|exact Hboth].
  - unfold Converters.ellipseConverterError. cbv zeta.
    destruct (_ || _); [discriminate|exact Hboth].
  - unfold Converters.lineConverterError. cbv zeta.
    destruct (Converters.shouldUseArrowType node context);
      [apply Harrow|apply Hline].
  - unfold Converters.polygonConverterError. cbv zeta.
    destruct (_ <? _)%nat; [discriminate|apply Hline].
  - unfold Converters.polylineConverterError. cbv zeta.
    destruct (_ <? _)%nat; [discriminate|].
    destruct (Converters.shouldUseArrowType node context);
      [apply Harrow|apply Hline].
  - unfold Converters.pathConverterError. cbv zeta.
    destruct (Path.convertPathToSubpaths _ _); [discriminate|exact Hboth].
  - unfold Converters.textConverterError. cbv zeta.
    destruct (negb _); [discriminate|]. intros Hfill. now left.
Qed.

Lemma pathConverterError_recovers element context :
  pathDataMalformed element ->
  Converters.pathConverterError element context = None.
Proof.
  intros Hbad. unfold Converters.pathConverterError.
  now rewrite (convertPathToSubpaths_recovers _ Hbad).
Qed.

(** C9.  An absent or malformed transform declaration gives the identity
    matrix; a malformed command string gives zero subpaths, hence no
    element for that path, and the path raises nothing.  Neither failure
    reaches the caller of the conversion: an error that does is the one
    [parseSvg] raises or one that a colour lookup of a converted node
    raises, and where the markup parses and no such lookup raises the
    conversion returns a document, whatever the transform declarations and
    command strings are. *)
Theorem C9_malformed_input_is_recovered_locally :
  (forall element,
      transformAbsentOrMalformed element ->
      Transform.getTransformMatrix element = Affine.identity)
  /\ (forall element matrix context createBaseElement draws,
         pathDataMalformed element ->
         Path.convertPathToSubpaths element matrix = []
         /\ fst (Converters.pathConverter element context createBaseElement draws)
            = NoElement
         /\ Converters.pathConverterError element context = None)
  /\ (forall markup draws message,
         fst (Convert.convertSvgToExcalidraw markup draws) = Thrown message ->
         Convert.parseSvg markup = Thrown message
         \/ exists root node,
             Convert.parseSvg markup = Returned root
             /\ In node (Convert.selectedNodes root)
             /\ (Style.getFillColorError node (Style.createStyleContext root)
                 = Some message
                 \/ Style.getStrokeColorError node
                      (Style.createStyleContext root) = Some message))
  /\ (forall markup root draws,
         Convert.parseSvg markup = Returned root ->
         (forall node,
             In node (Convert.selectedNodes root) ->
             Style.getFillColorError node (Style.createStyleContext root) = None
             /\ Style.getStrokeColorError node (Style.createStyleContext root)
                = None) ->
         fst (Convert.convertSvgToExcalidraw markup draws)
         = Returned (fst (Convert.convertSvgRoot root draws))).
Proof.
  split; [|split; [|split]].
  - exact getTransformMatrix_recovers.
  - intros element matrix context createBaseElement draws Hbad.
    split; [|split].
    + now apply convertPathToSubpaths_recovers.
    + now rewrite pathConverter_recovers.
    + now apply pathConverterError_recovers.
  - intros markup draws message.
    unfold Convert.convertSvgToExcalidraw.
    destruct (Convert.parseSvg markup) as [root|parseError] eqn:Hparsed.
    + unfold Convert.convertSvgRootError.
      destruct (Converters.firstError _) as [raised|] eqn:Hraised.
      * cbn [ret fst]. intros Hthrown. right.
        assert (Hsame : raised = message) by congruence. subst raised.
        apply firstError_cases in Hraised. apply in_map_iff in Hraised.
        destruct Hraised as (node & Hnode & Hselected).
        exists root, node. split; [reflexivity|]. split; [exact Hselected|].
        exact (convertNodeError_is_a_colour_error _ _ Hnode).
      * rewrite bind_run. cbn [ret fst]. discriminate.
    + cbn [ret fst]. intros Hthrown. left. congruence.
  - intros markup root draws Hparsed Hsilent.
    unfold Convert.convertSvgToExcalidraw. rewrite Hparsed.
    unfold Convert.convertSvgRootError.
    rewrite firstError_silent; [rewrite bind_run; reflexivity|].
    apply Forall_map. apply Forall_forall. intros node Hselected.
    destruct (Convert.convertNodeError _ node) as [raised|] eqn:Hraised;
      [|reflexivity].
    apply convertNodeError_is_a_colour_error in Hraised.
    destruct (Hsilent node Hselected) as (Hfill & Hstroke).
    cbn [styleContext] in Hraised. destruct Hraised; congruence.
Qed.

End Recovery.

(** *** Group ids of the pieces of a path *)

Section GroupIds.
Context {ext : Externals}.

Lemma createLineFromPoints_group pts el ctx mk opts draws :
  optionAll (inGroups (optionOr (optGroupIds opts) []))
    (fst (Converters.createLineFromPoints pts el ctx mk opts draws)).
Proof.
  unfold Converters.createLineFromPoints.
  destruct pts as [|origin rest]; [exact I|].
  rewrite bind_run. reflexivity.
Qed.

Lemma createArrowFromPoints_group pts el ctx mk opts draws :
  optionAll (inGroups (optionOr (optGroupIds opts) []))
    (fst (Converters.createArrowFromPoints pts el ctx mk opts draws)).
Proof.
  unfold Converters.createArrowFromPoints.
  destruct pts as [|origin rest]; [exact I|].
  rewrite bind_run. reflexivity.
Qed.

Lemma createDrawFromPoints_group pts el ctx mk opts draws :
  optionAll (inGroups (optionOr (optGroupIds opts) []))
    (fst (Converters.createDrawFromPoints pts el ctx mk opts draws)).
Proof.
  unfold Converters.createDrawFromPoints.
  destruct (Nat.ltb _ _); [exact I|].
  rewrite bind_run. reflexivity.
Qed.

Lemma convertSubpath_group el ctx mk shared fill stroke rule visFill visStroke
      initial subpath draws :
  optionAll (inGroups shared)
    (fst (fst (Converters.convertSubpath el ctx mk shared fill stroke rule
                 visFill visStroke initial subpath draws))).
Proof.
  unfold Converters.convertSubpath.
  destruct (negb (Subpath.isClosed subpath)).
  - destruct (negb visStroke); [exact I|].
    destruct (Converters.shouldUseArrowType el ctx);
      rewrite bind_run; cbn [ret fst].
    + apply (createArrowFromPoints_group _ el ctx mk
               (mkOptions None (Some shared) None None)).
    + apply (createLineFromPoints_group _ el ctx mk
               (mkOptions (Some false) (Some shared) (Some "transparent"%string)
                          (Some stroke))).
  - destruct (negb visFill).
    + destruct (negb visStroke); [exact I|].
      rewrite bind_run; cbn [ret fst].
      apply (createLineFromPoints_group _ el ctx mk
               (mkOptions (Some true) (Some shared) (Some "transparent"%string)
                          (Some stroke))).
    + rewrite bind_run.
      pose proof (createDrawFromPoints_group
                    (Converters.absolutePointsOf subpath) el ctx mk
                    (mkOptions None (Some shared)
                       (Some (fst (Converters.chooseBackground fill rule initial subpath)))
                       (Some stroke)) draws) as Hdraw.
      destruct (fst (Converters.createDrawFromPoints _ _ _ _ _ _)) as [d|];
        cbn [ret fst]; [|exact I].
      destruct (negb visStroke); cbn; exact Hdraw.
Qed.

Lemma convertSubpaths_group el ctx mk shared fill stroke rule visFill visStroke
      subpaths :
  forall initial draws,
    Forall (optionAll (inGroups shared))
      (fst (Converters.convertSubpaths el ctx mk shared fill stroke rule
              visFill visStroke initial subpaths draws)).
Proof.
  induction subpaths as [|s rest IH]; intros initial draws.
  - constructor.
  - cbn [Converters.convertSubpaths]. rewrite !bind_run. cbn [ret fst].
    constructor; [apply convertSubpath_group|apply IH].
Qed.

Lemma convertSubpaths_length el ctx mk shared fill stroke rule visFill visStroke
      subpaths :
  forall initial draws,
    List.length
      (fst (Converters.convertSubpaths el ctx mk shared fill stroke rule
              visFill visStroke initial subpaths draws))
    = List.length subpaths.
Proof.
  induction subpaths as [|s rest IH]; intros initial draws.
  - reflexivity.
  - cbn [Converters.convertSubpaths]. rewrite !bind_run. cbn [ret fst].
    cbn [List.length]. now rewrite IH.
Qed.

Lemma withoutNulls_length items :
  (List.length (Converters.withoutNulls items) <= List.length items)%nat.
Proof.
  unfold Converters.withoutNulls.
  induction items as [|item rest IH]; cbn; [lia|].
  destruct item; cbn; lia.
Qed.

Lemma pathItems_group el ctx mk subpaths draws :
  Forall (optionAll
            (inGroups (fst (Converters.makeSharedGroupIds subpaths draws))))
         (fst (Converters.pathItems el ctx mk subpaths draws)).
Proof.
  unfold Converters.pathItems. rewrite bind_run. apply convertSubpaths_group.
Qed.

Lemma pathItems_length el ctx mk subpaths draws :
  List.length (fst (Converters.pathItems el ctx mk subpaths draws))
  = List.length subpaths.
Proof.
  unfold Converters.pathItems. rewrite bind_run. apply convertSubpaths_length.
Qed.

Lemma pathConverter_elements el ctx mk draws :
  elementsOf (fst (Converters.pathConverter el ctx mk draws))
  = Converters.withoutNulls
      (fst (Converters.pathItems el ctx mk
              (Path.convertPathToSubpaths el (Transform.getAccumulatedTransform el))
              draws)).
Proof.
  unfold Converters.pathConverter.
  destruct (Path.convertPathToSubpaths _ _) as [|s rest] eqn:Hsubs.
  - reflexivity.
  - rewrite bind_run. reflexivity.
Qed.

(** C7.  When the path decomposes into two or more subpaths, there is one
    group id that is the whole group id list of every element emitted for
    the path; when it decomposes into exactly one subpath, every emitted
    element has an empty group id list.  Two emitted elements can only come
    from two or more subpaths. *)
Theorem C7_pieces_share_one_group_id
        (element : SvgElement) (context : ConverterContext)
        (createBaseElement : Rand ExcalidrawBaseElement) (draws : nat) :
  let subpaths :=
    Path.convertPathToSubpaths element
      (Transform.getAccumulatedTransform element) in
  let emitted :=
    elementsOf
      (fst (Converters.pathConverter element context createBaseElement draws)) in
  ((2 <= List.length subpaths)%nat ->
   exists groupId, Forall (fun e => groupIds (base e) = [groupId]) emitted)
  /\ (List.length subpaths = 1%nat ->
      Forall (fun e => groupIds (base e) = []) emitted)
  /\ ((2 <= List.length emitted)%nat -> (2 <= List.length subpaths)%nat).
Proof.
  intros subpaths emitted. subst emitted.
  rewrite pathConverter_elements. fold subpaths.
  pose proof (pathItems_group element context createBaseElement subpaths draws)
    as Hgroup.
  pose proof (pathItems_length element context createBaseElement subpaths draws)
    as Hlength.
  pose proof (withoutNulls_length
                (fst (Converters.pathItems element context createBaseElement
                        subpaths draws))) as Hkept.
  unfold Converters.makeSharedGroupIds in Hgroup.
  repeat split.
  - intros Hmany.
    assert (Hlt : (1 <? List.length subpaths)%nat = true)
      by (apply Nat.ltb_lt; lia).
    rewrite Hlt, bind_run in Hgroup. cbn [ret fst] in Hgroup.
    eexists. apply withoutNulls_Forall. exact Hgroup.
  - intros Hone.
    assert (Hlt : (1 <? List.length subpaths)%nat = false)
      by (apply Nat.ltb_ge; lia).
    rewrite Hlt in Hgroup. cbn [ret fst] in Hgroup.
    apply withoutNulls_Forall. exact Hgroup.
  - lia.
Qed.

End GroupIds.

(** *** What one subpath of a path becomes *)

Section PathPieces.
Context {ext : Externals}.

Lemma Qgtb_true_iff (a b : Q) : Qgtb a b = true <-> b < a.
Proof.
  unfold Qgtb, Qltb. rewrite negb_true_iff. split.
  - intros H. apply Qnot_le_lt. intros Hle.
    apply Qle_bool_iff in Hle. congruence.
  - intros H. destruct (Qle_bool a b) eqn:E; [|reflexivity].
    apply Qle_bool_iff in E. exfalso. exact (Qlt_not_le _ _ H E).
Qed.













End PathPieces.

(** *** The largest subpath is never a hole *)

Section LargestSubpath.

Lemma Qltb_true_iff (a b : Q) : Qltb a b = true <-> a < b.
Proof.
  unfold Qltb. rewrite negb_true_iff. split.
  - intros H. apply Qnot_le_lt. intros Hle.
    apply Qle_bool_iff in Hle. congruence.
  - intros H. destruct (Qle_bool b a) eqn:E; [|reflexivity].
    apply Qle_bool_iff in E. exfalso. exact (Qlt_not_le _ _ H E).
Qed.

Lemma Qltb_false_iff (a b : Q) : Qltb a b = false <-> b <= a.
Proof.
  unfold Qltb. rewrite negb_false_iff. apply Qle_bool_iff.
Qed.

(** The head of the sorted copy is the first subpath of largest area. *)
Lemma sortByAreaDescending_head (subpaths : list PathSubpathData) :
  match Path.sortByAreaDescending subpaths with
  | [] => subpaths = []
  | largest :: _ => exists i, isLargestFirst subpaths i largest
  end.
Proof.
  induction subpaths as [|x rest IH]; [reflexivity|].
  cbn [Path.sortByAreaDescending fold_right].
  fold (Path.sortByAreaDescending rest).
  destruct (Path.sortByAreaDescending rest) as [|h sorted].
  - subst rest. exists 0%nat. repeat split.
    + intros [|j] t Ht; cbn in Ht; [|destruct j; discriminate].
      inversion Ht; subst. apply Qle_refl.
    + intros j t Hj. lia.
  - destruct IH as (i & Hnth & Hmax & Hfirst).
    cbn [Path.insertByArea].
    destruct (Qltb (PathData.area x) (PathData.area h)) eqn:Hcmp.
    + apply Qltb_true_iff in Hcmp. exists (S i). repeat split.
      * exact Hnth.
      * intros [|j] t Ht; cbn in Ht.
        -- inversion Ht; subst. now apply Qlt_le_weak.
        -- now apply (Hmax j).
      * intros [|j] t Hj Ht; cbn in Ht.
        -- inversion Ht; subst. exact Hcmp.
        -- apply (Hfirst j); [lia|exact Ht].
    + apply Qltb_false_iff in Hcmp. exists 0%nat. repeat split.
      * intros [|j] t Ht; cbn in Ht.
        -- inversion Ht; subst. apply Qle_refl.
        -- eapply Qle_trans; [now apply (Hmax j)|exact Hcmp].
      * intros j t Hj. lia.
Qed.

Lemma isLargestFirst_unique subpaths i s j t :
  isLargestFirst subpaths i s -> isLargestFirst subpaths j t -> i = j /\ s = t.
Proof.
  intros (Hi & Hmaxi & Hfirsti) (Hj & Hmaxj & Hfirstj).
  destruct (Nat.lt_trichotomy i j) as [Hlt|[Heq|Hgt]].
  - exfalso. apply (Qlt_not_le _ _ (Hfirstj i s Hlt Hi)). now apply (Hmaxi j).
  - subst j. split; [reflexivity|congruence].
  - exfalso. apply (Qlt_not_le _ _ (Hfirsti j t Hgt Hj)). now apply (Hmaxj i).
Qed.

Lemma largestIndex_of_largest subpaths i s :
  isLargestFirst subpaths i s ->
  Path.largestIndex subpaths = PathData.index s.
Proof.
  intros Hlargest. unfold Path.largestIndex.
  pose proof (sortByAreaDescending_head subpaths) as Hhead.
  destruct (Path.sortByAreaDescending subpaths) as [|h sorted].
  - subst subpaths. destruct Hlargest as (Hnth & _). destruct i; discriminate.
  - destruct Hhead as (j & Hj).
    destruct (isLargestFirst_unique Hj Hlargest) as [_ Hsame]. now subst.
Qed.

(** Every non-empty list of subpaths has a first subpath of largest area. *)
Lemma isLargestFirst_exists subpaths :
  subpaths <> [] -> exists i s, isLargestFirst subpaths i s.
Proof.
  intros Hnonempty.
  pose proof (sortByAreaDescending_head subpaths) as Hhead.
  destruct (Path.sortByAreaDescending subpaths) as [|h sorted];
    [contradiction|].
  destruct Hhead as (i & Hi). now exists i, h.
Qed.

Lemma buildSubpathDataFrom_unmarked pathPoints matrix :
  forall index,
    Forall (fun d => PathData.isHole d = false)
           (Path.buildSubpathDataFrom index pathPoints matrix).
Proof.
  induction pathPoints as [|subpath rest IH]; intros index;
    cbn [Path.buildSubpathDataFrom].
  - constructor.
  - destruct (Nat.ltb _ _); [apply IH|]. constructor; [reflexivity|apply IH].
Qed.

(** C5.  The subpath of largest area, the first one in case of ties, is left
    untouched by the hole classification, so its hole flag stays as
    [buildSubpathData] set it: false. *)
Theorem C5_largest_subpath_is_never_a_hole
        (subpaths : list PathSubpathData) (useEvenOdd : bool)
        (i : nat) (largest : PathSubpathData) :
  (2 <= List.length subpaths)%nat ->
  isLargestFirst subpaths i largest ->
  nth_error (Path.markHoleSubpaths subpaths useEvenOdd) i = Some largest
  /\ (forall pathPoints matrix,
         subpaths = Path.buildSubpathData pathPoints matrix ->
         PathData.isHole largest = false).
Proof.
  intros _ Hlargest. split.
  - unfold Path.markHoleSubpaths.
    destruct Hlargest as (Hnth & Hrest) eqn:Hkeep. clear Hkeep.
    destruct (Nat.ltb _ _); [exact Hnth|].
    rewrite nth_error_map, Hnth. cbn [option_map].
    rewrite (largestIndex_of_largest (conj Hnth Hrest)).
    now rewrite Z.eqb_refl.
  - intros pathPoints matrix Hbuilt.
    destruct Hlargest as (Hnth & _). apply nth_error_In in Hnth.
    pose proof (buildSubpathDataFrom_unmarked pathPoints matrix 0%Z) as Hall.
    rewrite Forall_forall in Hall. apply Hall.
    unfold Path.buildSubpathData in Hbuilt. now rewrite <- Hbuilt.
Qed.

End LargestSubpath.

(** *** Winding and reversal *)

Section Winding.

Lemma sumOver_ext (f g : nat -> Q) (indices : list nat) :
  (forall i, In i indices -> f i == g i) ->
  sumOver f indices == sumOver g indices.
Proof.
  induction indices as [|i rest IH]; intros Hsame; cbn [sumOver fold_right].
  - reflexivity.
  - fold (sumOver f rest). fold (sumOver g rest).
    rewrite (Hsame i (or_introl eq_refl)).
    rewrite IH; [reflexivity|]. intros j Hj. apply Hsame. now right.
Qed.

Lemma sumOver_app (f : nat -> Q) (l1 l2 : list nat) :
  sumOver f (l1 ++ l2) == sumOver f l1 + sumOver f l2.
Proof.
  induction l1 as [|i rest IH]; cbn [app sumOver fold_right].
  - fold (sumOver f l2). ring.
  - fold (sumOver f (rest ++ l2)). fold (sumOver f rest). rewrite IH. ring.
Qed.

Lemma sumOver_shift (f : nat -> Q) (start count : nat) :
  sumOver f (seq (S start) count) = sumOver (fun i => f (S i)) (seq start count).
Proof.
  revert start. induction count as [|count IH]; intros start; [reflexivity|].
  cbn [seq sumOver fold_right].
  fold (sumOver f (seq (S (S start)) count)).
  fold (sumOver (fun i => f (S i)) (seq (S start) count)).
  now rewrite IH.
Qed.

Lemma edgeTerm_reversed (p q : Point) :
  exactEdgeTerm q p == - exactEdgeTerm p q.
Proof. unfold exactEdgeTerm. ring. Qed.

Lemma chainSum_neighbours (points : list Point) :
  sumOver (fun i => exactEdgeTerm (Geometry.pointAt points i)
                                      (Geometry.pointAt points (S i)))
          (seq 0 (List.length points - 1))
  == chainSum points.
Proof.
  induction points as [|a rest IH]; [reflexivity|].
  destruct rest as [|b rest]; [reflexivity|].
  replace (List.length (a :: b :: rest) - 1)%nat
    with (S (List.length (b :: rest) - 1)) by (cbn [List.length]; lia).
  cbn [seq sumOver fold_right chainSum].
  fold (sumOver (fun i => exactEdgeTerm (Geometry.pointAt (a :: b :: rest) i)
                            (Geometry.pointAt (a :: b :: rest) (S i)))
                (seq 1 (List.length (b :: rest) - 1))).
  rewrite sumOver_shift. rewrite <- IH. reflexivity.
Qed.

Lemma last_as_nth (points : list Point) (d : Point) :
  last points d = nth (List.length points - 1) points d.
Proof.
  induction points as [|a rest IH]; [reflexivity|].
  destruct rest as [|b rest]; [reflexivity|].
  change (last (a :: b :: rest) d) with (last (b :: rest) d).
  rewrite IH. cbn [List.length].
  replace (S (S (List.length rest)) - 1)%nat with (S (S (List.length rest) - 1))
    by lia.
  reflexivity.
Qed.

(** The exact sum adds the terms of neighbouring points and the closing
    term. *)
Lemma shoelaceSum_chain (points : list Point) :
  exactShoelaceSum points
  == chainSum points
     + exactEdgeTerm (last points (0, 0)) (hd (0, 0) points).
Proof.
  unfold exactShoelaceSum, exactTermAt.
  destruct points as [|a rest] eqn:Hpoints.
  - cbn. unfold exactEdgeTerm. cbn. ring.
  - rewrite <- Hpoints.
    assert (Hlen : List.length points = S (List.length points - 1))
      by (subst points; cbn [List.length]; lia).
    set (n := List.length points) in *.
    rewrite Hlen at 1. rewrite seq_S, sumOver_app. cbn [Nat.add].
    rewrite (sumOver_ext
               (fun i => exactEdgeTerm (Geometry.pointAt points i)
                           (Geometry.pointAt points (Nat.modulo (i + 1) n)))
               (fun i => exactEdgeTerm (Geometry.pointAt points i)
                           (Geometry.pointAt points (S i)))).
    + unfold n at 1. rewrite chainSum_neighbours.
      cbn [sumOver fold_right].
      replace (Nat.modulo (n - 1 + 1) n) with 0%nat
        by (replace (n - 1 + 1)%nat with n by lia;
            symmetry; apply Nat.Div0.mod_same).
      replace (Geometry.pointAt points (n - 1)) with (last points (0, 0)).
      * replace (Geometry.pointAt points 0) with (hd (0, 0) points)
          by (subst points; reflexivity).
        ring.
      * unfold Geometry.pointAt, n. apply last_as_nth.
    + intros i Hi. apply in_seq in Hi.
      replace (Nat.modulo (i + 1) n) with (S i); [reflexivity|].
      symmetry. replace (i + 1)%nat with (S i) by lia.
      apply Nat.mod_small. lia.
Qed.

Lemma chainSum_snoc (points : list Point) (z : Point) :
  chainSum (points ++ [z])
  == chainSum points
     + match points with
       | [] => 0
       | _ :: _ => exactEdgeTerm (last points (0, 0)) z
       end.
Proof.
  induction points as [|a rest IH]; [cbn; ring|].
  destruct rest as [|b rest]; [cbn; ring|].
  change (chainSum ((a :: b :: rest) ++ [z]))
    with (exactEdgeTerm a b + chainSum ((b :: rest) ++ [z])).
  rewrite IH. cbn [chainSum last]. ring.
Qed.

Lemma chainSum_rev (points : list Point) :
  chainSum (rev points) == - chainSum points.
Proof.
  induction points as [|a rest IH]; [cbn; ring|].
  cbn [rev]. rewrite chainSum_snoc, IH.
  destruct rest as [|b rest]; [cbn; ring|].
  assert (Hlast : last (rev (b :: rest)) (0, 0) = b)
    by (cbn [rev]; apply last_last).
  destruct (rev (b :: rest)) as [|c l] eqn:Hrev.
  - apply (f_equal (@List.length Point)) in Hrev.
    rewrite length_rev in Hrev. discriminate.
  - rewrite Hlast. cbn [chainSum]. rewrite (edgeTerm_reversed a b). ring.
Qed.

Lemma shoelaceSum_rev (points : list Point) :
  exactShoelaceSum (rev points) == - exactShoelaceSum points.
Proof.
  rewrite !shoelaceSum_chain, chainSum_rev.
  assert (Hlast : last (rev points) (0, 0) = hd (0, 0) points).
  { destruct points as [|a rest]; [reflexivity|]. cbn [rev hd]. apply last_last. }
  assert (Hhd : hd (0, 0) (rev points) = last points (0, 0)).
  { rewrite <- (rev_involutive points) at 2.
    destruct (rev points) as [|z l]; [reflexivity|].
    cbn [rev hd]. now rewrite last_last. }
  rewrite Hlast, Hhd, (edgeTerm_reversed (last points (0, 0)) (hd (0, 0) points)).
  ring.
Qed.

Lemma direction_clockwise_iff (points : list Point) :
  direction (Geometry.getWindingOrder points) = Clockwise
  <-> 0 < signedArea (Geometry.getWindingOrder points).
Proof.
  cbn [Geometry.getWindingOrder direction signedArea].
  rewrite <- Qgtb_true_iff.
  destruct (Qgtb (Geometry.shoelaceSum points) 0); split; congruence.
Qed.

Lemma round_compat (a b : Q) : a == b -> Double.round a = Double.round b.
Proof.
  intros Hsame. unfold Double.round. now rewrite (Qred_complete _ _ Hsame).
Qed.

Lemma exact_compat (a b : Q) : a == b -> Double.exact b -> Double.round a == b.
Proof.
  intros Hsame Hexact. rewrite (round_compat Hsame). exact Hexact.
Qed.

(** A pass that does not round forms the exact summand. *)
Lemma edgeTerm_exact (p1 p2 : Point) :
  Double.exact (fst p2 - fst p1) ->
  Double.exact (snd p2 + snd p1) ->
  Double.exact (exactEdgeTerm p1 p2) ->
  Geometry.edgeTerm p1 p2 == exactEdgeTerm p1 p2.
Proof.
  intros Hdifference Hsum Hproduct.
  unfold Geometry.edgeTerm, Double.mul, Double.sub, Double.add.
  apply exact_compat; [|exact Hproduct].
  unfold exactEdgeTerm. apply Qmult_comp; assumption.
Qed.

Lemma shoelaceSum_prefix (points : list Point) (count : nat) :
  Forall (roundsNothingAt points) (seq 0 count) ->
  fold_left
    (fun sum index =>
       Double.add sum
         (Geometry.edgeTerm
            (Geometry.pointAt points index)
            (Geometry.pointAt points
               (Nat.modulo (index + 1) (List.length points)))))
    (seq 0 count) 0
  == sumOver (exactTermAt points) (seq 0 count).
Proof.
  induction count as [|count IH]; intros Hfree; [reflexivity|].
  pose proof Hfree as Hpasses.
  rewrite seq_S in Hpasses. cbn [Nat.add] in Hpasses.
  apply Forall_app in Hpasses. destruct Hpasses as (Hbefore & Hlast).
  inversion Hlast as [|index rest (Hdifference & Hsum & Hproduct & Htotal) _];
    subst.
  rewrite seq_S at 1. cbn [Nat.add].
  rewrite fold_left_app. cbn [fold_left]. unfold Double.add at 1.
  apply exact_compat; [|exact Htotal].
  rewrite seq_S, sumOver_app. cbn [Nat.add sumOver fold_right].
  apply Qplus_comp; [exact (IH Hbefore)|].
  eapply Qeq_trans; [|symmetry; apply Qplus_0_r].
  apply edgeTerm_exact; assumption.
Qed.

(** A loop that never rounds computes the exact sum. *)
Lemma shoelaceSum_exact (points : list Point) :
  roundingFree points ->
  Geometry.shoelaceSum points == exactShoelaceSum points.
Proof. apply shoelaceSum_prefix. Qed.

Lemma floorLog2_whole (n : positive) :
  Double.floorLog2 n 1 = Z.log2 (Zpos n).
Proof.
  unfold Double.floorLog2. change (Z.log2 1) with 0%Z. rewrite Z.sub_0_r.
  pose proof (Z.log2_nonneg (Zpos n)) as Hnonneg.
  destruct (Z.leb_spec 0 (Z.log2 (Zpos n))) as [_|Hneg]; [|lia].
  destruct (Z.log2_spec (Zpos n)) as (Hlow & _); [lia|].
  destruct (Z.leb_spec (1 * 2 ^ Z.log2 (Zpos n)) (Zpos n)) as [_|Hhigh];
    [reflexivity|lia].
Qed.

Lemma nearestEven_whole (n : Z) : Double.nearestEven n 1 = n.
Proof.
  unfold Double.nearestEven. rewrite Z.mod_1_r, Z.div_1_r. reflexivity.
Qed.

Lemma roundPositive_whole (n : positive) :
  (Zpos n < 2 ^ 53)%Z ->
  Double.roundPositive n 1 == inject_Z (Zpos n).
Proof.
  intros Hsmall. unfold Double.roundPositive. rewrite floorLog2_whole.
  assert (Hlog : (0 <= Z.log2 (Zpos n) < 53)%Z).
  { split; [apply Z.log2_nonneg|]. apply Z.log2_lt_pow2; lia. }
  rewrite Z.max_l by lia.
  destruct (Z.leb_spec 0 (Z.log2 (Zpos n) - 52)) as [Hzero|Hnegative].
  - replace (Z.log2 (Zpos n) - 52)%Z with 0%Z by lia.
    change (2 ^ 0)%Z with 1%Z. rewrite nearestEven_whole, Z.mul_1_r.
    reflexivity.
  - rewrite nearestEven_whole, Qred_correct.
    set (k := (- (Z.log2 (Zpos n) - 52))%Z).
    assert (Hpower : (0 < 2 ^ k)%Z) by (apply Z.pow_pos_nonneg; lia).
    unfold Qeq, inject_Z. cbn [Qnum Qden].
    rewrite Z2Pos.id by exact Hpower. lia.
Qed.

Lemma round_whole (z : Z) :
  (Z.abs z < 2 ^ 53)%Z -> Double.exact (inject_Z z).
Proof.
  intros Hsmall. unfold Double.exact, Double.round.
  assert (Hred : Qred (inject_Z z) = inject_Z z).
  { unfold Qred, inject_Z.
    pose proof (Z.ggcd_gcd z 1) as Hgcd.
    pose proof (Z.ggcd_correct_divisors z 1) as Hdivisors.
    destruct (Z.ggcd z 1) as (g & aa & bb). cbn [fst snd] in *.
    rewrite Z.gcd_1_r in Hgcd. subst g. destruct Hdivisors as (Haa & Hbb).
    replace aa with z by lia. replace bb with 1%Z by lia. reflexivity. }
  rewrite Hred. cbn [inject_Z Qnum Qden].
  destruct z as [|n|n].
  - reflexivity.
  - apply roundPositive_whole. lia.
  - change (inject_Z (Zneg n)) with (- inject_Z (Zpos n)).
    apply Qopp_comp. apply roundPositive_whole. lia.
Qed.

Lemma exact_of_whole (q : Q) (z : Z) :
  q == inject_Z z -> (Z.abs z < 2 ^ 53)%Z -> Double.exact q.
Proof.
  intros Hq Hsmall. unfold Double.exact. rewrite (@round_compat q (inject_Z z) Hq).
  eapply Qeq_trans; [apply (@round_whole z Hsmall)|now symmetry].
Qed.

Lemma pointAt_whole (bound : Z) (points : list Point) (index : nat) :
  (0 <= bound)%Z ->
  wholeWithin bound points ->
  exists a b : Z,
    fst (Geometry.pointAt points index) == inject_Z a
    /\ snd (Geometry.pointAt points index) == inject_Z b
    /\ (Z.abs a <= bound)%Z /\ (Z.abs b <= bound)%Z.
Proof.
  intros Hbound Hwhole. unfold Geometry.pointAt.
  destruct (nth_in_or_default index points (0, 0)) as [Hin|Hdefault].
  - unfold wholeWithin in Hwhole. rewrite Forall_forall in Hwhole.
    exact (Hwhole _ Hin).
  - rewrite Hdefault. exists 0%Z, 0%Z. cbn [fst snd].
    repeat split; try reflexivity; cbn; lia.
Qed.

(** The summand of a pass over whole coordinates is whole. *)
Lemma exactTermAt_whole (points : list Point) (index : nat) :
  wholeWithin (2 ^ 20) points ->
  exists a1 b1 a2 b2 : Z,
    let p1 := Geometry.pointAt points index in
    let p2 :=
      Geometry.pointAt points (Nat.modulo (index + 1) (List.length points)) in
    fst p2 - fst p1 == inject_Z (a2 - a1)
    /\ snd p2 + snd p1 == inject_Z (b2 + b1)
    /\ exactTermAt points index == inject_Z ((a2 - a1) * (b2 + b1))
    /\ (Z.abs (a2 - a1) <= 2 ^ 21)%Z
    /\ (Z.abs (b2 + b1) <= 2 ^ 21)%Z
    /\ (Z.abs ((a2 - a1) * (b2 + b1)) <= 2 ^ 42)%Z.
Proof.
  intros Hwhole.
  destruct (@pointAt_whole (2 ^ 20) points index) as (a1 & b1 & Hx1 & Hy1 & Ha1 & Hb1);
    [lia|exact Hwhole|].
  destruct (@pointAt_whole (2 ^ 20) points
              (Nat.modulo (index + 1) (List.length points)))
    as (a2 & b2 & Hx2 & Hy2 & Ha2 & Hb2); [lia|exact Hwhole|].
  exists a1, b1, a2, b2. cbn zeta.
  assert (Hdifference :
            fst (Geometry.pointAt points
                   (Nat.modulo (index + 1) (List.length points)))
            - fst (Geometry.pointAt points index) == inject_Z (a2 - a1)).
  { unfold Z.sub. rewrite inject_Z_plus, inject_Z_opp. unfold Qminus.
    apply Qplus_comp; [exact Hx2|]. apply Qopp_comp. exact Hx1. }
  assert (Hsum :
            snd (Geometry.pointAt points
                   (Nat.modulo (index + 1) (List.length points)))
            + snd (Geometry.pointAt points index) == inject_Z (b2 + b1)).
  { rewrite inject_Z_plus. apply Qplus_comp; assumption. }
  split; [exact Hdifference|]. split; [exact Hsum|]. split.
  - unfold exactTermAt, exactEdgeTerm. rewrite inject_Z_mult.
    apply Qmult_comp; assumption.
  - change (2 ^ 20)%Z with 1048576%Z in *. change (2 ^ 21)%Z with 2097152%Z.
    change (2 ^ 42)%Z with 4398046511104%Z.
    split; [lia|]. split; [lia|]. rewrite Z.abs_mul. nia.
Qed.

(** So is every running total. *)
Lemma runningTotal_whole (points : list Point) (count : nat) :
  wholeWithin (2 ^ 20) points ->
  exists total : Z,
    sumOver (exactTermAt points) (seq 0 count) == inject_Z total
    /\ (Z.abs total <= Z.of_nat count * 2 ^ 42)%Z.
Proof.
  intros Hwhole. induction count as [|count (total & Htotal & Hbound)].
  - exists 0%Z. split; [reflexivity|cbn; lia].
  - destruct (@exactTermAt_whole points count Hwhole)
      as (a1 & b1 & a2 & b2 & _ & _ & Hterm & _ & _ & Hsmall).
    exists (total + (a2 - a1) * (b2 + b1))%Z. split.
    + rewrite seq_S, sumOver_app. cbn [Nat.add sumOver fold_right].
      rewrite inject_Z_plus.
      apply Qplus_comp; [exact Htotal|].
      eapply Qeq_trans; [apply Qplus_0_r|exact Hterm].
    + change (2 ^ 42)%Z with 4398046511104%Z in *. lia.
Qed.

(** A loop over at most 1024 points with whole coordinates of magnitude at
    most [2 ^ 20] rounds nothing. *)
Lemma whole_coordinates_round_nothing (points : list Point) :
  wholeWithin (2 ^ 20) points ->
  (List.length points <= 1024)%nat ->
  roundingFree points.
Proof.
  intros Hwhole Hshort. unfold roundingFree. apply Forall_forall.
  intros index Hindex. apply in_seq in Hindex. unfold roundsNothingAt.
  destruct (@exactTermAt_whole points index Hwhole)
    as (a1 & b1 & a2 & b2 & Hdifference & Hsum & Hterm & H1 & H2 & H3).
  destruct (@runningTotal_whole points (S index) Hwhole) as (total & Htotal & Hbound).
  cbn zeta in *.
  change (2 ^ 21)%Z with 2097152%Z in *.
  change (2 ^ 42)%Z with 4398046511104%Z in *.
  assert (Hpower : (2 ^ 53 = 9007199254740992)%Z) by reflexivity.
  split; [apply (@exact_of_whole _ _ Hdifference); lia|].
  split; [apply (@exact_of_whole _ _ Hsum); lia|].
  split; [apply (@exact_of_whole _ _ Hterm); lia|].
  apply (@exact_of_whole _ _ Htotal). lia.
Qed.

Lemma wholeWithin_rev (bound : Z) (points : list Point) :
  wholeWithin bound points -> wholeWithin bound (rev points).
Proof. apply Forall_rev. Qed.

(** C6 (amended).  The winding is clockwise exactly when the raw shoelace
    sum, as computed, is positive.  Reversing a point sequence flips the
    reported winding when that sum is not zero and the loop rounds nothing,
    neither on the sequence nor on its reverse; it rounds nothing on at
    most 1024 points with whole coordinates of magnitude at most [2 ^ 20]. *)
Theorem C6_reversal_flips_winding_without_rounding (points : list Point) :
  (direction (Geometry.getWindingOrder points) = Clockwise
   <-> 0 < signedArea (Geometry.getWindingOrder points))
  /\ (roundingFree points ->
      roundingFree (rev points) ->
      ~ signedArea (Geometry.getWindingOrder points) == 0 ->
      reversalFlipsWinding points)
  /\ (wholeWithin (2 ^ 20) points ->
      (List.length points <= 1024)%nat ->
      ~ signedArea (Geometry.getWindingOrder points) == 0 ->
      reversalFlipsWinding points).
Proof.
  assert (Hflips :
            roundingFree points ->
            roundingFree (rev points) ->
            ~ signedArea (Geometry.getWindingOrder points) == 0 ->
            reversalFlipsWinding points).
  { cbn [Geometry.getWindingOrder signedArea]. intros Hfree Hfree' Hnonzero.
    unfold reversalFlipsWinding.
    cbn [Geometry.getWindingOrder direction].
    pose proof (shoelaceSum_exact Hfree) as Hsum.
    pose proof (shoelaceSum_exact Hfree') as Hreversed.
    rewrite shoelaceSum_rev, <- Hsum in Hreversed. clear Hsum Hfree Hfree'.
    destruct (Qgtb (Geometry.shoelaceSum points) 0) eqn:Hpositive;
      destruct (Qgtb (Geometry.shoelaceSum (rev points)) 0) eqn:Hpositive';
      cbn [oppositeDirection]; try reflexivity; exfalso.
    - apply Qgtb_true_iff in Hpositive, Hpositive'.
      rewrite Hreversed in Hpositive'. lra.
    - assert (Hle : Geometry.shoelaceSum points <= 0).
      { apply Qnot_lt_le. intros Hpos. apply Qgtb_true_iff in Hpos.
        congruence. }
      assert (Hge : Geometry.shoelaceSum (rev points) <= 0).
      { apply Qnot_lt_le. intros Hpos. apply Qgtb_true_iff in Hpos.
        congruence. }
      rewrite Hreversed in Hge. apply Hnonzero. lra. }
  split; [apply direction_clockwise_iff|]. split; [exact Hflips|].
  intros Hwhole Hshort. apply Hflips.
  - now apply whole_coordinates_round_nothing.
  - apply whole_coordinates_round_nothing.
    + now apply wholeWithin_rev.
    + now rewrite length_rev.
Qed.

End Winding.

(** *** The ancestor cascade *)

Section Cascade.

Lemma attributeThenStyle_cases (property : string) (current : SvgElement) :
  attributeThenStyle property current
  = if Js.truthy (Dom.getAttribute current property)
    then Dom.getAttribute current property
    else if Js.truthy (Style.getInlineStyleValue current property)
         then Style.getInlineStyleValue current property
         else None.
Proof.
  unfold attributeThenStyle, whenTruthy.
  destruct (Dom.getAttribute current property) as [value|]; cbn [Js.truthy].
  - destruct (negb _); reflexivity.
  - reflexivity.
Qed.

Lemma inheritedFrom_attribute_first (chain : list SvgElement) (property : string) :
  Style.inheritedFrom chain property
  = firstOffer (attributeThenStyle property) (upToRoot chain).
Proof.
  induction chain as [|current above IH]; [reflexivity|].
  cbn [Style.inheritedFrom upToRoot].
  destruct (isSvgTag current); cbn [firstOffer];
    rewrite attributeThenStyle_cases;
    (destruct (Dom.getAttribute current property) as [direct|];
     cbn [Js.truthy]; [destruct (negb (direct =? "")%string); [reflexivity|]|]);
    (destruct (Style.getInlineStyleValue current property) as [inline|];
     cbn [Js.truthy]; [destruct (negb (inline =? "")%string); [reflexivity|]|]);
    first [reflexivity|exact IH].
Qed.

(** With nothing on the node itself, the cascade result is the first offer
    among the ancestors up to the root, each ancestor being asked for its
    direct attribute before its inline style. *)
Lemma getPresentationValue_inherits element context property :
  noOwnValue element context property ->
  Style.getPresentationValue element context property
  = firstOffer (attributeThenStyle property)
               (upToRoot (handles (ancestors element))).
Proof.
  intros (Hstyle & Hattribute & Hclass).
  unfold Style.getPresentationValue. rewrite Hstyle, Hattribute, Hclass.
  cbn [Js.orElse]. apply inheritedFrom_attribute_first.
Qed.

End Cascade.

(** *** Non-rendered containers *)

Section Containers.
Context {ext : Externals}.

Lemma anyNonRendered_of_member chain ancestor :
  In ancestor chain ->
  Convert.isNonRenderedContainer (Js.toLowerCase (Dom.tagName ancestor)) = true ->
  Convert.anyNonRendered chain = true.
Proof.
  induction chain as [|current above IH]; intros Hin Htag; [contradiction|].
  cbn [Convert.anyNonRendered].
  destruct Hin as [Hsame|Hin].
  - subst current. now rewrite Htag.
  - destruct (Convert.isNonRenderedContainer
                (Js.toLowerCase (Dom.tagName current)));
      [reflexivity|now apply IH].
Qed.

(** A node below an element whose lower-cased tag is in the table (for
    instance [defs]) is not selected for conversion. *)
Lemma node_below_listed_container_is_skipped root node ancestor :
  In ancestor (lineage node) ->
  Convert.isNonRenderedContainer (Js.toLowerCase (Dom.tagName ancestor)) = true ->
  ~ In node (Convert.selectedNodes root).
Proof.
  intros Hin Htag Hselected.
  unfold Convert.selectedNodes in Hselected.
  apply filter_In in Hselected. destruct Hselected as [_ Hconvert].
  unfold Convert.shouldConvertNode, Convert.hasNonRenderedAncestor in Hconvert.
  rewrite (anyNonRendered_of_member _ _ Hin Htag) in Hconvert. discriminate.
Qed.

(** No tag name, once lower-cased, equals the table entry [clipPath]. *)
Lemma lowered_tag_is_never_clipPath (tagName : string) :
  Js.toLowerCase tagName <> "clipPath"%string.
Proof.
  intros Heq.
  assert (Hlower : forall s, Js.toLowerCase (Js.toLowerCase s) = Js.toLowerCase s).
  { induction s as [|c rest IHs]; [reflexivity|]. cbn [Js.toLowerCase].
    rewrite IHs. f_equal.
    unfold Js.lowerChar.
    destruct (Nat.leb 65 (nat_of_ascii c) && Nat.leb (nat_of_ascii c) 90) eqn:Hup;
      [|now rewrite Hup].
    apply andb_true_iff in Hup. destruct Hup as [Hlo Hhi].
    apply Nat.leb_le in Hlo, Hhi.
    rewrite nat_ascii_embedding by lia.
    replace (Nat.leb (nat_of_ascii c + 32) 90) with false
      by (symmetry; apply Nat.leb_gt; lia).
    now rewrite andb_false_r. }
  pose proof (Hlower tagName) as Hidem. rewrite Heq in Hidem.
  discriminate Hidem.
Qed.

End Containers.

(** *** The properties on the sample documents *)

Section Scenarios.

#[local] Existing Instance Samples.sampleExternals.



Lemma C5_largest_subpath_is_never_a_hole_witness :
  (exists largest,
      nth_error (Path.markHoleSubpaths Samples.squaresData false) 0
      = Some largest
      /\ PathData.isHole largest = false)
  /\ exists inner,
      nth_error (Path.markHoleSubpaths Samples.squaresData false) 1
      = Some inner
      /\ PathData.isHole inner = true.
Proof.
  split.
  - exists (nth 0 Samples.squaresData Samples.emptyData).
    destruct (@C5_largest_subpath_is_never_a_hole Samples.squaresData
                false 0%nat (nth 0 Samples.squaresData Samples.emptyData))
      as (Hkept & Hunmarked).
    + vm_compute. lia.
    + split; [reflexivity|]. split.
      * intros [|[|j]] t Ht; cbn in Ht.
        -- inversion Ht. vm_compute. intros Hgt. discriminate Hgt.
        -- inversion Ht. vm_compute. intros Hgt. discriminate Hgt.
        -- destruct j; discriminate Ht.
      * intros j t Hj. inversion Hj.
    + split; [exact Hkept|].
      exact (Hunmarked [Samples.outerSquare; rev Samples.innerSquare]
                       Affine.identity eq_refl).
  - eexists; split; vm_compute; reflexivity.
Defined.

Lemma C6_reversal_flips_winding_without_rounding_witness :
  direction (Geometry.getWindingOrder Samples.outerSquare) = CounterClockwise
  /\ direction (Geometry.getWindingOrder (rev Samples.outerSquare)) = Clockwise
  /\ reversalFlipsWinding Samples.innerSquare.
Proof.
  destruct (C6_reversal_flips_winding_without_rounding Samples.outerSquare)
    as (_ & Hflips & _).
  destruct (C6_reversal_flips_winding_without_rounding Samples.innerSquare)
    as (_ & _ & Hwhole).
  split; [vm_compute; reflexivity|]. split.
  - rewrite Hflips.
    + vm_compute. reflexivity.
    + unfold roundingFree.
      change (seq 0 (List.length Samples.outerSquare)) with [0; 1; 2; 3; 4]%nat.
      repeat (constructor; [vm_compute; repeat split; reflexivity|]).
      constructor.
    + unfold roundingFree.
      change (seq 0 (List.length (rev Samples.outerSquare)))
        with [0; 1; 2; 3; 4]%nat.
      repeat (constructor; [vm_compute; repeat split; reflexivity|]).
      constructor.
    + vm_compute. intros Hzero. discriminate Hzero.
  - apply Hwhole.
    + unfold wholeWithin, Samples.innerSquare.
      repeat (apply Forall_cons;
              [eexists; eexists; cbn [fst snd];
               (split; [apply Qeq_refl|]); (split; [apply Qeq_refl|]);
               cbn; lia|]).
      constructor.
    + cbn. lia.
    + vm_compute. intros Hzero. discriminate Hzero.
Defined.

(** C6, as worded, fails on a single segment: its shoelace sum is zero in
    both directions, so both are reported counter-clockwise.  It also fails
    on a thin quadrilateral whose sum is not zero: rounded, the loop finds
    -2 for it and -1 for its reverse, both counter-clockwise. *)
Lemma C6_reversal_as_worded_counterexample :
  ~ reversalFlipsWinding Samples.segment
  /\ ~ signedArea (Geometry.getWindingOrder Samples.sliver) == 0
  /\ ~ signedArea (Geometry.getWindingOrder (rev Samples.sliver)) == 0
  /\ ~ reversalFlipsWinding Samples.sliver.
Proof.
  unfold reversalFlipsWinding.
  repeat split; vm_compute; intros Hsame; discriminate Hsame.
Qed.

Lemma C7_pieces_share_one_group_id_witness :
  (exists groupId,
      Forall (fun e => groupIds (base e) = [groupId])
        (elementsOf
           (fst (Converters.pathConverter Samples.holeLastPath
                   (Samples.emptyContext Samples.holeLastDocument)
                   Convert.createBaseElement 0%nat))))
  /\ Forall (fun e => groupIds (base e) = [])
       (elementsOf
          (fst (Converters.pathConverter Samples.strokedPath
                  (Samples.emptyContext Samples.strokedDocument)
                  Convert.createBaseElement 0%nat))).
Proof.
  split.
  - destruct (@C7_pieces_share_one_group_id Samples.sampleExternals
                Samples.holeLastPath
                (Samples.emptyContext Samples.holeLastDocument)
                Convert.createBaseElement 0%nat) as (Hmany & _ & _).
    apply Hmany. vm_compute. lia.
  - destruct (@C7_pieces_share_one_group_id Samples.sampleExternals
                Samples.strokedPath
                (Samples.emptyContext Samples.strokedDocument)
                Convert.createBaseElement 0%nat) as (_ & Hone & _).
    apply Hone. vm_compute. reflexivity.
Defined.

Lemma C8_non_positive_dimension_yields_nothing_witness :
  fst (Converters.rectConverter Samples.flatRect
         (Samples.emptyContext Samples.brokenDocument)
         Convert.createBaseElement 0%nat) = NoElement
  /\ fst (Converters.circleConverter Samples.flatRect
            (Samples.emptyContext Samples.brokenDocument)
            Convert.createBaseElement 0%nat) = NoElement
  /\ fst (Converters.ellipseConverter Samples.flatRect
            (Samples.emptyContext Samples.brokenDocument)
            Convert.createBaseElement 0%nat) = NoElement.
Proof.
  destruct (@C8_non_positive_dimension_yields_nothing Samples.sampleExternals
              Samples.flatRect (Samples.emptyContext Samples.brokenDocument)
              Convert.createBaseElement 0%nat) as (Hrect & Hcircle & Hellipse).
  split; [|split].
  - apply Hrect. left. vm_compute. intros Hgt. discriminate Hgt.
  - apply Hcircle. vm_compute. intros Hgt. discriminate Hgt.
  - apply Hellipse. left. vm_compute. intros Hgt. discriminate Hgt.
Defined.

Lemma C9_malformed_input_is_recovered_locally_witness :
  Transform.getTransformMatrix Samples.brokenPath = Affine.identity
  /\ Path.convertPathToSubpaths Samples.brokenPath Affine.identity = []
  /\ fst (Convert.convertSvgToExcalidraw Samples.brokenMarkup 0%nat)
     = Returned
         (fst (Convert.convertSvgRoot
                 (mkSvgElement Samples.brokenDocument []) 0%nat)).
Proof.
  destruct (@C9_malformed_input_is_recovered_locally Samples.sampleExternals)
    as (Htransform & Hpath & _ & Hreturns).
  split; [|split].
  - apply Htransform. left. exists "Syntax error"%string. reflexivity.
  - apply (Hpath Samples.brokenPath Affine.identity
                 (Samples.emptyContext Samples.brokenDocument)
                 Convert.createBaseElement 0%nat).
    exists Samples.brokenData, "Bad segment"%string. split; reflexivity.
  - apply Hreturns; [reflexivity|].
    intros node Hselected. vm_compute in Hselected.
    destruct Hselected as [Hnode|[Hnode|[]]]; subst node;
      split; vm_compute; reflexivity.
Defined.

(** C2.  The table spells the clip-path entry [clipPath] while tag names
    are lower-cased before the lookup, so the entry is never hit: the rect
    inside [<clipPath>] passes the filter and is converted, whereas the
    same rect inside [<defs>] is dropped. *)
Theorem C2_rect_inside_clipPath_is_converted :
  map Dom.tagNameOf (ancestors Samples.clippedRect) = ["clipPath"; "svg"]%string
  /\ Convert.hasNonRenderedAncestor Samples.clippedRect = false
  /\ map (fun e => type (base e))
         (elements (fst (Convert.convertSvgRoot
                           (mkSvgElement Samples.clipDocument []) 0%nat)))
     = [RectangleType]
  /\ elements (fst (Convert.convertSvgRoot
                      (mkSvgElement Samples.defsDocument []) 0%nat)) = [].
Proof. repeat split; vm_compute; reflexivity. Qed.

(** C4.  On an ancestor that carries both a direct attribute and an inline
    style value for the property, the code returns the attribute although
    the cascade, as worded, asks the inline style first. *)
Theorem C4_ancestor_attribute_wins_over_inline_style :
  noOwnValue Samples.cascadeRect
    (styleContext (Samples.emptyContext Samples.cascadeDocument)) "fill"
  /\ Style.getPresentationValue Samples.cascadeRect
       (styleContext (Samples.emptyContext Samples.cascadeDocument)) "fill"
     = Some "red"%string
  /\ ancestorCascadeAsWorded Samples.cascadeRect "fill" = Some "blue"%string.
Proof. repeat split; vm_compute; reflexivity. Qed.

End Scenarios.

(** *** A hole that comes first *)

Section FirstHole.

#[local] Existing Instance Figures.figureExternals.

(** C1.  On a filled path under [nonzero] whose small square comes first and
    winds against the large one, the small square is marked a hole and yet
    keeps the resolved fill, and the large square, which is no hole, is
    made transparent: the callback tests the hole flag only in the branch
    that the subpath setting [initialWinding] never takes.  With the
    squares in the other order the hole is transparent, and under
    [evenodd] the very same hole, first as it is, is transparent.  A first
    hole that winds as the large square does keeps the fill as well. *)
Theorem C1_first_closed_hole_keeps_its_fill :
  Converters.ownFillRule Figures.innerFirstPath = "nonzero"%string
  /\ Style.getFillColor Figures.innerFirstPath
       (styleContext (Samples.emptyContext Figures.innerFirstDocument))
     = "#ff0000"%string
  /\ map Subpath.isClosed (Figures.piecesOf Figures.innerFirstPath)
     = [true; true]
  /\ map Subpath.isHole (Figures.piecesOf Figures.innerFirstPath)
     = [true; false]
  /\ map Subpath.windingDirection (Figures.piecesOf Figures.innerFirstPath)
     = [Clockwise; CounterClockwise]
  /\ Figures.fillsOf Figures.innerFirstDocument Figures.innerFirstPath
     = ["#ff0000"; "transparent"]%string
  /\ map Subpath.isHole (Figures.piecesOf Samples.holeLastPath)
     = [false; true]
  /\ Figures.fillsOf Samples.holeLastDocument Samples.holeLastPath
     = ["#ff0000"; "transparent"]%string
  /\ map Subpath.isHole (Figures.piecesOf Figures.innerFirstEvenOddPath)
     = [true; false]
  /\ Figures.fillsOf Figures.innerFirstEvenOddDocument
       Figures.innerFirstEvenOddPath
     = ["transparent"; "#ff0000"]%string
  /\ map Subpath.isHole (Figures.piecesOf Samples.holeFirstPath)
     = [true; false]
  /\ Figures.fillsOf Samples.holeFirstDocument Samples.holeFirstPath
     = ["#ff0000"; "#ff0000"]%string.
Proof. repeat split; vm_compute; reflexivity. Qed.

End FirstHole.

(** *** Further properties of the geometry kernel *)

Section GeometryFacts.

Lemma Qmin_cases (a b : Q) : Qmin a b = a \/ Qmin a b = b.
Proof.
  unfold Qmin, GenericMinMax.gmin. destruct (a ?= b); auto.
Qed.

Lemma Qmax_cases (a b : Q) : Qmax a b = a \/ Qmax a b = b.
Proof.
  unfold Qmax, GenericMinMax.gmax. destruct (a ?= b); auto.
Qed.

(** The loop of the bounding computations, started from a pair. *)
Lemma extent_loop (values : list Q) :
  forall lo hi,
    exists lo' hi',
      fold_left
        (fun acc v =>
           match acc with
           | None => Some (v, v)
           | Some (l, h) => Some (Qmin l v, Qmax h v)
           end) values (Some (lo, hi)) = Some (lo', hi')
      /\ lo' <= lo /\ hi <= hi'
      /\ (forall v, In v values -> lo' <= v /\ v <= hi')
      /\ (lo' = lo \/ In lo' values)
      /\ (hi' = hi \/ In hi' values).
Proof.
  induction values as [|v rest IH]; intros lo hi; cbn [fold_left].
  - exists lo, hi.
    split; [reflexivity|]. split; [apply Qle_refl|]. split; [apply Qle_refl|].
    split; [intros w Hw; destruct Hw|]. split; now left.
  - destruct (IH (Qmin lo v) (Qmax hi v))
      as (lo' & hi' & Hrun & Hlo & Hhi & Hall & Hlo' & Hhi').
    exists lo', hi'. split; [exact Hrun|].
    pose proof (Q.le_min_l lo v) as Hmin1. pose proof (Q.le_min_r lo v) as Hmin2.
    pose proof (Q.le_max_l hi v) as Hmax1. pose proof (Q.le_max_r hi v) as Hmax2.
    split; [lra|]. split; [lra|]. split; [|split].
    + intros w [Hsame|Hin]; [subst w; lra|now apply Hall].
    + destruct Hlo' as [Hsame|Hin]; [|right; now right].
      rewrite Hsame. destruct (Qmin_cases lo v) as [E|E]; rewrite E;
        [now left|right; now left].
    + destruct Hhi' as [Hsame|Hin]; [|right; now right].
      rewrite Hsame. destruct (Qmax_cases hi v) as [E|E]; rewrite E;
        [now left|right; now left].
Qed.

Lemma extent_spec (values : list Q) :
  match Geometry.extent values with
  | None => values = []
  | Some (lo, hi) => values <> [] /\ isExtent values lo hi
  end.
Proof.
  unfold Geometry.extent. destruct values as [|v rest]; [reflexivity|].
  cbn [fold_left].
  destruct (extent_loop rest v v)
    as (lo & hi & Hrun & Hlo & Hhi & Hall & Hlo' & Hhi').
  rewrite Hrun. split; [discriminate|]. split; [|split].
  - intros w [Hsame|Hin]; [subst w; split; assumption|now apply Hall].
  - destruct Hlo' as [Hsame|Hin]; [left; now symmetry|now right].
  - destruct Hhi' as [Hsame|Hin]; [left; now symmetry|now right].
Qed.

(** Two lists whose values correspond up to a shift by [c] have extents that
    differ by [c]. *)
Lemma isExtent_shifted (A B : list Q) (c lo hi lo' hi' : Q) :
  isExtent A lo hi -> isExtent B lo' hi' ->
  (forall a, In a A -> exists b, In b B /\ b == a + c) ->
  (forall b, In b B -> exists a, In a A /\ b == a + c) ->
  lo' == lo + c /\ hi' == hi + c.
Proof.
  intros (HA & HloA & HhiA) (HB & HloB & HhiB) Hto Hfrom.
  destruct (Hto lo HloA) as (b1 & Hb1 & E1).
  destruct (Hto hi HhiA) as (b2 & Hb2 & E2).
  destruct (Hfrom lo' HloB) as (a1 & Ha1 & E3).
  destruct (Hfrom hi' HhiB) as (a2 & Ha2 & E4).
  pose proof (HB b1 Hb1). pose proof (HB b2 Hb2).
  pose proof (HA a1 Ha1). pose proof (HA a2 Ha2).
  split; lra.
Qed.

Lemma extent_map_nonempty (f : Point -> Q) (points : list Point) :
  points <> [] ->
  exists lo hi,
    Geometry.extent (map f points) = Some (lo, hi)
    /\ isExtent (map f points) lo hi.
Proof.
  intros Hnonempty. pose proof (extent_spec (map f points)) as Hspec.
  destruct (Geometry.extent (map f points)) as [[lo hi]|].
  - exists lo, hi. split; [reflexivity|apply Hspec].
  - destruct points; [contradiction|discriminate].
Qed.

(** What [getBoundingBox] and [dimensionsFromPoints] compute, in one
    statement for the proofs below. *)
Lemma getBoundingBox_spec (points : list Point) :
  let box := Geometry.getBoundingBox points in
  Forall (insideBox box) points
  /\ (points <> [] -> touchesBox box points)
  /\ (points = [] -> box = mkBoundingBox 0 0 0 0)
  /\ Geometry.dimensionsFromPoints points
     = (maxX box - minX box, maxY box - minY box)
  /\ 0 <= fst (Geometry.dimensionsFromPoints points)
  /\ 0 <= snd (Geometry.dimensionsFromPoints points).
Proof.
  intros box. subst box. destruct points as [|p rest].
  - cbn. split; [constructor|]. split; [intros Habsurd; now contradiction Habsurd|].
    split; [reflexivity|]. split; [reflexivity|]. split; discriminate.
  - remember (p :: rest) as points eqn:Hpoints.
    assert (Hnonempty : points <> []) by (subst points; discriminate).
    destruct (extent_map_nonempty fst Hnonempty)
      as (loX & hiX & HX & HallX & HloX & HhiX).
    destruct (extent_map_nonempty snd Hnonempty)
      as (loY & hiY & HY & HallY & HloY & HhiY).
    unfold Geometry.getBoundingBox, Geometry.dimensionsFromPoints.
    unfold Point in *. rewrite HX, HY. cbn [minX minY maxX maxY fst snd].
    pose proof (HallX loX HloX) as HrangeX. pose proof (HallY loY HloY) as HrangeY.
    split; [|split; [|split; [|split; [|split]]]].
    + apply Forall_forall. intros q Hq. unfold insideBox.
      cbn [minX minY maxX maxY].
      pose proof (HallX (fst q) (in_map fst _ _ Hq)).
      pose proof (HallY (snd q) (in_map snd _ _ Hq)).
      repeat split; lra.
    + intros _. unfold touchesBox. cbn [minX minY maxX maxY].
      repeat split; assumption.
    + intros Hempty. subst points. discriminate Hempty.
    + reflexivity.
    + lra.
    + lra.
Qed.

(** X1.  The box of a point list contains every point, each border passes
    through a point, and [dimensionsFromPoints] is its width and height,
    neither of them negative.  The box of the empty list is all zeros. *)
Theorem getBoundingBox_encloses (points : list Point) :
  let box := Geometry.getBoundingBox points in
  Forall (insideBox box) points
  /\ (points <> [] -> touchesBox box points)
  /\ (points = [] -> box = mkBoundingBox 0 0 0 0)
  /\ Geometry.dimensionsFromPoints points
     = (maxX box - minX box, maxY box - minY box)
  /\ 0 <= fst (Geometry.dimensionsFromPoints points)
  /\ 0 <= snd (Geometry.dimensionsFromPoints points).
Proof.
  intros box.
  destruct (getBoundingBox_spec points)
    as (Hinside & Htouch & Hempty & Hdims & Hwidth & Hheight).
  split; [exact Hinside|]. split; [exact Htouch|]. split; [exact Hempty|].
  split; [exact Hdims|]. split; [exact Hwidth|exact Hheight].
Qed.

Lemma extent_shifted (A B : list Q) (c : Q) :
  (forall a, In a A -> exists b, In b B /\ b == a + c) ->
  (forall b, In b B -> exists a, In a A /\ b == a + c) ->
  match Geometry.extent A, Geometry.extent B with
  | Some (lo, hi), Some (lo', hi') => lo' == lo + c /\ hi' == hi + c
  | None, None => True
  | _, _ => False
  end.
Proof.
  intros Hto Hfrom.
  pose proof (extent_spec A) as HA. pose proof (extent_spec B) as HB.
  destruct (Geometry.extent A) as [[lo hi]|];
    destruct (Geometry.extent B) as [[lo' hi']|].
  - destruct HA as [_ HA]. destruct HB as [_ HB].
    exact (isExtent_shifted HA HB Hto Hfrom).
  - destruct HA as [_ (_ & Hlo & _)]. subst B.
    destruct (Hto lo Hlo) as (b & [] & _).
  - destruct HB as [_ (_ & Hlo & _)]. subst A.
    destruct (Hfrom lo' Hlo) as (a & [] & _).
  - exact I.
Qed.

(** Two point lists that hold the same points, up to equality of fractions,
    have the same box. *)
Lemma getBoundingBox_same_points (A B : list Point) :
  (forall a, In a A -> exists b, In b B /\ pointEq b a) ->
  (forall b, In b B -> exists a, In a A /\ pointEq b a) ->
  boxEq (Geometry.getBoundingBox B) (Geometry.getBoundingBox A).
Proof.
  intros Hto Hfrom.
  assert (HX : forall f : Point -> Q,
             (forall p q, pointEq p q -> f p == f q) ->
             match Geometry.extent (map f A), Geometry.extent (map f B) with
             | Some (lo, hi), Some (lo', hi') => lo' == lo /\ hi' == hi
             | None, None => True
             | _, _ => False
             end).
  { intros f Hf.
    pose proof (@extent_shifted (map f A) (map f B) 0) as Hshift.
    destruct (Geometry.extent (map f A)) as [[lo hi]|];
      destruct (Geometry.extent (map f B)) as [[lo' hi']|];
      try (assert (Hgoal : lo' == lo + 0 /\ hi' == hi + 0);
           [|destruct Hgoal; split; lra]);
      apply Hshift.
    all: intros v Hv; apply in_map_iff in Hv; destruct Hv as (p & Hp & Hin);
      subst v.
    all: first [destruct (Hto p Hin) as (q & Hq & Heq)
               |destruct (Hfrom p Hin) as (q & Hq & Heq)].
    all: exists (f q); split; [now apply in_map|].
    all: first [rewrite (Hf _ _ Heq); lra
               |rewrite <- (Hf _ _ Heq); lra]. }
  pose proof (HX fst (fun p q H => proj1 H)) as Hfst.
  pose proof (HX snd (fun p q H => proj2 H)) as Hsnd.
  unfold Geometry.getBoundingBox, boxEq. unfold Point in *.
  destruct (Geometry.extent (map fst A)) as [[loXA hiXA]|];
    destruct (Geometry.extent (map fst B)) as [[loXB hiXB]|];
    destruct (Geometry.extent (map snd A)) as [[loYA hiYA]|];
    destruct (Geometry.extent (map snd B)) as [[loYB hiYB]|];
    cbn [minX minY maxX maxY]; try contradiction;
    try (repeat split; lra).
Qed.

End GeometryFacts.

(** *** Further properties of the path decomposer *)

Section SubpathFacts.

Lemma isClosedSubpath_cases (points : list Point) :
  ((List.length points < 2)%nat -> Path.isClosedSubpath points = false)
  /\ ((2 <= List.length points)%nat ->
      pointEq (last points (0, 0)) (hd (0, 0) points) ->
      Path.isClosedSubpath points = true).
Proof.
  unfold Path.isClosedSubpath. split.
  - intros Hshort. apply Nat.ltb_lt in Hshort. now rewrite Hshort.
  - intros Hlong [Hx Hy]. apply Nat.ltb_ge in Hlong. rewrite Hlong.
    unfold Geometry.pointAt. rewrite <- last_as_nth.
    replace (nth 0 points (0, 0)) with (hd (0, 0) points)
      by (destruct points; reflexivity).
    apply Qltb_true_iff.
    set (dx := fst (last points (0, 0)) - fst (hd (0, 0) points)).
    set (dy := snd (last points (0, 0)) - snd (hd (0, 0) points)).
    assert (Hdx : dx == 0) by (subst dx; lra).
    assert (Hdy : dy == 0) by (subst dy; lra).
    rewrite Hdx, Hdy. reflexivity.
Qed.

(** X5.  A sequence of fewer than two points is never closed; a longer one whose
    last point is its first point is closed. *)
Theorem isClosedSubpath_of_loop (points : list Point) :
  ((List.length points < 2)%nat -> Path.isClosedSubpath points = false)
  /\ ((2 <= List.length points)%nat ->
      pointEq (last points (0, 0)) (hd (0, 0) points) ->
      Path.isClosedSubpath points = true).
Proof.
  destruct (isClosedSubpath_cases points) as (Hshort & Hloop).
  split; [exact Hshort|exact Hloop].
Qed.

End SubpathFacts.

Section ContainmentFacts.

Lemma isContainedIn_proper (a b : BoundingBox) :
  minX a <= maxX a -> minY a <= maxY a ->
  Geometry.isContainedIn a b = true ->
  Geometry.isContainedIn b a = false.
Proof.
  intros HaX HaY Hab. unfold Geometry.isContainedIn in *.
  apply andb_true_iff in Hab. destruct Hab as [_ Hsmaller].
  apply Qltb_true_iff in Hsmaller.
  apply andb_false_iff. right. apply Qltb_false_iff.
  assert (Harea : 0 <= (maxX a - minX a) * (maxY a - minY a))
    by (apply Qmult_le_0_compat; lra).
  set (areaA := (maxX a - minX a) * (maxY a - minY a)) in *.
  set (areaB := (maxX b - minX b) * (maxY b - minY b)) in *.
  lra.
Qed.

(** X6.  The containment test on the boxes of two point lists never holds in
    both directions, and no box is contained in itself. *)
Theorem isContainedIn_is_one_way (A B : list Point) :
  Geometry.isContainedIn (Geometry.getBoundingBox A) (Geometry.getBoundingBox B)
  && Geometry.isContainedIn (Geometry.getBoundingBox B) (Geometry.getBoundingBox A)
  = false
  /\ Geometry.isContainedIn (Geometry.getBoundingBox A)
                            (Geometry.getBoundingBox A) = false.
Proof.
  assert (Hproper : forall points,
             minX (Geometry.getBoundingBox points)
             <= maxX (Geometry.getBoundingBox points)
             /\ minY (Geometry.getBoundingBox points)
                <= maxY (Geometry.getBoundingBox points)).
  { intros points.
    pose proof (getBoundingBox_spec points)
      as (_ & _ & _ & Hdims & HnonnegX & HnonnegY).
    rewrite Hdims in HnonnegX, HnonnegY. cbn [fst snd] in *. split; lra. }
  destruct (Hproper A) as [HAX HAY].
  split.
  - destruct (Geometry.isContainedIn (Geometry.getBoundingBox A)
                                    (Geometry.getBoundingBox B)) eqn:Hab;
      [|reflexivity].
    cbn [andb]. now apply isContainedIn_proper.
  - destruct (Geometry.isContainedIn (Geometry.getBoundingBox A)
                                    (Geometry.getBoundingBox A)) eqn:Haa;
      [|reflexivity].
    pose proof (isContainedIn_proper _ _ HAX HAY Haa). congruence.
Qed.

End ContainmentFacts.

(** *** Further properties of [buildSubpathData] and [markHoleSubpaths] *)

Section HoleFacts.

Lemma buildSubpathDataFrom_members pathPoints matrix :
  forall start d,
    In d (Path.buildSubpathDataFrom start pathPoints matrix)
    <-> exists i subpath,
        nth_error pathPoints i = Some subpath
        /\ (2 <= List.length subpath)%nat
        /\ d = Path.subpathData (start + Z.of_nat i) subpath matrix.
Proof.
  induction pathPoints as [|first rest IH]; intros start d;
    cbn [Path.buildSubpathDataFrom].
  - split; [intros []|]. intros (i & subpath & Hnth & _). destruct i; discriminate.
  - assert (Hrest :
              In d (Path.buildSubpathDataFrom (start + 1) rest matrix)
              <-> exists i subpath,
                  nth_error (first :: rest) (S i) = Some subpath
                  /\ (2 <= List.length subpath)%nat
                  /\ d = Path.subpathData (start + Z.of_nat (S i)) subpath matrix).
    { rewrite IH. split; intros (i & subpath & Hnth & Hlong & Hd);
        exists i, subpath; (split; [exact Hnth|]); (split; [exact Hlong|]);
        rewrite Hd; f_equal; lia. }
    destruct (Nat.ltb (List.length first) 2) eqn:Hshort.
    + rewrite Hrest. apply Nat.ltb_lt in Hshort. split.
      * intros (i & subpath & H). now exists (S i), subpath.
      * intros ([|i] & subpath & Hnth & Hlong & Hd).
        -- cbn in Hnth. inversion Hnth; subst. lia.
        -- now exists i, subpath.
    + apply Nat.ltb_ge in Hshort. cbn [In]. rewrite Hrest. split.
      * intros [Hhead|(i & subpath & H)].
        -- exists 0%nat, first. split; [reflexivity|]. split; [exact Hshort|].
           rewrite <- Hhead. f_equal. cbn. lia.
        -- now exists (S i), subpath.
      * intros ([|i] & subpath & Hnth & Hlong & Hd).
        -- left. cbn in Hnth. inversion Hnth; subst. f_equal. cbn. lia.
        -- right. now exists i, subpath.
Qed.

Lemma buildSubpathDataFrom_ascending pathPoints matrix :
  forall start i j a b,
    (i < j)%nat ->
    nth_error (Path.buildSubpathDataFrom start pathPoints matrix) i = Some a ->
    nth_error (Path.buildSubpathDataFrom start pathPoints matrix) j = Some b ->
    (start <= PathData.index a < PathData.index b)%Z.
Proof.
  induction pathPoints as [|first rest IH]; intros start i j a b Hlt Ha Hb;
    cbn [Path.buildSubpathDataFrom] in *.
  - destruct i; discriminate.
  - destruct (Nat.ltb (List.length first) 2).
    + specialize (IH (start + 1)%Z i j a b Hlt Ha Hb). lia.
    + destruct j as [|j]; [lia|]. cbn [nth_error] in Hb.
      destruct i as [|i]; cbn [nth_error] in Ha.
      * inversion Ha; subst a. cbn [Path.subpathData PathData.index].
        apply nth_error_In in Hb. apply buildSubpathDataFrom_members in Hb.
        destruct Hb as (k & subpath & _ & _ & Hb). subst b.
        cbn [Path.subpathData PathData.index]. lia.
      * assert (Hlt' : (i < j)%nat) by lia.
        specialize (IH (start + 1)%Z i j a b Hlt' Ha Hb). lia.
Qed.

(** X7.  [buildSubpathData] keeps exactly the flattened subpaths of at least two
    points, each described by [subpathData] under its position in the
    input, and lists them by ascending position. *)
Theorem buildSubpathData_keeps_long_subpaths
        (pathPoints : list (list Point)) (matrix : Matrix) :
  let built := Path.buildSubpathData pathPoints matrix in
  (forall d,
      In d built
      <-> exists i subpath,
          nth_error pathPoints i = Some subpath
          /\ (2 <= List.length subpath)%nat
          /\ d = Path.subpathData (Z.of_nat i) subpath matrix)
  /\ (forall i j a b,
         (i < j)%nat -> nth_error built i = Some a -> nth_error built j = Some b ->
         (PathData.index a < PathData.index b)%Z)
  /\ Forall (fun d => PathData.isHole d = false) built.
Proof.
  intros built. subst built. unfold Path.buildSubpathData.
  split; [|split].
  - intros d. rewrite buildSubpathDataFrom_members. reflexivity.
  - intros i j a b Hlt Ha Hb.
    pose proof (buildSubpathDataFrom_ascending _ _ _ Hlt Ha Hb). lia.
  - apply buildSubpathDataFrom_unmarked.
Qed.

Lemma scanContainers_found useEvenOdd largest subpath candidates :
  Path.scanContainers useEvenOdd largest subpath candidates = true ->
  exists container,
    In container candidates
    /\ PathData.index container <> PathData.index subpath
    /\ Path.holdsAsHoleOf useEvenOdd largest subpath container = true.
Proof.
  induction candidates as [|c rest IH]; cbn [Path.scanContainers];
    [discriminate|].
  destruct (Z.eqb (PathData.index c) (PathData.index subpath)) eqn:Hsame.
  - intros Hscan. destruct (IH Hscan) as (container & Hin & H).
    exists container. split; [now right|exact H].
  - destruct (Path.holdsAsHoleOf useEvenOdd largest subpath c) eqn:Hholds.
    + intros _. exists c. split; [now left|]. split; [|exact Hholds].
      now apply Z.eqb_neq.
    + intros Hscan. destruct (IH Hscan) as (container & Hin & H).
      exists container. split; [now right|exact H].
Qed.

Lemma scanContainers_evenodd largest subpath candidates :
  Path.scanContainers false largest subpath candidates = true ->
  Path.scanContainers true largest subpath candidates = true.
Proof.
  induction candidates as [|c rest IH]; cbn [Path.scanContainers];
    [discriminate|].
  destruct (Z.eqb (PathData.index c) (PathData.index subpath)); [exact IH|].
  unfold Path.holdsAsHoleOf at 2. cbn [orb]. rewrite andb_true_r.
  destruct (Path.holdsAsHoleOf false largest subpath c) eqn:Hholds.
  - intros _. unfold Path.holdsAsHoleOf in Hholds.
    apply andb_true_iff in Hholds. destruct Hholds as [Hgeometry _].
    now rewrite Hgeometry.
  - intros Hscan. rewrite (IH Hscan). now destruct (_ && _).
Qed.

Lemma markHoleSubpaths_nth subpaths useEvenOdd i a :
  nth_error subpaths i = Some a ->
  nth_error (Path.markHoleSubpaths subpaths useEvenOdd) i
  = Some
      (if (List.length subpaths <? 2)%nat then a
       else if (PathData.index a =? Path.largestIndex subpaths)%Z then a
       else if Path.scanContainers useEvenOdd (Path.largestIndex subpaths)
                 a subpaths
       then PathData.markHole a
       else a).
Proof.
  intros Hnth. unfold Path.markHoleSubpaths.
  destruct (Nat.ltb _ _); [exact Hnth|].
  rewrite nth_error_map, Hnth. reflexivity.
Qed.

Lemma markHoleSubpaths_flags
        (subpaths : list PathSubpathData) (useEvenOdd : bool) :
  List.length (Path.markHoleSubpaths subpaths useEvenOdd)
  = List.length subpaths
  /\ (forall i a,
         nth_error subpaths i = Some a ->
         exists b,
           nth_error (Path.markHoleSubpaths subpaths useEvenOdd) i = Some b
           /\ (b = a \/ b = PathData.markHole a))
  /\ ((List.length subpaths < 2)%nat ->
      Path.markHoleSubpaths subpaths useEvenOdd = subpaths).
Proof.
  split; [|split].
  - unfold Path.markHoleSubpaths. destruct (Nat.ltb _ _); [reflexivity|].
    apply length_map.
  - intros i a Hnth. rewrite (markHoleSubpaths_nth _ _ _ Hnth).
    eexists. split; [reflexivity|].
    destruct (Nat.ltb _ _); [now left|].
    destruct (Z.eqb _ _); [now left|].
    destruct (Path.scanContainers _ _ _ _); [now right|now left].
  - intros Hshort. apply Nat.ltb_lt in Hshort.
    unfold Path.markHoleSubpaths. now rewrite Hshort.
Qed.

(** X9.  A subpath whose record the classification changes has, among the other
    subpaths, one of strictly larger area against whose box its box passes
    the test of [isContainedIn]: center within that box widened by 2, box
    area below nine tenths of that box's.  The boxes may cross all the same.
    A subpath none of the others exceeds in area is never changed. *)
Theorem marked_hole_has_a_larger_container
        (subpaths : list PathSubpathData) (useEvenOdd : bool)
        (i : nat) (a b : PathSubpathData) :
  nth_error subpaths i = Some a ->
  nth_error (Path.markHoleSubpaths subpaths useEvenOdd) i = Some b ->
  (b <> a ->
   exists container,
     In container subpaths
     /\ PathData.index container <> PathData.index a
     /\ PathData.area a < PathData.area container
     /\ Geometry.isContainedIn (PathData.bbox a) (PathData.bbox container)
        = true)
  /\ ((forall other, In other subpaths ->
                     PathData.area other <= PathData.area a) ->
      b = a).
Proof.
  intros Ha Hb. rewrite (markHoleSubpaths_nth _ _ _ Ha) in Hb.
  assert (Hresult :
            b = if (List.length subpaths <? 2)%nat then a
                else if (PathData.index a =? Path.largestIndex subpaths)%Z then a
                else if Path.scanContainers useEvenOdd
                          (Path.largestIndex subpaths) a subpaths
                then PathData.markHole a
                else a) by congruence.
  clear Hb.
  assert (Hfound :
            b <> a ->
            exists container,
              In container subpaths
              /\ PathData.index container <> PathData.index a
              /\ PathData.area a < PathData.area container
              /\ Geometry.isContainedIn (PathData.bbox a)
                                        (PathData.bbox container) = true).
  { intros Hchanged.
    destruct (Nat.ltb _ _); [congruence|].
    destruct (Z.eqb _ _); [congruence|].
    destruct (Path.scanContainers useEvenOdd (Path.largestIndex subpaths)
                                  a subpaths) eqn:Hscan; [|congruence].
    destruct (scanContainers_found _ _ _ _ Hscan)
      as (container & Hin & Hother & Hholds).
    exists container. split; [exact Hin|]. split; [exact Hother|].
    unfold Path.holdsAsHoleOf in Hholds.
    apply andb_true_iff in Hholds. destruct Hholds as [Hholds _].
    apply andb_true_iff in Hholds. destruct Hholds as [Hcontained Hsmaller].
    split; [now apply Qltb_true_iff|exact Hcontained]. }
  split; [exact Hfound|].
  intros Hlargest. rewrite Hresult. clear Hfound Hresult.
  destruct (Nat.ltb _ _); [reflexivity|].
  destruct (Z.eqb _ _); [reflexivity|].
  destruct (Path.scanContainers useEvenOdd (Path.largestIndex subpaths)
                                a subpaths) eqn:Hscan; [|reflexivity].
  exfalso.
  destruct (scanContainers_found _ _ _ _ Hscan)
    as (container & Hin & _ & Hholds).
  unfold Path.holdsAsHoleOf in Hholds.
  apply andb_true_iff in Hholds. destruct Hholds as [Hholds _].
  apply andb_true_iff in Hholds. destruct Hholds as [_ Hsmaller].
  apply Qltb_true_iff in Hsmaller.
  pose proof (Hlargest container Hin). lra.
Qed.

(** X10.  Every subpath that is a hole after the classification under nonzero is
    one after the classification under evenodd. *)
Theorem evenodd_marks_every_nonzero_hole
        (subpaths : list PathSubpathData) (i : nat)
        (a b : PathSubpathData) :
  nth_error (Path.markHoleSubpaths subpaths false) i = Some a ->
  nth_error (Path.markHoleSubpaths subpaths true) i = Some b ->
  PathData.isHole a = true ->
  PathData.isHole b = true.
Proof.
  intros Ha Hb Hflag.
  destruct (nth_error subpaths i) as [s|] eqn:Hs.
  - rewrite (@markHoleSubpaths_nth subpaths false i s Hs) in Ha.
    rewrite (@markHoleSubpaths_nth subpaths true i s Hs) in Hb.
    destruct (Nat.ltb _ _); [congruence|].
    destruct (Z.eqb _ _); [congruence|].
    destruct (Path.scanContainers false (Path.largestIndex subpaths) s subpaths)
      eqn:Hscan.
    + rewrite (scanContainers_evenodd _ _ _ Hscan) in Hb.
      inversion Hb. reflexivity.
    + destruct (Path.scanContainers true _ _ _);
        inversion Hb; inversion Ha; subst; [reflexivity|exact Hflag].
  - exfalso. apply nth_error_None in Hs.
    assert (Hlen : (i < List.length (Path.markHoleSubpaths subpaths false))%nat)
      by (apply nth_error_Some; congruence).
    destruct (markHoleSubpaths_flags subpaths false) as (Hsame & _).
    lia.
Qed.

End HoleFacts.

(** *** Further properties of the transform resolver *)

Section TransformFacts.
Context {ext : Externals}.

Lemma pointEq_refl (p : Point) : pointEq p p.
Proof. split; reflexivity. Qed.

Lemma pointEq_trans (p q r : Point) : pointEq p q -> pointEq q r -> pointEq p r.
Proof. intros [Hx Hy] [Hx' Hy']. split; etransitivity; eassumption. Qed.

Lemma applyToPoint_multiply (m1 m2 : Matrix) (p : Point) :
  pointEq (Affine.applyToPoint (Affine.multiply m1 m2) p)
          (Affine.applyToPoint m1 (Affine.applyToPoint m2 p)).
Proof.
  unfold Affine.applyToPoint, Affine.multiply, pointEq.
  cbn [ma mb mc md me mf fst snd]. split; ring.
Qed.

Lemma applyToPoint_identity (p : Point) :
  pointEq (Affine.applyToPoint Affine.identity p) p.
Proof.
  unfold Affine.applyToPoint, Affine.identity, pointEq.
  cbn [ma mb mc md me mf fst snd]. split; ring.
Qed.

Lemma applyToPoint_compose (first : Matrix) (others : list Matrix) (p : Point) :
  pointEq (Affine.applyToPoint (Affine.compose first others) p)
          (applyAll (first :: others) p).
Proof.
  unfold Affine.compose, applyAll. revert first.
  induction others as [|m rest IH]; intros first; cbn [fold_left fold_right].
  - apply pointEq_refl.
  - eapply pointEq_trans; [apply IH|]. cbn [fold_right].
    apply applyToPoint_multiply.
Qed.

Lemma collectTransforms_below (chain : list SvgElement) :
  forall matrices,
    Transform.collectTransforms chain matrices
    = (rev (map Transform.getTransformMatrix (belowRoot chain)) ++ matrices)%list.
Proof.
  induction chain as [|current above IH]; intros matrices;
    cbn [Transform.collectTransforms belowRoot]; [reflexivity|].
  destruct (isSvgTag current); [reflexivity|].
  rewrite IH. cbn [map rev]. now rewrite <- app_assoc.
Qed.

Lemma applyAll_identity_default (matrices : list Matrix) (p : Point) :
  pointEq
    (Affine.applyToPoint
       match matrices with
       | [] => Affine.identity
       | first :: others => Affine.compose first others
       end p)
    (applyAll matrices p).
Proof.
  destruct matrices as [|first others].
  - apply applyToPoint_identity.
  - apply applyToPoint_compose.
Qed.

Lemma accumulated_as_fold (element : SvgElement) (p : Point) :
  pointEq
    (Transform.transformPoint p (Transform.getAccumulatedTransform element))
    (fold_left
       (fun q current =>
          Transform.transformPoint q (Transform.getTransformMatrix current))
       (belowRoot (lineage element)) p).
Proof.
  unfold Transform.getAccumulatedTransform, Transform.transformPoint.
  rewrite collectTransforms_below, app_nil_r.
  eapply pointEq_trans; [apply applyAll_identity_default|].
  unfold applyAll. rewrite fold_left_rev_right.
  generalize (belowRoot (lineage element)) as chain. intros chain. revert p.
  induction chain as [|current above IH]; intros p; cbn [map fold_left].
  - apply pointEq_refl.
  - apply IH.
Qed.

Lemma fold_identity_transforms (chain : list SvgElement) :
  Forall transformAbsentOrMalformed chain ->
  forall p q,
    pointEq p q ->
    pointEq
      (fold_left
         (fun r current =>
            Transform.transformPoint r (Transform.getTransformMatrix current))
         chain p) q.
Proof.
  induction 1 as [|current above Hcurrent _ IH]; intros p q Hpq;
    cbn [fold_left]; [exact Hpq|].
  apply IH. rewrite (getTransformMatrix_recovers _ Hcurrent).
  unfold Transform.transformPoint.
  eapply pointEq_trans; [apply applyToPoint_identity|exact Hpq].
Qed.

Lemma undeclared_transform_fixes_points
      (element : SvgElement) (points : list Point) :
  Forall transformAbsentOrMalformed (belowRoot (lineage element)) ->
  Forall2 pointEq
    (Transform.transformPoints points
       (Transform.getAccumulatedTransform element))
    points.
Proof.
  intros Hnone. unfold Transform.transformPoints.
  induction points as [|p rest IH]; cbn [map]; constructor; [|exact IH].
  eapply pointEq_trans; [apply accumulated_as_fold|].
  apply (fold_identity_transforms Hnone). apply pointEq_refl.
Qed.

End TransformFacts.

(** *** Further properties of the style resolver *)

Section StyleFacts.

Lemma nonEmpty_true_iff (s : string) : nonEmpty s = true <-> s <> ""%string.
Proof.
  unfold nonEmpty. rewrite negb_true_iff. apply String.eqb_neq.
Qed.

Lemma truthy_neverEmpty (value : option string) :
  neverEmpty (if Js.truthy value then value else None).
Proof.
  unfold neverEmpty. destruct value as [s|]; cbn [Js.truthy]; [|discriminate].
  destruct (s =? "")%string eqn:Hs; cbn [negb]; [discriminate|].
  apply String.eqb_neq in Hs. congruence.
Qed.

Lemma get_valuesNonEmpty (m : Js.Map string) (key : string) :
  valuesNonEmpty m -> neverEmpty (Js.get m key).
Proof.
  unfold valuesNonEmpty, neverEmpty.
  induction 1 as [|[k v] rest Hentry _ IH]; cbn [Js.get]; [discriminate|].
  destruct (k =? key)%string; [|exact IH].
  cbn [snd] in Hentry. apply nonEmpty_true_iff in Hentry. congruence.
Qed.

Lemma set_valuesNonEmpty (m : Js.Map string) (key value : string) :
  valuesNonEmpty m -> nonEmpty value = true ->
  valuesNonEmpty (Js.set m key value).
Proof.
  unfold valuesNonEmpty. intros Hm Hvalue.
  induction Hm as [|[k v] rest Hentry Hrest IH]; cbn [Js.set].
  - constructor; [exact Hvalue|constructor].
  - destruct (k =? key)%string; constructor; assumption.
Qed.

Lemma parseCssDeclarations_valuesNonEmpty (cssText : string) :
  valuesNonEmpty (Style.parseCssDeclarations cssText).
Proof.
  unfold Style.parseCssDeclarations.
  assert (Hloop : forall declarations start,
             valuesNonEmpty start ->
             valuesNonEmpty
               (fold_left
                  (fun declarations declaration =>
                     match Js.indexOf ":" declaration with
                     | None => declarations
                     | Some separatorIndex =>
                         let property :=
                           Js.toLowerCase
                             (Js.trim (Js.sliceTo separatorIndex declaration)) in
                         let value :=
                           Js.trim (Js.sliceFrom (S separatorIndex) declaration) in
                         if nonEmpty property && nonEmpty value
                         then Js.set declarations property value
                         else declarations
                     end) declarations start)).
  { induction declarations as [|declaration rest IH]; intros start Hstart;
      cbn [fold_left]; [exact Hstart|].
    apply IH. destruct (Js.indexOf ":" declaration) as [i|]; [|exact Hstart].
    cbn zeta.
    destruct (nonEmpty _ && nonEmpty _) eqn:Hboth; [|exact Hstart].
    apply andb_true_iff in Hboth. destruct Hboth as [_ Hvalue].
    now apply set_valuesNonEmpty. }
  apply Hloop. constructor.
Qed.

Lemma getInlineStyleValue_neverEmpty element property :
  neverEmpty (Style.getInlineStyleValue element property).
Proof.
  unfold Style.getInlineStyleValue.
  destruct (Dom.getAttribute element "style") as [styleAttr|]; [|discriminate].
  destruct (nonEmpty styleAttr); [|discriminate].
  apply get_valuesNonEmpty, parseCssDeclarations_valuesNonEmpty.
Qed.

Lemma getClassStyleValue_neverEmpty element context property :
  neverEmpty (Style.getClassStyleValue element context property).
Proof.
  unfold Style.getClassStyleValue.
  destruct (Dom.getAttribute element "class") as [classNameAttr|];
    [|discriminate].
  destruct (nonEmpty classNameAttr); [|discriminate].
  induction (Js.words classNameAttr) as [|className rest IH];
    cbn [Style.firstClassValue]; [discriminate|].
  match goal with
  | |- neverEmpty (if Js.truthy ?v then ?v else _) =>
      pose proof (truthy_neverEmpty v) as Hv; destruct (Js.truthy v);
      [exact Hv|exact IH]
  end.
Qed.

Lemma getInheritedPresentationValue_neverEmpty element property :
  neverEmpty (Style.getInheritedPresentationValue element property).
Proof.
  unfold Style.getInheritedPresentationValue.
  induction (handles (ancestors element)) as [|current above IH];
    cbn [Style.inheritedFrom]; [discriminate|].
  pose proof (truthy_neverEmpty (Dom.getAttribute current property)) as Hdirect.
  destruct (Js.truthy (Dom.getAttribute current property)); [exact Hdirect|].
  pose proof (truthy_neverEmpty (Style.getInlineStyleValue current property))
    as Hinline.
  destruct (Js.truthy (Style.getInlineStyleValue current property));
    [exact Hinline|].
  destruct (isSvgTag current); [discriminate|exact IH].
Qed.

(** X12.  Inline style, class rules and inheritance never answer with the empty
    string; the cascade does so exactly when the element's own attribute is
    empty and its inline style is silent, and then neither the class rules
    nor the ancestors are asked. *)
Theorem empty_value_comes_only_from_own_attribute
        (element : SvgElement) (context : StyleContext) (property : string) :
  neverEmpty (Style.getInlineStyleValue element property)
  /\ neverEmpty (Style.getClassStyleValue element context property)
  /\ neverEmpty (Style.getInheritedPresentationValue element property)
  /\ (Style.getPresentationValue element context property = Some ""%string
      <-> Style.getInlineStyleValue element property = None
          /\ Dom.getAttribute element property = Some ""%string).
Proof.
  pose proof (getInlineStyleValue_neverEmpty element property) as Hinline.
  pose proof (getClassStyleValue_neverEmpty element context property) as Hclass.
  pose proof (getInheritedPresentationValue_neverEmpty element property)
    as Hinherited.
  split; [exact Hinline|]. split; [exact Hclass|]. split; [exact Hinherited|].
  unfold Style.getPresentationValue, neverEmpty in *.
  destruct (Style.getInlineStyleValue element property) as [inline|];
    cbn [Js.orElse].
  - split; [congruence|]. intros [Habsurd _]. discriminate.
  - destruct (Dom.getAttribute element property) as [direct|]; cbn [Js.orElse].
    + split; [intros H; split; [reflexivity|exact H]|intros [_ H]; exact H].
    + destruct (Style.getClassStyleValue element context property) as [cls|];
        cbn [Js.orElse]; split; try congruence; intros [_ Habsurd];
        discriminate.
Qed.

End StyleFacts.

Section ColorFacts.
Context {ext : Externals}.

Lemma getPresentationValue_undeclared element context property :
  undeclared element context property ->
  Style.getPresentationValue element context property = None.
Proof.
  intros [Hown Hancestors].
  rewrite (getPresentationValue_inherits Hown).
  induction Hancestors as [|current above Hcurrent _ IH]; cbn [firstOffer];
    [reflexivity|].
  now rewrite Hcurrent.
Qed.

(** X13.  A node about which nothing is declared, on itself, by a class rule or
    on any ancestor up to the root, is filled black, has a transparent
    stroke, and numeric properties take the caller's default. *)
Theorem undeclared_properties_take_defaults
        (element : SvgElement) (context : StyleContext) :
  (undeclared element context "fill" ->
   Style.getFillColor element context = "#000000"%string)
  /\ (undeclared element context "stroke" ->
      Style.getStrokeColor element context = "transparent"%string)
  /\ (forall property fallback,
         undeclared element context property ->
         Style.getNumericPresentationValue element context property fallback
         = fallback).
Proof.
  split; [|split].
  - intros Hnone. unfold Style.getFillColor.
    rewrite (getPresentationValue_undeclared Hnone).
    destruct Hnone as [(_ & _ & Hclass) _]. rewrite Hclass. reflexivity.
  - intros Hnone. unfold Style.getStrokeColor.
    rewrite (getPresentationValue_undeclared Hnone).
    destruct Hnone as [(_ & _ & Hclass) _]. rewrite Hclass. reflexivity.
  - intros property fallback Hnone. unfold Style.getNumericPresentationValue.
    rewrite (getPresentationValue_undeclared Hnone). reflexivity.
Qed.

Lemma firstStopColor_neverEmpty (stopElements : list SvgElement) :
  neverEmpty (Style.firstStopColor stopElements).
Proof.
  induction stopElements as [|stopElement rest IH];
    cbn [Style.firstStopColor]; [discriminate|].
  match goal with
  | |- neverEmpty (if Js.truthy ?v then ?v else _) =>
      pose proof (truthy_neverEmpty v) as Hv; destruct (Js.truthy v);
      [exact Hv|exact IH]
  end.
Qed.

Lemma normalizeSvgColor_nonEmpty color fallback root :
  fallback <> ""%string ->
  Style.normalizeSvgColor color fallback root <> ""%string.
Proof.
  intros Hfallback. unfold Style.normalizeSvgColor.
  destruct color as [value|]; [|exact Hfallback].
  destruct (negb (nonEmpty value)); [exact Hfallback|].
  destruct (negb (nonEmpty (Js.trim value))) eqn:Htrimmed; [exact Hfallback|].
  destruct (Js.trim value =? "none")%string; [discriminate|].
  destruct (Js.startsWith (Js.trim value) "url(").
  - destruct (Style.resolveGradientUrl (Js.trim value) root) as [resolved|] eqn:Hg;
      [|exact Hfallback].
    unfold Style.resolveGradientUrl in Hg.
    destruct (negb (Js.startsWith (Js.trim value) "url(")); [discriminate|].
    destruct (matchGradientId (Js.trim value)) as [gradientId|]; [|discriminate].
    destruct (negb (nonEmpty gradientId)); [discriminate|].
    destruct (querySelectorHash root gradientId) as [[gradientElement|]|];
      [|discriminate|discriminate].
    pose proof (firstStopColor_neverEmpty
                  (Dom.querySelectorAll gradientElement ["stop"%string])) as Hstop.
    unfold neverEmpty in Hstop. congruence.
  - apply negb_false_iff in Htrimmed. now apply nonEmpty_true_iff.
Qed.

(** X14.  The resolved fill and stroke colors are never the empty string, and a
    fill or stroke whose cascade value, trimmed, is the keyword [none]
    resolves to transparent when no class rule of the element names the
    property. *)
Theorem resolved_colors_are_never_empty
        (element : SvgElement) (context : StyleContext) :
  Style.getFillColor element context <> ""%string
  /\ Style.getStrokeColor element context <> ""%string
  /\ (forall value,
         Style.getPresentationValue element context "fill" = Some value ->
         Js.trim value = "none"%string ->
         Style.getClassStyleValue element context "fill" = None ->
         Style.getFillColor element context = "transparent"%string)
  /\ (forall value,
         Style.getPresentationValue element context "stroke" = Some value ->
         Js.trim value = "none"%string ->
         Style.getClassStyleValue element context "stroke" = None ->
         Style.getStrokeColor element context = "transparent"%string).
Proof.
  split; [apply normalizeSvgColor_nonEmpty; discriminate|].
  split; [apply normalizeSvgColor_nonEmpty; discriminate|].
  assert (Hnone : forall value fallback root,
             Js.trim value = "none"%string ->
             Style.normalizeSvgColor (Some value) fallback root
             = "transparent"%string).
  { intros value fallback root Htrim. unfold Style.normalizeSvgColor.
    destruct (nonEmpty value) eqn:Hvalue; cbn [negb].
    - rewrite Htrim. reflexivity.
    - unfold nonEmpty in Hvalue. apply negb_false_iff in Hvalue.
      apply String.eqb_eq in Hvalue. subst value. discriminate Htrim. }
  split.
  - intros value Hvalue Htrim Hclass. unfold Style.getFillColor.
    rewrite Hvalue, Hclass. cbn [Js.orElse].
    destruct (Style.missingOrNone (Some value)); now apply Hnone.
  - intros value Hvalue Htrim Hclass. unfold Style.getStrokeColor.
    rewrite Hvalue, Hclass. cbn [Js.orElse].
    destruct (Style.missingOrNone (Some value)); now apply Hnone.
Qed.

End ColorFacts.

Section FillRuleFacts.

Lemma inheritedFillRule_offers (chain : list SvgElement) :
  Path.inheritedFillRule chain
  = optionOr (firstOffer fillRuleOffer (upToRoot chain)) "nonzero"%string.
Proof.
  induction chain as [|current above IH];
    cbn [Path.inheritedFillRule upToRoot]; [reflexivity|].
  unfold fillRuleOffer at 1. unfold whenTruthy.
  destruct (Dom.getAttribute current "fill-rule") as [rule|] eqn:Hrule;
    cbn [Js.truthy].
  - destruct (negb (rule =? "")%string) eqn:Htruthy.
    + destruct (isSvgTag current); cbn [firstOffer]; unfold fillRuleOffer,
        whenTruthy; rewrite Hrule; cbn [Js.truthy]; rewrite Htruthy;
        reflexivity.
    + destruct (isSvgTag current); cbn [firstOffer]; unfold fillRuleOffer,
        whenTruthy; rewrite Hrule; cbn [Js.truthy]; rewrite Htruthy;
        [reflexivity|exact IH].
  - destruct (isSvgTag current); cbn [firstOffer]; unfold fillRuleOffer,
      whenTruthy; rewrite Hrule; cbn [Js.truthy]; [reflexivity|exact IH].
Qed.

Lemma firstOffer_fillRule_neverEmpty (chain : list SvgElement) :
  neverEmpty (firstOffer fillRuleOffer chain).
Proof.
  induction chain as [|current above IH]; cbn [firstOffer]; [discriminate|].
  pose proof (truthy_neverEmpty (Dom.getAttribute current "fill-rule")) as Hv.
  unfold fillRuleOffer, whenTruthy.
  destruct (Js.truthy (Dom.getAttribute current "fill-rule")).
  - destruct (Dom.getAttribute current "fill-rule"); [exact Hv|exact IH].
  - exact IH.
Qed.

(** X15.  The fill rule in effect for a path is the first non-empty [fill-rule]
    attribute met from the path itself up to the root, [nonzero] when there
    is none; it is never empty.  When the path has a non-empty attribute of
    its own, or when nothing is declared anywhere, it is, trimmed and in
    lower case, the rule [pathConverter] reads. *)
Theorem getPathFillRule_is_nearest_declaration (element : SvgElement) :
  Path.getPathFillRule element
  = optionOr
      (firstOffer fillRuleOffer
                  (element :: upToRoot (handles (ancestors element))))
      "nonzero"%string
  /\ Path.getPathFillRule element <> ""%string
  /\ (Js.truthy (Dom.getAttribute element "fill-rule") = true ->
      Js.toLowerCase (Js.trim (Path.getPathFillRule element))
      = Converters.ownFillRule element)
  /\ (firstOffer fillRuleOffer
                 (element :: upToRoot (handles (ancestors element))) = None ->
      Dom.getAttribute element "fill-rule" = None ->
      Js.toLowerCase (Js.trim (Path.getPathFillRule element))
      = Converters.ownFillRule element).
Proof.
  assert (Hshape :
            Path.getPathFillRule element
            = optionOr
                (firstOffer fillRuleOffer
                   (element :: upToRoot (handles (ancestors element))))
                "nonzero"%string).
  { unfold Path.getPathFillRule. cbn [firstOffer].
    unfold fillRuleOffer at 1. unfold whenTruthy.
    destruct (Js.truthy (Dom.getAttribute element "fill-rule")) eqn:Hown.
    - destruct (Dom.getAttribute element "fill-rule"); [reflexivity|discriminate].
    - apply inheritedFillRule_offers. }
  split; [exact Hshape|]. split; [|split].
  - rewrite Hshape.
    pose proof (firstOffer_fillRule_neverEmpty
                  (element :: upToRoot (handles (ancestors element)))) as Hnever.
    destruct (firstOffer fillRuleOffer _) as [rule|]; cbn [optionOr];
      [unfold neverEmpty in Hnever; congruence|discriminate].
  - intros Hown. unfold Path.getPathFillRule, Converters.ownFillRule.
    rewrite Hown.
    destruct (Dom.getAttribute element "fill-rule"); [reflexivity|discriminate].
  - intros Hnone Habsent. rewrite Hshape, Hnone.
    unfold Converters.ownFillRule. rewrite Habsent. reflexivity.
Qed.

End FillRuleFacts.

(** *** Shape of the emitted elements *)

Section ShapeFacts.
Context {ext : Externals}.

Lemma dimensions_nonneg (points : list Point) :
  0 <= fst (Geometry.dimensionsFromPoints points)
  /\ 0 <= snd (Geometry.dimensionsFromPoints points).
Proof.
  pose proof (getBoundingBox_spec points) as (_ & _ & _ & _ & Hw & Hh).
  split; assumption.
Qed.

Lemma box_sides_nonneg (points : list Point) :
  0 <= maxX (Geometry.getBoundingBox points) - minX (Geometry.getBoundingBox points)
  /\ 0 <= maxY (Geometry.getBoundingBox points)
          - minY (Geometry.getBoundingBox points).
Proof.
  pose proof (getBoundingBox_spec points) as (_ & _ & _ & Hdims & Hw & Hh).
  rewrite Hdims in Hw, Hh. split; assumption.
Qed.

Lemma relativeTo_startsAtOrigin (origin : Point) (rest extra : list Point) :
  startsAtOrigin ((Converters.relativeTo origin (origin :: rest) ++ extra)%list).
Proof.
  cbn. unfold pointEq. cbn [fst snd]. split; ring.
Qed.

Lemma createLineFromPoints_shape pts el ctx mk opts draws :
  optionAll wellShaped
    (fst (Converters.createLineFromPoints pts el ctx mk opts draws)).
Proof.
  unfold Converters.createLineFromPoints.
  destruct pts as [|origin rest]; [exact I|].
  rewrite bind_run. cbn [ret fst optionAll].
  unfold wellShaped, fieldsFitType. cbn [base fields type withGroupIds
    withPaint withPlacement withHeight withWidth withY withX withType
    withStrokeWidth withStrokeColor withBackgroundColor width height].
  split; [|apply dimensions_nonneg].
  destruct (optionOr (closePath opts) false).
  - apply relativeTo_startsAtOrigin.
  - rewrite <- (app_nil_r (Converters.relativeTo origin (origin :: rest))).
    apply relativeTo_startsAtOrigin.
Qed.

Lemma createArrowFromPoints_shape pts el ctx mk opts draws :
  Converters.shouldUseArrowType el ctx = true ->
  optionAll wellShaped
    (fst (Converters.createArrowFromPoints pts el ctx mk opts draws)).
Proof.
  intros Harrow. unfold Converters.createArrowFromPoints.
  destruct pts as [|origin rest]; [exact I|].
  rewrite bind_run. cbn [ret fst optionAll].
  unfold wellShaped, fieldsFitType. cbn [base fields type withGroupIds
    withPaint withPlacement withHeight withWidth withY withX withType
    withStrokeWidth withStrokeColor withBackgroundColor width height
    backgroundColor].
  split; [|apply dimensions_nonneg].
  split; [|split; [|reflexivity]].
  - destruct (optionOr (closePath opts) false).
    + apply relativeTo_startsAtOrigin.
    + rewrite <- (app_nil_r (Converters.relativeTo origin (origin :: rest))).
      apply relativeTo_startsAtOrigin.
  - unfold Converters.shouldUseArrowType in Harrow.
    apply orb_true_iff in Harrow.
    destruct Harrow as [Hhead|Hhead]; [left|right];
      intros Hnone; rewrite Hnone in Hhead; discriminate.
Qed.

Lemma createDrawFromPoints_shape pts el ctx mk opts draws :
  optionAll wellShaped
    (fst (Converters.createDrawFromPoints pts el ctx mk opts draws)).
Proof.
  unfold Converters.createDrawFromPoints.
  destruct (Nat.ltb (List.length pts) 2) eqn:Hshort; [exact I|].
  apply Nat.ltb_ge in Hshort.
  rewrite bind_run. cbn [ret fst optionAll].
  unfold wellShaped, fieldsFitType. cbn [base fields type withGroupIds
    withPaint withPlacement withHeight withWidth withY withX withType
    withStrokeWidth withStrokeColor withBackgroundColor width height].
  split; [|apply dimensions_nonneg].
  destruct pts as [|origin rest]; [cbn in Hshort; lia|].
  split.
  - rewrite <- (app_nil_r (Converters.relativeTo _ (origin :: rest))).
    apply relativeTo_startsAtOrigin.
  - unfold Converters.relativeTo. now rewrite length_map.
Qed.

Lemma ofNullable_shape (created : option ExcalidrawElement) :
  optionAll wellShaped created ->
  Forall wellShaped (elementsOf (Converters.ofNullable created)).
Proof.
  destruct created as [e|]; cbn; intros H;
    [constructor; [exact H|constructor]|constructor].
Qed.

Lemma rectConverter_shape el ctx mk draws :
  Forall wellShaped (elementsOf (fst (Converters.rectConverter el ctx mk draws))).
Proof.
  unfold Converters.rectConverter.
  destruct (_ || _); [constructor|].
  rewrite bind_run. cbn [ret fst elementsOf].
  constructor; [|constructor].
  unfold wellShaped, fieldsFitType. cbn [base fields type withStrokeSharpness
    withPaint withPlacement withHeight withWidth withY withX withType
    withStrokeWidth withStrokeColor withBackgroundColor width height].
  split; [exact I|apply box_sides_nonneg].
Qed.

Lemma circleConverter_shape el ctx mk draws :
  Forall wellShaped (elementsOf (fst (Converters.circleConverter el ctx mk draws))).
Proof.
  unfold Converters.circleConverter.
  destruct (Qleb _ _); [constructor|].
  rewrite bind_run. cbn [ret fst elementsOf].
  constructor; [|constructor].
  unfold wellShaped, fieldsFitType. cbn [base fields type
    withPaint withPlacement withHeight withWidth withY withX withType
    withStrokeWidth withStrokeColor withBackgroundColor width height].
  split; [exact I|apply box_sides_nonneg].
Qed.

Lemma ellipseConverter_shape el ctx mk draws :
  Forall wellShaped (elementsOf (fst (Converters.ellipseConverter el ctx mk draws))).
Proof.
  unfold Converters.ellipseConverter.
  destruct (_ || _); [constructor|].
  rewrite bind_run. cbn [ret fst elementsOf].
  constructor; [|constructor].
  unfold wellShaped, fieldsFitType. cbn [base fields type
    withPaint withPlacement withHeight withWidth withY withX withType
    withStrokeWidth withStrokeColor withBackgroundColor width height].
  split; [exact I|apply box_sides_nonneg].
Qed.

Lemma polygonConverter_shape el ctx mk draws :
  Forall wellShaped (elementsOf (fst (Converters.polygonConverter el ctx mk draws))).
Proof.
  unfold Converters.polygonConverter.
  destruct (Nat.ltb _ _); [constructor|].
  rewrite bind_run. cbn [ret fst]. apply ofNullable_shape.
  apply createLineFromPoints_shape.
Qed.

Lemma polylineConverter_shape el ctx mk draws :
  Forall wellShaped (elementsOf (fst (Converters.polylineConverter el ctx mk draws))).
Proof.
  unfold Converters.polylineConverter.
  destruct (Nat.ltb _ _); [constructor|].
  rewrite bind_run. cbn [ret fst]. apply ofNullable_shape.
  destruct (Converters.shouldUseArrowType el ctx) eqn:Harrow.
  - now apply createArrowFromPoints_shape.
  - apply createLineFromPoints_shape.
Qed.

Lemma lineConverter_shape el ctx mk draws :
  Forall wellShaped (elementsOf (fst (Converters.lineConverter el ctx mk draws))).
Proof.
  unfold Converters.lineConverter.
  rewrite bind_run. cbn [ret fst]. apply ofNullable_shape.
  destruct (Converters.shouldUseArrowType el ctx) eqn:Harrow.
  - now apply createArrowFromPoints_shape.
  - apply createLineFromPoints_shape.
Qed.

Lemma textConverter_shape el ctx mk draws :
  Forall wellShaped (elementsOf (fst (Converters.textConverter el ctx mk draws))).
Proof.
  unfold Converters.textConverter.
  destruct (negb (nonEmpty (Converters.getTextContent el))) eqn:Hempty;
    [constructor|].
  rewrite bind_run. cbn [ret fst elementsOf].
  constructor; [|constructor].
  unfold wellShaped, fieldsFitType. cbn [base fields type
    withPaint withPlacement withHeight withWidth withY withX withType
    withStrokeWidth withStrokeColor withBackgroundColor width height].
  apply negb_false_iff in Hempty. apply nonEmpty_true_iff in Hempty.
  split; [split; [exact Hempty|split; [reflexivity|apply Q.le_max_l]]|].
  split; (eapply Qle_trans; [|apply Q.le_max_l]); lra.
Qed.

Lemma zeroStrokeWidth_shape (e : ExcalidrawElement) :
  wellShaped e -> wellShaped (Converters.zeroStrokeWidth e).
Proof. destruct e as [b f]. exact (fun H => H). Qed.

Lemma convertSubpath_shape el ctx mk shared fill stroke rule visFill visStroke
      initial subpath draws :
  optionAll wellShaped
    (fst (fst (Converters.convertSubpath el ctx mk shared fill stroke rule
                 visFill visStroke initial subpath draws))).
Proof.
  unfold Converters.convertSubpath.
  destruct (negb (Subpath.isClosed subpath)).
  - destruct (negb visStroke); [exact I|].
    destruct (Converters.shouldUseArrowType el ctx) eqn:Harrow;
      rewrite bind_run; cbn [ret fst].
    + now apply createArrowFromPoints_shape.
    + apply createLineFromPoints_shape.
  - destruct (negb visFill).
    + destruct (negb visStroke); [exact I|].
      rewrite bind_run; cbn [ret fst]. apply createLineFromPoints_shape.
    + rewrite bind_run.
      pose proof (createDrawFromPoints_shape
                    (Converters.absolutePointsOf subpath) el ctx mk
                    (mkOptions None (Some shared)
                       (Some (fst (Converters.chooseBackground fill rule initial subpath)))
                       (Some stroke)) draws) as Hdraw.
      destruct (fst (Converters.createDrawFromPoints _ _ _ _ _ _)) as [d|];
        cbn [ret fst]; [|exact I].
      destruct (negb visStroke); cbn [optionAll];
        [now apply zeroStrokeWidth_shape|exact Hdraw].
Qed.

Lemma convertSubpaths_shape el ctx mk shared fill stroke rule visFill visStroke
      subpaths :
  forall initial draws,
    Forall (optionAll wellShaped)
      (fst (Converters.convertSubpaths el ctx mk shared fill stroke rule
              visFill visStroke initial subpaths draws)).
Proof.
  induction subpaths as [|s rest IH]; intros initial draws.
  - constructor.
  - cbn [Converters.convertSubpaths]. rewrite !bind_run. cbn [ret fst].
    constructor; [apply convertSubpath_shape|apply IH].
Qed.

Lemma pathConverter_shape el ctx mk draws :
  Forall wellShaped (elementsOf (fst (Converters.pathConverter el ctx mk draws))).
Proof.
  rewrite pathConverter_elements. apply withoutNulls_Forall.
  unfold Converters.pathItems. rewrite bind_run. apply convertSubpaths_shape.
Qed.

Lemma svgConverters_shape name converter el ctx mk draws :
  Converters.svgConverters name = Some converter ->
  Forall wellShaped (elementsOf (fst (converter el ctx mk draws))).
Proof.
  unfold Converters.svgConverters. intros Hfound.
  repeat match type of Hfound with
         | (if ?c then _ else _) = _ => destruct c
         end;
    inversion Hfound; subst.
  - apply rectConverter_shape.
  - apply circleConverter_shape.
  - apply ellipseConverter_shape.
  - apply lineConverter_shape.
  - apply polygonConverter_shape.
  - apply polylineConverter_shape.
  - apply pathConverter_shape.
  - apply textConverter_shape.
Qed.

Lemma convertNodes_shape ctx nodes :
  forall draws, Forall wellShaped (fst (Convert.convertNodes ctx nodes draws)).
Proof.
  induction nodes as [|node rest IH]; intros draws.
  - constructor.
  - cbn [Convert.convertNodes]. rewrite !bind_run. cbn [ret fst].
    apply Forall_app. split; [|apply IH].
    rewrite convertNode_elementsOf.
    destruct (Converters.svgConverters _) as [converter|] eqn:Hfound;
      [|constructor].
    eapply svgConverters_shape. exact Hfound.
Qed.

(** X16.  Every element of every converted document is well shaped: its variant
    fields fit its type, its points, if it has any, start at the origin,
    an Arrow has an arrowhead and no fill, a Text is not empty, and width
    and height are never negative. *)
Theorem every_element_is_well_shaped (root : SvgElement) (draws : nat) :
  Forall wellShaped (elements (fst (Convert.convertSvgRoot root draws))).
Proof.
  unfold Convert.convertSvgRoot. rewrite bind_run. cbn [ret fst elements].
  apply convertNodes_shape.
Qed.

End ShapeFacts.

(** *** Lines, polygons, polylines and texts *)

Section LineFacts.
Context {ext : Externals}.





End LineFacts.

Section TextFacts.
Context {ext : Externals}.


End TextFacts.

Section BoxedShapeFacts.
Context {ext : Externals}.


Lemma Forall2_pointEq_box (A B : list Point) :
  Forall2 pointEq B A ->
  boxEq (Geometry.getBoundingBox B) (Geometry.getBoundingBox A).
Proof.
  intros Hsame. apply getBoundingBox_same_points.
  - induction Hsame as [|b a B' A' Hba _ IH]; intros p Hp; [destruct Hp|].
    destruct Hp as [Hp|Hp].
    + subst p. exists b. split; [now left|exact Hba].
    + destruct (IH p Hp) as (q & Hq & Heq). exists q. split; [now right|exact Heq].
  - induction Hsame as [|b a B' A' Hba _ IH]; intros p Hp; [destruct Hp|].
    destruct Hp as [Hp|Hp].
    + subst p. exists a. split; [now left|exact Hba].
    + destruct (IH p Hp) as (q & Hq & Heq). exists q. split; [now right|exact Heq].
Qed.

(** X20.  When every element from the node up to the root has no transform
    declaration, or a malformed one, the accumulated transform leaves every
    point where it is, and with the points their bounding box. *)
Theorem accumulated_transform_without_declarations
        (element : SvgElement) (points : list Point) :
  Forall transformAbsentOrMalformed (belowRoot (lineage element)) ->
  Forall2 pointEq
    (Transform.transformPoints points
       (Transform.getAccumulatedTransform element))
    points
  /\ boxEq
       (Geometry.getBoundingBox
          (Transform.transformPoints points
             (Transform.getAccumulatedTransform element)))
       (Geometry.getBoundingBox points).
Proof.
  intros Hnone.
  pose proof (@undeclared_transform_fixes_points _ element points Hnone)
    as Hsame.
  split; [exact Hsame|]. now apply Forall2_pointEq_box.
Qed.




End BoxedShapeFacts.

(** *** How many elements a [path] yields *)

Section PathEmission.
Context {ext : Externals}.






End PathEmission.

(** *** Which nodes are selected for conversion *)

Section Visibility.
Context {ext : Externals}.

Lemma anyHidden_of_member chain ancestor :
  In ancestor chain ->
  Convert.hidesItself ancestor = true ->
  Convert.anyHidden chain = true.
Proof.
  induction chain as [|current above IH]; intros Hin Hhides; [contradiction|].
  cbn [Convert.anyHidden].
  destruct Hin as [Hsame|Hin].
  - subst current. now rewrite Hhides.
  - destruct (Convert.hidesItself current); [reflexivity|now apply IH].
Qed.

Lemma display_none_hides (current : SvgElement) (value : string) :
  Dom.getAttribute current "display" = Some value ->
  Js.toLowerCase (Js.trim value) = "none"%string ->
  Convert.hidesItself current = true.
Proof.
  intros Hattribute Hnone. unfold Convert.hidesItself.
  rewrite Hattribute. cbn [optionOr]. rewrite Hnone. reflexivity.
Qed.

Lemma visibility_hidden_hides (current : SvgElement) (value : string) :
  Dom.getAttribute current "visibility" = Some value ->
  Js.toLowerCase (Js.trim value) = "hidden"%string ->
  Convert.hidesItself current = true.
Proof.
  intros Hattribute Hhidden. unfold Convert.hidesItself.
  rewrite Hattribute. cbn [optionOr]. rewrite Hhidden.
  cbn [String.eqb Ascii.eqb Bool.eqb orb].
  now destruct (_ || _).
Qed.

Lemma style_display_none_hides (current : SvgElement) :
  Js.get (Convert.parseInlineStyle (Dom.getAttribute current "style"))
         "display" = Some "none"%string ->
  Convert.hidesItself current = true.
Proof.
  intros Hstyle. unfold Convert.hidesItself. rewrite Hstyle.
  cbn [String.eqb Ascii.eqb Bool.eqb]. now rewrite orb_true_r.
Qed.

Lemma style_visibility_hidden_hides (current : SvgElement) :
  Js.get (Convert.parseInlineStyle (Dom.getAttribute current "style"))
         "visibility" = Some "hidden"%string ->
  Convert.hidesItself current = true.
Proof.
  intros Hstyle. unfold Convert.hidesItself. rewrite Hstyle.
  cbn [String.eqb Ascii.eqb Bool.eqb]. rewrite orb_true_r.
  now destruct (_ || _).
Qed.

(** X24.  A node is left out of the conversion when it, or any element above
    it, has a tag name that in lower case reads [defs], [symbol], [mask],
    [marker], [pattern], [lineargradient], [radialgradient] or [filter],
    or has a [display] that reads [none] or a [visibility] that reads
    [hidden], as an attribute or in its inline style; nothing below such an
    element can undo it.  The table entry [clipPath] is not among the tag
    names that count: no lower-case name equals it. *)
Theorem nodes_below_hidden_or_listed_elements_are_skipped
        (root node ancestor : SvgElement) :
  In ancestor (lineage node) ->
  In (Js.toLowerCase (Dom.tagName ancestor))
     ["defs"; "symbol"; "mask"; "marker"; "pattern"; "lineargradient";
      "radialgradient"; "filter"]%string
  \/ (exists value,
         Dom.getAttribute ancestor "display" = Some value
         /\ Js.toLowerCase (Js.trim value) = "none"%string)
  \/ (exists value,
         Dom.getAttribute ancestor "visibility" = Some value
         /\ Js.toLowerCase (Js.trim value) = "hidden"%string)
  \/ Js.get (Convert.parseInlineStyle (Dom.getAttribute ancestor "style"))
            "display" = Some "none"%string
  \/ Js.get (Convert.parseInlineStyle (Dom.getAttribute ancestor "style"))
            "visibility" = Some "hidden"%string ->
  ~ In node (Convert.selectedNodes root).
Proof.
  intros Hin Hsays Hselected.
  unfold Convert.selectedNodes in Hselected.
  apply filter_In in Hselected. destruct Hselected as [_ Hconvert].
  unfold Convert.shouldConvertNode, Convert.hasNonRenderedAncestor,
    Convert.isVisuallyHidden in Hconvert.
  destruct Hsays as [Htag|Hhides].
  - assert (Hlisted :
              Convert.isNonRenderedContainer
                (Js.toLowerCase (Dom.tagName ancestor)) = true).
    { cbn [In] in Htag.
      repeat (destruct Htag as [Htag|Htag];
              [rewrite <- Htag; reflexivity|]).
      contradiction. }
    rewrite (anyNonRendered_of_member _ _ Hin Hlisted) in Hconvert.
    discriminate.
  - assert (Hhidden : Convert.hidesItself ancestor = true).
    { destruct Hhides
        as [(value & Hattribute & Hnone)
           |[(value & Hattribute & Hhidden)|[Hstyle|Hstyle]]].
      - exact (display_none_hides _ Hattribute Hnone).
      - exact (visibility_hidden_hides _ Hattribute Hhidden).
      - exact (style_display_none_hides _ Hstyle).
      - exact (style_visibility_hidden_hides _ Hstyle). }
    rewrite (anyHidden_of_member _ _ Hin Hhidden) in Hconvert.
    destruct (Convert.anyNonRendered (lineage node)); discriminate.
Qed.

End Visibility.

(** *** The further properties on the sample documents *)

Section FurtherScenarios.

#[local] Existing Instance Figures.figureExternals.

Lemma getBoundingBox_encloses_witness :
  touchesBox (Geometry.getBoundingBox Samples.outerSquare) Samples.outerSquare.
Proof.
  destruct (getBoundingBox_encloses Samples.outerSquare) as (_ & Htouch & _).
  apply Htouch. discriminate.
Defined.

Lemma isClosedSubpath_of_loop_witness :
  Path.isClosedSubpath Samples.outerSquare = true
  /\ Path.isClosedSubpath [(4, 4)] = false.
Proof.
  split.
  - destruct (isClosedSubpath_of_loop Samples.outerSquare) as (_ & Hloop).
    apply Hloop.
    + vm_compute. lia.
    + vm_compute. split; reflexivity.
  - destruct (isClosedSubpath_of_loop [(4, 4)]) as (Hshort & _).
    apply Hshort. vm_compute. lia.
Defined.

Lemma buildSubpathData_keeps_long_subpaths_witness :
  (PathData.index (nth 0 Samples.squaresData Samples.emptyData)
   < PathData.index (nth 1 Samples.squaresData Samples.emptyData))%Z.
Proof.
  destruct (buildSubpathData_keeps_long_subpaths
              [Samples.outerSquare; rev Samples.innerSquare] Affine.identity)
    as (_ & Hordered & _).
  apply (Hordered 0%nat 1%nat); [lia|reflexivity|reflexivity].
Defined.

Lemma marked_hole_has_a_larger_container_witness :
  exists container,
    In container Samples.squaresData
    /\ PathData.area (nth 1 Samples.squaresData Samples.emptyData)
       < PathData.area container.
Proof.
  destruct (@marked_hole_has_a_larger_container Samples.squaresData false 1%nat
              (nth 1 Samples.squaresData Samples.emptyData)
              (nth 1 (Path.markHoleSubpaths Samples.squaresData false)
                   Samples.emptyData))
    as (Hmarked & _).
  - vm_compute. reflexivity.
  - vm_compute. reflexivity.
  - destruct Hmarked as (container & Hin & _ & Harea & _).
    + intros Hsame. apply (f_equal PathData.isHole) in Hsame.
      vm_compute in Hsame. discriminate Hsame.
    + exists container. split; [exact Hin|exact Harea].
Defined.

Lemma evenodd_marks_every_nonzero_hole_witness :
  PathData.isHole
    (nth 1 (Path.markHoleSubpaths Samples.squaresData true) Samples.emptyData)
  = true.
Proof.
  apply (@evenodd_marks_every_nonzero_hole Samples.squaresData 1%nat
           (nth 1 (Path.markHoleSubpaths Samples.squaresData false)
                Samples.emptyData)
           (nth 1 (Path.markHoleSubpaths Samples.squaresData true)
                Samples.emptyData)).
  - vm_compute. reflexivity.
  - vm_compute. reflexivity.
  - vm_compute. reflexivity.
Defined.

Lemma accumulated_transform_without_declarations_witness :
  Forall2 pointEq
    (Transform.transformPoints Samples.segment
       (Transform.getAccumulatedTransform Samples.brokenPath))
    Samples.segment.
Proof.
  destruct (@accumulated_transform_without_declarations
              Figures.figureExternals Samples.brokenPath Samples.segment)
    as (Hsame & _); [|exact Hsame].
  assert (Hchain : belowRoot (lineage Samples.brokenPath) = [Samples.brokenPath])
    by (vm_compute; reflexivity).
  rewrite Hchain. constructor; [|constructor].
  hnf. left. exists "Syntax error"%string. reflexivity.
Defined.

Lemma undeclared_properties_take_defaults_witness :
  Style.getFillColor Samples.flatRect
    (styleContext (Samples.emptyContext Samples.brokenDocument))
  = "#000000"%string.
Proof.
  destruct (@undeclared_properties_take_defaults Figures.figureExternals
              Samples.flatRect
              (styleContext (Samples.emptyContext Samples.brokenDocument)))
    as (Hfill & _).
  apply Hfill. split.
  - vm_compute. repeat split.
  - assert (Hchain :
              upToRoot (handles (ancestors Samples.flatRect))
              = [mkSvgElement Samples.brokenDocument []])
      by (vm_compute; reflexivity).
    rewrite Hchain. constructor; [|constructor]. vm_compute. reflexivity.
Defined.

Lemma resolved_colors_are_never_empty_witness :
  Style.getFillColor Figures.unpaintedPath
    (styleContext (Samples.emptyContext Figures.pathsDocument))
  = "transparent"%string.
Proof.
  destruct (@resolved_colors_are_never_empty Figures.figureExternals
              Figures.unpaintedPath
              (styleContext (Samples.emptyContext Figures.pathsDocument)))
    as (_ & _ & Hnone & _).
  apply (Hnone "none"%string); vm_compute; reflexivity.
Defined.

Lemma getPathFillRule_is_nearest_declaration_witness :
  Js.toLowerCase (Js.trim (Path.getPathFillRule Figures.evenOddPath))
  = "evenodd"%string.
Proof.
  destruct (getPathFillRule_is_nearest_declaration Figures.evenOddPath)
    as (_ & _ & Hown & _).
  rewrite Hown; vm_compute; reflexivity.
Defined.






Lemma nodes_below_hidden_or_listed_elements_are_skipped_witness :
  ~ In Figures.hiddenRect
       (Convert.selectedNodes (mkSvgElement Figures.hiddenDocument [])).
Proof.
  apply (@nodes_below_hidden_or_listed_elements_are_skipped
           Figures.figureExternals
           (mkSvgElement Figures.hiddenDocument []) Figures.hiddenRect
           (nth 1 (lineage Figures.hiddenRect) Figures.hiddenRect)).
  - vm_compute. right. left. reflexivity.
  - right. left. exists " None "%string. split; vm_compute; reflexivity.
Defined.

(** A gradient reference whose id the selector engine rejects makes the
    conversion raise although the markup parses. *)
Example gradient_reference_raises :
  Convert.parseSvg Figures.gradientMarkup
  = Returned (mkSvgElement Figures.gradientDocument [])
  /\ fst (Convert.convertSvgToExcalidraw Figures.gradientMarkup 0%nat)
     = Thrown "SyntaxError: unknown pseudo-class"%string.
Proof. split; vm_compute; reflexivity. Qed.

End FurtherScenarios.
